(** * RMM maturity dashboard: the scoring pipeline of [src/scoring.py]
      and the quadrant classifier of [src/utils.py]

    A shallow embedding of the pandas/numpy code.

    Numbers.  A Python float is modelled as an exact rational ([Q]); a
    float that may be NaN is a [num], with [None] standing for NaN.
    Every arithmetic operation propagates NaN and every comparison
    with NaN is false, as in IEEE 754 and numpy.  Rounding of floats is
    not modelled, except in the definitions marked binary64, which
    compute with the kernel's IEEE 754 double-precision numbers.

    Tables.  A DataFrame is the list of its rows, in index order; each
    row is a record with one field per column.  The optional columns of
    the responses table are recorded by presence flags next to the rows.

    Errors.  A Python exception is the result [None] of the function
    that raises it. *)

From Stdlib Require Import QArith Qround ZArith List String Bool.
From Stdlib Require Import Lia Lqa Qminmax Permutation Sorted DecimalString.
From Stdlib Require Import PrimFloat.
Import ListNotations.

Local Open Scope Q_scope.

(* ------------------------------------------------------------------ *)
(** ** Floats *)

Module Num.

(** A float that may be NaN. *)
Definition num : Type := option Q.

Definition nan : num := None.

Definition lift2 (op : Q -> Q -> Q) (a b : num) : num :=
  match a, b with
  | Some x, Some y => Some (op x y)
  | _, _ => None
  end.

Definition sub : num -> num -> num := lift2 Qminus.

(** Boolean comparisons on rationals. *)
Definition Qlt_bool (x y : Q) : bool := negb (Qle_bool y x).
Definition Qge_bool (x y : Q) : bool := Qle_bool y x.
Definition Qgt_bool (x y : Q) : bool := Qlt_bool y x.

(** Comparisons of floats: false as soon as one side is NaN. *)
Definition cmp2 (c : Q -> Q -> bool) (a b : num) : bool :=
  match a, b with
  | Some x, Some y => c x y
  | _, _ => false
  end.

Definition gt : num -> num -> bool := cmp2 Qgt_bool.
Definition ge : num -> num -> bool := cmp2 Qge_bool.

(** Python's builtin [max(a, b)] with a number as first argument:
    [a] is kept unless [b > a]; a NaN [b] is therefore never chosen. *)
Definition py_max (a : Q) (b : num) : Q :=
  if gt b (Some a) then match b with Some y => y | None => a end else a.

(** Python's builtin [min(a, b)] on two numbers: [b] when [b < a]. *)
Definition py_min (a b : Q) : Q := if Qlt_bool b a then b else a.

(** [Series.between(lo, hi)], inclusive on both sides; false on NaN. *)
Definition between (lo hi : Q) (a : num) : bool :=
  match a with
  | Some x => Qle_bool lo x && Qle_bool x hi
  | None => false
  end.

(** Python's [int(x)] on a float: truncation towards zero. *)
Definition py_int (x : Q) : Z := Z.quot (Qnum x) (Zpos (Qden x)).

(** Equality of floats up to the representation of the rational. *)
Definition eq (a b : num) : Prop :=
  match a, b with
  | Some x, Some y => x == y
  | None, None => True
  | _, _ => False
  end.

End Num.
Import Num.

(* ------------------------------------------------------------------ *)
(** ** numpy and pandas reductions *)

Module Stats.

Fixpoint insert_sorted (x : Q) (l : list Q) : list Q :=
  match l with
  | [] => [x]
  | y :: t => if Qle_bool x y then x :: l else y :: insert_sorted x t
  end.

(** Ascending sort of the sample, as done inside [np.median] and
    [np.percentile]. *)
Fixpoint sort_asc (l : list Q) : list Q :=
  match l with
  | [] => []
  | x :: t => insert_sorted x (sort_asc t)
  end.

Fixpoint Qsum (l : list Q) : Q :=
  match l with
  | [] => 0
  | x :: t => x + Qsum t
  end.

Definition Qlen (A : Type) (l : list A) : Q := inject_Z (Z.of_nat (List.length l)).
Arguments Qlen {A} l.

(** The values of a column when none of them is NaN. *)
Fixpoint all_defined (l : list num) : option (list Q) :=
  match l with
  | [] => Some []
  | None :: _ => None
  | Some x :: t =>
      match all_defined t with
      | Some r => Some (x :: r)
      | None => None
      end
  end.

(** The values of a column that are not NaN ([skipna=True]). *)
Fixpoint drop_nan (l : list num) : list Q :=
  match l with
  | [] => []
  | None :: t => drop_nan t
  | Some x :: t => x :: drop_nan t
  end.

(** Median of a non-empty sample of numbers: the middle element of
    the sorted sample, or the mean of the two middle ones. *)
Definition median_of (l : list Q) : Q :=
  let s := sort_asc l in
  let n := List.length s in
  if Nat.even n
  then (nth (n / 2 - 1) s 0 + nth (n / 2) s 0) / 2
  else nth (n / 2) s 0.

(** [np.percentile(a, q)] with the default linear interpolation;
    [q] is the fraction (0.25 for the 25th percentile).  The virtual
    index is [(n-1)*q]; the result interpolates between the two
    neighbouring order statistics. *)
Definition percentile_of (l : list Q) (q : Q) : Q :=
  let s := sort_asc l in
  let n := List.length s in
  let vi := inject_Z (Z.of_nat (n - 1)) * q in
  let i := Z.to_nat (Qfloor vi) in
  let g := vi - inject_Z (Qfloor vi) in
  let lo := nth i s 0 in
  let hi := nth (Nat.min (i + 1) (n - 1)) s 0 in
  lo + (hi - lo) * g.

(** [np.median] on an array: NaN as soon as one entry is NaN. *)
Definition np_median (l : list num) : num :=
  match all_defined l with
  | Some xs => Some (median_of xs)
  | None => None
  end.

(** [np.mean] on a non-empty array. *)
Definition np_mean (l : list num) : num :=
  match all_defined l with
  | Some xs => Some (Qsum xs / Qlen xs)
  | None => None
  end.

(** [np.percentile(a, 100*q)]. *)
Definition np_percentile (l : list num) (q : Q) : num :=
  match all_defined l with
  | Some xs => Some (percentile_of xs q)
  | None => None
  end.

(** [Series.mean()]: NaN entries are skipped; NaN when nothing is
    left. *)
Definition pd_mean (l : list num) : num :=
  match drop_nan l with
  | [] => None
  | xs => Some (Qsum xs / Qlen xs)
  end.

End Stats.
Import Stats.

(* ------------------------------------------------------------------ *)
(** ** Input tables *)

(** A row of [factors.csv]. *)
Record Factor : Type := mkFactor {
  f_factor_id : string;
  f_area : string;
  f_factor_name : string;
  f_weight : Q;
  f_target_level : Q;
  f_owner_group : string;
  f_evidence_required : bool
}.

(** A row of [responses.csv].  A numeric cell may be missing (NaN);
    [evidence_link] is [None] when the cell is null.  The scorer reads
    the [evidence_link] column without testing for it, so it is a column
    of every table; the columns tested with [in ... .columns] are the
    optional ones below. *)
Record Response : Type := mkResponse {
  r_cycle_id : string;
  r_respondent_id : string;
  r_org_group : string;
  r_factor_id : string;
  r_level : num;
  r_proficiency_level : num;
  r_coverage_level : num;
  r_confidence : num;
  r_evidence_link : option string
}.

(** The responses DataFrame: its rows and which optional columns it
    has.  The cells of an absent column are never read. *)
Record Responses : Type := mkResponses {
  rows : list Response;
  has_proficiency_level : bool;
  has_coverage_level : bool;
  has_confidence : bool
}.

(** A row of [actions.csv]. *)
Record Action : Type := mkAction {
  a_action_id : string;
  a_factor_id : string;
  a_if_level_leq : Q;
  a_action_text : string;
  a_impact : Q;
  a_effort : Q;
  a_timeframe : string;
  a_dependency_action_id : option string
}.

(** [df[col]] with the rows kept where the predicate holds. *)
Definition with_rows (df : Responses) (rs : list Response) : Responses :=
  {| rows := rs;
     has_proficiency_level := has_proficiency_level df;
     has_coverage_level := has_coverage_level df;
     has_confidence := has_confidence df |}.

Definition select (p : Response -> bool) (df : Responses) : Responses :=
  with_rows df (filter p (rows df)).

(* ------------------------------------------------------------------ *)
(** ** Validation *)

(** [Series.isin(values)]. *)
Definition isin (x : string) (values : list string) : bool :=
  existsb (String.eqb x) values.

(** [validate_responses(responses_df, factors_df)]: four successive
    selections; the last two only when the column exists. *)
Definition validate_responses (responses_df : Responses)
    (factors_df : list Factor) : Responses :=
  let valid_factors := map f_factor_id factors_df in
  let df1 := select (fun r => isin (r_factor_id r) valid_factors) responses_df in
  let df2 := select (fun r => between 1 5 (r_level r)) df1 in
  let df3 :=
    if has_proficiency_level df2
    then select (fun r => between 1 5 (r_proficiency_level r)) df2
    else df2 in
  let df4 :=
    if has_coverage_level df3
    then select (fun r => between 1 5 (r_coverage_level r)) df3
    else df3 in
  df4.

(* ------------------------------------------------------------------ *)
(** ** Factor-level scoring *)

(** One dictionary appended to [factor_scores]. *)
Record FactorScore : Type := mkFactorScore {
  factor_id : string;
  median_level : num;
  mean_level : num;
  proficiency_median : num;
  coverage_median : num;
  n_responses : nat;
  dispersion : num;
  confidence_avg : num;
  evidence_rate : Q;
  index_raw : num;
  quality_penalty : Q;
  index_adjusted : Q
}.

(** A row of the frame returned by [compute_factor_scores]: the score
    columns followed by the catalog columns brought in by the merge. *)
Record ScoreRow : Type := mkScoreRow {
  score : FactorScore;
  info : Factor
}.

(** The error monad of the embedding. *)
Definition bind {A B : Type} (m : option A) (k : A -> option B) : option B :=
  match m with
  | Some a => k a
  | None => None
  end.

Notation "x <- m ;; k" := (bind m (fun x => k))
  (at level 61, m at next level, right associativity).

Fixpoint mapM {A B : Type} (f : A -> option B) (l : list A) : option (list B) :=
  match l with
  | [] => Some []
  | a :: t => b <- f a ;; bs <- mapM f t ;; Some (b :: bs)
  end.

(** Truthiness of the [org_group_filter] argument: [None] and the empty
    string are falsy. *)
Definition truthy (s : option string) : bool :=
  match s with
  | None => false
  | Some g => negb (String.eqb g "")
  end.

(** Lines 42-44: the rows of the cycle, restricted to the group when a
    filter is given and it is not ['All']. *)
Definition cycle_rows (responses_df : Responses) (cycle_id : string)
    (org_group_filter : option string) : Responses :=
  let cycle_data := select (fun r => String.eqb (r_cycle_id r) cycle_id) responses_df in
  match org_group_filter with
  | Some g =>
      if truthy org_group_filter && negb (String.eqb g "All")
      then select (fun r => String.eqb (r_org_group r) g) cycle_data
      else cycle_data
  | None => cycle_data
  end.

Definition notna_count (l : list (option string)) : nat :=
  List.length (filter (fun o => match o with Some _ => true | None => false end) l).

Definition Qnat (n : nat) : Q := inject_Z (Z.of_nat n).

(** The three increments of lines 105-111. *)
Definition penalty (n_responses : nat) (dispersion : num)
    (evidence_required : bool) (evidence_rate : Q) : Q :=
  let quality_penalty := 0 in
  let quality_penalty :=
    if (n_responses <? 3)%nat then quality_penalty + (1 # 2) else quality_penalty in
  let quality_penalty :=
    if gt dispersion (Some (3 # 2)) then quality_penalty + (1 # 2) else quality_penalty in
  let quality_penalty :=
    if evidence_required && Qlt_bool evidence_rate (1 # 2)
    then quality_penalty + (1 # 2) else quality_penalty in
  quality_penalty.

(** The rows of [cycle_data] that rate the factor (line 52). *)
Definition factor_responses_of (cycle_data : Responses) (fid : string)
    : list Response :=
  filter (fun r => String.eqb (r_factor_id r) fid) (rows cycle_data).

(** Lines 54-128: the dictionary appended for [factor_id], given its
    catalog row [factor_info]. *)
Definition factor_score (cycle_data : Responses) (factor_info : Factor)
    (fid : string) : FactorScore :=
  let factor_responses := factor_responses_of cycle_data fid in
  if (List.length factor_responses =? 0)%nat then
    {| factor_id := fid;
       median_level := nan;
       mean_level := nan;
       proficiency_median := nan;
       coverage_median := nan;
       n_responses := 0;
       dispersion := nan;
       confidence_avg := nan;
       evidence_rate := 0;
       index_raw := Some 1;
       quality_penalty := 0;
       index_adjusted := 1 |}
  else
    let levels := map r_level factor_responses in
    let median_level := np_median levels in
    let mean_level := np_mean levels in
    let n_responses := List.length levels in
    let q75 := np_percentile levels (75 # 100) in
    let q25 := np_percentile levels (25 # 100) in
    let dispersion := sub q75 q25 in
    let proficiency_median :=
      if has_proficiency_level cycle_data
      then np_median (map r_proficiency_level factor_responses)
      else median_level in
    let coverage_median :=
      if has_coverage_level cycle_data
      then np_median (map r_coverage_level factor_responses)
      else median_level in
    let confidence_avg :=
      if has_confidence cycle_data
      then pd_mean (map r_confidence factor_responses)
      else Some (35 # 10) in
    let evidence_rate :=
      if f_evidence_required factor_info
      then Qnat (notna_count (map r_evidence_link factor_responses)) / Qnat n_responses
      else 1 in
    let index_raw := median_level in
    let quality_penalty :=
      penalty n_responses dispersion (f_evidence_required factor_info) evidence_rate in
    let index_adjusted := py_max 1 (sub index_raw (Some quality_penalty)) in
    {| factor_id := fid;
       median_level := median_level;
       mean_level := mean_level;
       proficiency_median := proficiency_median;
       coverage_median := coverage_median;
       n_responses := n_responses;
       dispersion := dispersion;
       confidence_avg := confidence_avg;
       evidence_rate := evidence_rate;
       index_raw := index_raw;
       quality_penalty := quality_penalty;
       index_adjusted := index_adjusted |}.

(** Line 51: the first catalog row with this [factor_id]; [.iloc[0]] on
    an empty selection raises [IndexError]. *)
Definition factor_info_of (factors_df : list Factor) (fid : string)
    : option Factor :=
  find (fun f => String.eqb (f_factor_id f) fid) factors_df.

(** One iteration of the loop of [compute_factor_scores]. *)
Definition score_factor (cycle_data : Responses) (factors_df : list Factor)
    (fid : string) : option FactorScore :=
  factor_info <- factor_info_of factors_df fid ;;
  Some (factor_score cycle_data factor_info fid).

(** [scores_df.merge(factors_df, on='factor_id', how='left')]: every
    score row, in order, joined with each catalog row of the same
    [factor_id].  A score row without a partner would get NaN catalog
    columns; the keys of [scores_df] are drawn from the catalog, so that
    case does not arise (lemma [merge_partner]).  When [factor_scores] is
    empty, [pd.DataFrame([])] has no [factor_id] column and the merge
    raises [KeyError]. *)
Definition merge_left (scores : list FactorScore) (factors_df : list Factor)
    : option (list ScoreRow) :=
  match scores with
  | [] => None
  | _ =>
      Some (flat_map
              (fun s =>
                 map (mkScoreRow s)
                     (filter (fun f => String.eqb (f_factor_id f) (factor_id s)) factors_df))
              scores)
  end.

(** [compute_factor_scores(responses_df, factors_df, cycle_id,
    org_group_filter=None)]. *)
Definition compute_factor_scores (responses_df : Responses)
    (factors_df : list Factor) (cycle_id : string)
    (org_group_filter : option string) : option (list ScoreRow) :=
  let cycle_data := cycle_rows responses_df cycle_id org_group_filter in
  factor_scores <- mapM (score_factor cycle_data factors_df)
                        (map f_factor_id factors_df) ;;
  merge_left factor_scores factors_df.

(* ------------------------------------------------------------------ *)
(** ** Tables without the evidence column *)

(** A responses table as it is loaded.  [evidence_link] is not among
    the columns a file must have; [Responses] above is a table that has
    it, and [has_evidence_link] says whether this one does (when it
    does not, the [r_evidence_link] cells of [body] are never read). *)
Record Table : Type := mkTable {
  body : Responses;
  has_evidence_link : bool
}.

(** One iteration of the loop of [compute_factor_scores] on such a
    table.  Line 97 reads [factor_responses['evidence_link']] without
    testing for the column: for a factor that requires evidence and has
    responses this raises [KeyError] when the column is missing. *)
Definition score_factor_table (t : Table) (cycle_data : Responses)
    (factors_df : list Factor) (fid : string) : option FactorScore :=
  factor_info <- factor_info_of factors_df fid ;;
  if negb (List.length (factor_responses_of cycle_data fid) =? 0)%nat
     && f_evidence_required factor_info
     && negb (has_evidence_link t)
  then None
  else Some (factor_score cycle_data factor_info fid).

(** [compute_factor_scores] on a table as loaded. *)
Definition compute_factor_scores_table (t : Table)
    (factors_df : list Factor) (cycle_id : string)
    (org_group_filter : option string) : option (list ScoreRow) :=
  let cycle_data := cycle_rows (body t) cycle_id org_group_filter in
  factor_scores <- mapM (score_factor_table t cycle_data factors_df)
                        (map f_factor_id factors_df) ;;
  merge_left factor_scores factors_df.

(* ------------------------------------------------------------------ *)
(** ** Area aggregation *)

Record AreaScore : Type := mkAreaScore {
  area : string;
  area_index : Q;
  area_level : Z;
  n_factors : nat;
  avg_responses : Q;
  avg_proficiency : num;
  avg_coverage : num
}.

(** [Series.unique()]: the distinct values in order of first
    appearance. *)
Fixpoint unique (l : list string) : list string :=
  match l with
  | [] => []
  | x :: t => x :: filter (fun y => negb (String.eqb x y)) (unique t)
  end.

(** Python's [round(x)]: to the nearest integer, ties to the even one. *)
Definition py_round (x : Q) : Z :=
  let f := Qfloor x in
  let d := x - inject_Z f in
  if Qlt_bool d (1 # 2) then f
  else if Qlt_bool (1 # 2) d then (f + 1)%Z
  else if Z.even f then f else (f + 1)%Z.

(** Lines 147-151 for the rows [af] of one area, in exact arithmetic:
    the sums and the quotient are not rounded.  [area_index_binary64]
    below is the same computation in binary64. *)
Definition area_index_of (af : list ScoreRow) : Q :=
  let total_weight := Qsum (map (fun r => f_weight (info r)) af) in
  if Qgt_bool total_weight 0
  then Qsum (map (fun r => index_adjusted (score r) * f_weight (info r)) af) / total_weight
  else 1.

Definition area_rows (factor_scores_df : list ScoreRow) (a : string) : list ScoreRow :=
  filter (fun r => String.eqb (f_area (info r)) a) factor_scores_df.

(** [compute_area_scores(factor_scores_df)]. *)
Definition compute_area_scores (factor_scores_df : list ScoreRow) : list AreaScore :=
  map (fun a =>
         let af := area_rows factor_scores_df a in
         let area_index := area_index_of af in
         let area_level := Z.min 5 (Z.max 1 (py_round area_index)) in
         {| area := a;
            area_index := area_index;
            area_level := area_level;
            n_factors := List.length af;
            avg_responses := Qsum (map (fun r => Qnat (n_responses (score r))) af) / Qlen af;
            avg_proficiency := pd_mean (map (fun r => proficiency_median (score r)) af);
            avg_coverage := pd_mean (map (fun r => coverage_median (score r)) af) |})
      (unique (map (fun r => f_area (info r)) factor_scores_df)).

(** *** The area index in binary64

    Lines 147-151 with the arithmetic Python performs.  [af] lists the
    cells ([index_adjusted], [weight]) of the rows of one area; a
    column of fewer than eight cells is summed from left to right,
    starting from zero. *)
Definition column_sum (column : list float) : float :=
  fold_left PrimFloat.add column 0%float.

Definition area_index_binary64 (af : list (float * float)) : float :=
  let total_weight := column_sum (map snd af) in
  if PrimFloat.ltb 0%float total_weight
  then PrimFloat.div
         (column_sum (map (fun r => PrimFloat.mul (fst r) (snd r)) af))
         total_weight
  else 1%float.

(** The weights 0.8 and 1.2 of the dummy catalog, as Python reads these
    decimals. *)
Definition weight_0_8 : float := 0x1.999999999999ap-1%float.
Definition weight_1_2 : float := 0x1.3333333333333p+0%float.

(* ------------------------------------------------------------------ *)
(** ** Gap analysis *)

Record Gap : Type := mkGap {
  g_factor_id : string;
  g_factor_name : string;
  g_area : string;
  current_level : Q;
  target_level : Q;
  gap_levels : Q;
  g_proficiency_level : num;
  g_coverage_level : num;
  g_action_id : string;
  g_action_text : string;
  transition : string;
  impact : Q;
  effort : Q;
  timeframe : string;
  priority_score : Q;
  owner_group : string
}.

(** [str(n)] for an integer. *)
Definition str_of_Z (z : Z) : string := NilZero.string_of_int (Z.to_int z).

(** Lines 203-205. *)
Definition current_level_of (factor : ScoreRow) : Q :=
  match median_level (score factor) with
  | Some m => m
  | None => 1
  end.

(** Line 206. *)
Definition gap_levels_of (factor : ScoreRow) : Q :=
  py_max 0 (Some (f_target_level (info factor) - current_level_of factor)).

(** Lines 227-233. *)
Definition quality_factor_of (factor : ScoreRow) : Q :=
  if (0 <? n_responses (score factor))%nat then
    let q_response := py_min 1 (Qnat (n_responses (score factor)) / 5) in
    let q_dispersion :=
      match dispersion (score factor) with
      | Some d => py_max 0 (Some (1 - d / 2))
      | None => 1 # 2
      end in
    let q_evidence := evidence_rate (score factor) in
    q_response * q_dispersion * q_evidence
  else 1 # 10.

(** Lines 211-214: the actions of the factor whose threshold is at
    least the current level. *)
Definition factor_actions_of (factor : ScoreRow) (actions_df : list Action)
    : list Action :=
  filter (fun a =>
            String.eqb (a_factor_id a) (factor_id (score factor))
            && Qge_bool (a_if_level_leq a) (current_level_of factor))
         actions_df.

(** The body of the inner loop: the dictionary appended to [gaps]. *)
Definition gap_row (factor : ScoreRow) (action : Action) : Gap :=
  let current_level := current_level_of factor in
  let gap_levels := gap_levels_of factor in
  let impact := a_impact action in
  let effort := a_effort action in
  let from_lvl := py_int (a_if_level_leq action) in
  let to_lvl := (from_lvl + 1)%Z in
  let transition_label :=
    ("Level " ++ str_of_Z from_lvl ++ " → " ++ str_of_Z to_lvl)%string in
  let priority_score :=
    (impact * gap_levels * f_weight (info factor)) / py_max effort (Some 1) in
  let priority_score := priority_score * quality_factor_of factor in
  {| g_factor_id := factor_id (score factor);
     g_factor_name := f_factor_name (info factor);
     g_area := f_area (info factor);
     current_level := current_level;
     target_level := f_target_level (info factor);
     gap_levels := gap_levels;
     g_proficiency_level := proficiency_median (score factor);
     g_coverage_level := coverage_median (score factor);
     g_action_id := a_action_id action;
     g_action_text := a_action_text action;
     transition := transition_label;
     impact := impact;
     effort := effort;
     timeframe := a_timeframe action;
     priority_score := priority_score;
     owner_group := f_owner_group (info factor) |}.

(** The rows appended while visiting one factor row (lines 202-254). *)
Definition factor_gaps (actions_df : list Action) (factor : ScoreRow) : list Gap :=
  if Qle_bool (gap_levels_of factor) 0 then []
  else map (gap_row factor) (factor_actions_of factor actions_df).

(** The list [gaps] at the end of the outer loop. *)
Definition collect_gaps (factor_scores_df : list ScoreRow)
    (actions_df : list Action) : list Gap :=
  flat_map (factor_gaps actions_df) factor_scores_df.

Fixpoint insert_desc (g : Gap) (l : list Gap) : list Gap :=
  match l with
  | [] => [g]
  | h :: t =>
      if Qle_bool (priority_score h) (priority_score g)
      then g :: l
      else h :: insert_desc g t
  end.

(** [sort_values('priority_score', ascending=False)].  pandas leaves
    the relative order of rows with equal keys unspecified; the model
    sorts by insertion. *)
Fixpoint sort_values_desc (l : list Gap) : list Gap :=
  match l with
  | [] => []
  | g :: t => insert_desc g (sort_values_desc t)
  end.

(** [compute_gap_analysis(factor_scores_df, actions_df)]. *)
Definition compute_gap_analysis (factor_scores_df : list ScoreRow)
    (actions_df : list Action) : list Gap :=
  let gaps := collect_gaps factor_scores_df actions_df in
  if (0 <? List.length gaps)%nat then sort_values_desc gaps else gaps.

(* ------------------------------------------------------------------ *)
(** ** Quadrant classification ([src/utils.py]) *)

(** [get_combined_maturity_quadrant(proficiency, coverage)]. *)
Definition get_combined_maturity_quadrant (proficiency coverage : num) : string :=
  let p_high := ge proficiency (Some 3) in
  let c_high := ge coverage (Some 3) in
  if p_high && c_high then
    "Institutional maturity and stable programme"
  else if p_high && negb c_high then
    "Strong practices not yet scaled across the organisation"
  else if negb p_high && c_high then
    "Widespread implementation requiring quality improvement"
  else
    "Early-stage capability requiring structural improvements".

(* ------------------------------------------------------------------ *)
(** ** Overall score *)

Record OverallScore : Type := mkOverallScore {
  overall_index : Q;
  overall_level : Z;
  overall_proficiency : num;
  overall_coverage : num
}.

(** [compute_overall_score(area_scores_df)]; the mean is exact here,
    its binary64 rounding is not modelled.  On a frame without rows
    the call raises: the frame built from an empty list has no
    [area_index] column ([KeyError]), and the mean of an empty column
    is NaN, which [round] refuses ([ValueError]). *)
Definition compute_overall_score (area_scores_df : list AreaScore)
    : option OverallScore :=
  match area_scores_df with
  | [] => None
  | _ =>
      let overall_index := Qsum (map area_index area_scores_df) / Qlen area_scores_df in
      let overall_level := Z.min 5 (Z.max 1 (py_round overall_index)) in
      Some {| overall_index := overall_index;
              overall_level := overall_level;
              overall_proficiency := pd_mean (map avg_proficiency area_scores_df);
              overall_coverage := pd_mean (map avg_coverage area_scores_df) |}
  end.

(* ------------------------------------------------------------------ *)
(** ** Participation statistics *)

(** A row of the [by_group] frame; [group] is its index label. *)
Record GroupStats : Type := mkGroupStats {
  group : string;
  unique_respondents : nat;
  total_responses : nat
}.

Record Participation : Type := mkParticipation {
  total_respondents : nat;
  by_group : list GroupStats
}.

(** [Series.nunique()]. *)
Definition nunique (l : list string) : nat := List.length (unique l).

Fixpoint insert_key (k : string) (l : list string) : list string :=
  match l with
  | [] => [k]
  | h :: t => if String.leb k h then k :: l else h :: insert_key k t
  end.

(** [groupby] lists its keys in ascending order. *)
Fixpoint sort_keys (l : list string) : list string :=
  match l with
  | [] => []
  | k :: t => insert_key k (sort_keys t)
  end.

(** [compute_participation_stats(responses_df, cycle_id)]. *)
Definition compute_participation_stats (responses_df : Responses)
    (cycle_id : string) : Participation :=
  let cycle_data :=
    rows (select (fun r => String.eqb (r_cycle_id r) cycle_id) responses_df) in
  let total_respondents := nunique (map r_respondent_id cycle_data) in
  let by_group :=
    map (fun g =>
           let members := filter (fun r => String.eqb (r_org_group r) g) cycle_data in
           {| group := g;
              unique_respondents := nunique (map r_respondent_id members);
              total_responses := List.length (map r_factor_id members) |})
        (sort_keys (unique (map r_org_group cycle_data))) in
  {| total_respondents := total_respondents; by_group := by_group |}.

(* ------------------------------------------------------------------ *)
(** ** Trend data across cycles *)

Record OverallTrend : Type := mkOverallTrend {
  ot_cycle_id : string;
  ot_overall_index : Q;
  ot_overall_level : Z;
  ot_overall_proficiency : num;
  ot_overall_coverage : num
}.

Record AreaTrend : Type := mkAreaTrend {
  at_cycle_id : string;
  at_area : string;
  at_area_index : Q;
  at_area_level : Z;
  at_avg_proficiency : num;
  at_avg_coverage : num
}.

Record FactorTrend : Type := mkFactorTrend {
  ft_cycle_id : string;
  ft_factor_id : string;
  ft_factor_name : string;
  ft_index_adjusted : Q
}.

Record TrendData : Type := mkTrendData {
  overall : list OverallTrend;
  by_area : list AreaTrend;
  by_factor : list FactorTrend
}.

(** One iteration of the loop of [compute_trend_data] (lines 290-318):
    the rows appended to the three lists for [cycle]. *)
Definition trend_cycle (responses_df : Table) (factors_df : list Factor)
    (cycle : string) : option (OverallTrend * list AreaTrend * list FactorTrend) :=
  factor_scores <- compute_factor_scores_table responses_df factors_df cycle None ;;
  let area_scores := compute_area_scores factor_scores in
  overall <- compute_overall_score area_scores ;;
  Some ({| ot_cycle_id := cycle;
           ot_overall_index := overall_index overall;
           ot_overall_level := overall_level overall;
           ot_overall_proficiency := overall_proficiency overall;
           ot_overall_coverage := overall_coverage overall |},
        map (fun a =>
               {| at_cycle_id := cycle;
                  at_area := area a;
                  at_area_index := area_index a;
                  at_area_level := area_level a;
                  at_avg_proficiency := avg_proficiency a;
                  at_avg_coverage := avg_coverage a |})
            area_scores,
        map (fun factor =>
               {| ft_cycle_id := cycle;
                  ft_factor_id := factor_id (score factor);
                  ft_factor_name := f_factor_name (info factor);
                  ft_index_adjusted := index_adjusted (score factor) |})
            (firstn 10 factor_scores)).

(** [compute_trend_data(responses_df, factors_df, actions_df)]; the
    action catalog is not read. *)
Definition compute_trend_data (responses_df : Table)
    (factors_df : list Factor) (actions_df : list Action) : option TrendData :=
  let cycles := unique (map r_cycle_id (rows (body responses_df))) in
  per_cycle <- mapM (trend_cycle responses_df factors_df) cycles ;;
  Some {| overall := map (fun t => fst (fst t)) per_cycle;
          by_area := flat_map (fun t => snd (fst t)) per_cycle;
          by_factor := flat_map (fun t => snd t) per_cycle |}.

(* ------------------------------------------------------------------ *)
(** ** Level names, descriptions and colours ([src/utils.py]) *)

(** [d.get(k, default)] on a dictionary literal keyed by integers. *)
Fixpoint dict_get {V : Type} (d : list (Z * V)) (k : Z) (default : V) : V :=
  match d with
  | [] => default
  | (k', v) :: t => if Z.eqb k k' then v else dict_get t k default
  end.

Definition MATURITY_LEVEL_NAMES : list (Z * string) :=
  [(1%Z, "Initial"%string);
   (2%Z, "Development"%string);
   (3%Z, "Defined"%string);
   (4%Z, "Managed"%string);
   (5%Z, "Optimising"%string)].

Definition MATURITY_LEVEL_DESCRIPTIONS : list (Z * string) :=
  [(1%Z, "Initial – Inconsistent practices and limited adoption; processes are ad hoc and person-dependent"%string);
   (2%Z, "Development – Emerging structure with partial organisational use; basic processes exist but are inconsistent"%string);
   (3%Z, "Defined – Standardised practices used across multiple groups; documented processes broadly followed"%string);
   (4%Z, "Managed – Performance-driven processes widely adopted; quantitative objectives tracked and decisions data-driven"%string);
   (5%Z, "Optimising – Organisation-wide continuous improvement and learning; improvement mechanisms are embedded"%string)].

Definition LEVEL_COLORS : list (Z * string) :=
  [(1%Z, "#e74c3c"%string);
   (2%Z, "#f39c12"%string);
   (3%Z, "#f1c40f"%string);
   (4%Z, "#3498db"%string);
   (5%Z, "#2ecc71"%string)].

(** [get_maturity_level_name(level)]; [level] is an integer or a
    float, truncated by [int]. *)
Definition get_maturity_level_name (level : Q) : string :=
  dict_get MATURITY_LEVEL_NAMES (py_int level) "Unknown"%string.

(** [get_maturity_level_description(level)]. *)
Definition get_maturity_level_description (level : Q) : string :=
  dict_get MATURITY_LEVEL_DESCRIPTIONS (py_int level) "Unknown level"%string.

(** [get_maturity_color(level)]. *)
Definition get_maturity_color (level : Q) : string :=
  dict_get LEVEL_COLORS (py_int level) "#95a5a6"%string.

(** Python's [min(a, b)] with a number first: [b] only when [b < a],
    never a NaN [b]. *)
Definition py_min_num (a : Q) (b : num) : Q :=
  match b with
  | Some y => if Qlt_bool y a then y else a
  | None => a
  end.

(** [calculate_completion_percentage(factor_scores_df)].  On a frame
    without rows numpy divides 0 by 0, which is NaN (with a warning, no
    exception); [min(100.0, nan)] is then 100.0. *)
Definition calculate_completion_percentage (factor_scores_df : list ScoreRow) : Q :=
  let total_possible := (List.length factor_scores_df * 10)%nat in
  let actual := list_sum (map (fun r => n_responses (score r)) factor_scores_df) in
  let ratio : num :=
    if (total_possible =? 0)%nat then nan
    else Some (Qnat actual / Qnat total_possible * 100) in
  py_min_num 100 ratio.

(* ------------------------------------------------------------------ *)
(** ** The dashboard's filters ([src/app.py], lines 101-108) *)

(** [series <= bound]: false on NaN. *)
Definition le_bound (a : num) (bound : Q) : bool := cmp2 Qle_bool a (Some bound).

(** The selections applied to the scorer's frame before aggregation:
    the chosen area unless it is ['All'], the evidence switch, and the
    two confidence sliders. *)
Definition sidebar_filters (selected_area : string) (show_evidence_only : bool)
    (min_responses : nat) (max_dispersion : Q) (factor_scores : list ScoreRow)
    : list ScoreRow :=
  let factor_scores :=
    if negb (String.eqb selected_area "All")
    then filter (fun r => String.eqb (f_area (info r)) selected_area) factor_scores
    else factor_scores in
  let factor_scores :=
    if show_evidence_only
    then filter (fun r => Qgt_bool (evidence_rate (score r)) 0) factor_scores
    else factor_scores in
  filter (fun r =>
            (min_responses <=? n_responses (score r))%nat
            && le_bound (dispersion (score r)) max_dispersion)
         factor_scores.

(* ------------------------------------------------------------------ *)
(** ** Auxiliary definitions used in the statements and proofs *)

Definition default_factor : Factor :=
  {| f_factor_id := ""; f_area := ""; f_factor_name := ""; f_weight := 0;
     f_target_level := 0; f_owner_group := ""; f_evidence_required := false |}.

(** The catalog row used for a [factor_id] that occurs in the catalog. *)
Definition catalog_row (factors_df : list Factor) (fid : string) : Factor :=
  match factor_info_of factors_df fid with
  | Some fi => fi
  | None => default_factor
  end.

(** The score list built by the loop, for a non-failing run. *)
Definition score_list (cycle_data : Responses) (factors_df : list Factor)
    : list FactorScore :=
  map (fun fid => factor_score cycle_data (catalog_row factors_df fid) fid)
      (map f_factor_id factors_df).

(** One of the three increments of the quality penalty. *)
Definition increment (b : bool) : Q := if b then 1 # 2 else 0.

(** The zero-response row as the specification words it: every
    statistic undefined except [index_adjusted].  ([evidence_rate] and
    [quality_penalty] are numbers in every row the code builds, so only
    the NaN-able columns can be asked to be NaN.) *)
Definition stated_zero_row (s : FactorScore) : Prop :=
  median_level s = nan /\ mean_level s = nan /\ proficiency_median s = nan
  /\ coverage_median s = nan /\ dispersion s = nan /\ confidence_avg s = nan
  /\ index_raw s = nan /\ index_adjusted s == 1.

(** The zero-response row as the code builds it (lines 55-68). *)
Definition zero_row (s : FactorScore) : Prop :=
  median_level s = nan /\ mean_level s = nan /\ proficiency_median s = nan
  /\ coverage_median s = nan /\ dispersion s = nan /\ confidence_avg s = nan
  /\ n_responses s = 0%nat
  /\ evidence_rate s = 0 /\ index_raw s = Some 1 /\ quality_penalty s = 0
  /\ index_adjusted s = 1.

(** The validator's contract in the specification's words: the factor
    is in the catalog, [level] lies in [1,5], and so do
    [proficiency_level] and [coverage_level] when the table has them. *)
Definition meets_contract (df : Responses) (factors_df : list Factor)
    (r : Response) : bool :=
  isin (r_factor_id r) (map f_factor_id factors_df)
  && between 1 5 (r_level r)
  && (if has_proficiency_level df then between 1 5 (r_proficiency_level r) else true)
  && (if has_coverage_level df then between 1 5 (r_coverage_level r) else true).

(** The quadrant labels as the specification quotes them. *)
Definition stated_quadrant (proficiency coverage : Q) : string :=
  if Qle_bool 3 proficiency then
    if Qle_bool 3 coverage then "Institutional maturity" else "Strong, not yet scaled"
  else
    if Qle_bool 3 coverage then "Widespread, quality needed" else "Early stage".

(** The columns of a score row read by the area aggregation. *)
Definition adj (r : ScoreRow) : Q := index_adjusted (score r).
Definition weight (r : ScoreRow) : Q := f_weight (info r).

(** The weighted mean of the specification. *)
Definition weighted_mean (af : list ScoreRow) : Q :=
  Qsum (map (fun r => adj r * weight r) af) / Qsum (map weight af).

(** The gap analysis in the specification's words.  A (factor, action)
    pair is applicable when the gap [max(0, target - current)] is
    positive, the action references the factor, and its threshold is at
    least the current level. *)
Definition stated_gap_levels (factor : ScoreRow) : Q :=
  Qmax 0 (f_target_level (info factor) - current_level_of factor).

Definition applicable (factor : ScoreRow) (action : Action) : bool :=
  Qlt_bool 0 (stated_gap_levels factor)
  && String.eqb (a_factor_id action) (factor_id (score factor))
  && Qle_bool (current_level_of factor) (a_if_level_leq action).

Definition stated_gaps (factor_scores_df : list ScoreRow)
    (actions_df : list Action) : list Gap :=
  flat_map (fun factor =>
              flat_map (fun action =>
                          if applicable factor action
                          then [gap_row factor action] else [])
                       actions_df)
           factor_scores_df.

(** The quality factor and the priority of the specification. *)
Definition stated_quality_factor (factor : ScoreRow) : Q :=
  let q_response := Qmin 1 (Qnat (n_responses (score factor)) / 5) in
  let q_dispersion :=
    match dispersion (score factor) with
    | Some d => Qmax 0 (1 - d / 2)
    | None => 1 # 2
    end in
  let q_evidence := evidence_rate (score factor) in
  q_response * q_dispersion * q_evidence.

Definition stated_priority (factor : ScoreRow) (g : Gap) : Q :=
  (impact g * gap_levels g * weight factor) / Qmax (effort g) 1
  * stated_quality_factor factor.

(** [g] is ranked before [h] in a frame sorted by descending priority. *)
Definition ranked (g h : Gap) : Prop := priority_score h <= priority_score g.

(** The rows a cycle contributes to the trend tables, for a
    non-failing iteration. *)
Definition no_trend : OverallTrend * list AreaTrend * list FactorTrend :=
  ({| ot_cycle_id := ""; ot_overall_index := 0; ot_overall_level := 0;
      ot_overall_proficiency := nan; ot_overall_coverage := nan |}, [], []).

Definition trend_rows (responses_df : Table) (factors_df : list Factor)
    (cycle : string) : OverallTrend * list AreaTrend * list FactorTrend :=
  match trend_cycle responses_df factors_df cycle with
  | Some t => t
  | None => no_trend
  end.

(** The validator's contract when "if present" is read per response:
    an empty [proficiency_level] or [coverage_level] cell is an absent
    value and leaves the row valid. *)
Definition in_range_if_present (a : num) : bool :=
  match a with
  | Some x => Qle_bool 1 x && Qle_bool x 5
  | None => true
  end.

Definition stated_contract (factors_df : list Factor) (r : Response) : bool :=
  isin (r_factor_id r) (map f_factor_id factors_df)
  && between 1 5 (r_level r)
  && in_range_if_present (r_proficiency_level r)
  && in_range_if_present (r_coverage_level r).

(** Whether scoring [fid] reads the missing evidence column. *)
Definition reads_missing_evidence (t : Table) (cycle_data : Responses)
    (factors_df : list Factor) (fid : string) : bool :=
  match factor_info_of factors_df fid with
  | Some factor_info =>
      negb (List.length (factor_responses_of cycle_data fid) =? 0)%nat
      && f_evidence_required factor_info
      && negb (has_evidence_link t)
  | None => false
  end.

(* ------------------------------------------------------------------ *)
(** ** Sample tables *)

Module Sample.

Local Open Scope string_scope.

Definition planning : Factor :=
  {| f_factor_id := "PM01"; f_area := "Project Management";
     f_factor_name := "Planning"; f_weight := 1; f_target_level := 4;
     f_owner_group := "Program Office"; f_evidence_required := false |}.

Definition invoicing : Factor :=
  {| f_factor_id := "INV01"; f_area := "Invoicing Process";
     f_factor_name := "Invoice review"; f_weight := 12 # 10; f_target_level := 3;
     f_owner_group := "Finance"; f_evidence_required := true |}.

Definition catalog : list Factor := [planning; invoicing].

Definition answer (cyc grp fid : string) (lvl : Z) (ev : option string) : Response :=
  {| r_cycle_id := cyc; r_respondent_id := "resp_0"; r_org_group := grp;
     r_factor_id := fid;
     r_level := Some (inject_Z lvl);
     r_proficiency_level := Some (inject_Z lvl);
     r_coverage_level := Some (inject_Z lvl);
     r_confidence := Some 4;
     r_evidence_link := ev |}.

Definition table (rs : list Response) : Responses :=
  {| rows := rs; has_proficiency_level := true; has_coverage_level := true;
     has_confidence := true |}.

(** The spec's scenario [level = [1,2,2,3,5]] for one factor. *)
Definition five_answers : Responses :=
  table (map (fun l => answer "2024-H1" "Finance" "PM01" l None) [1; 2; 2; 3; 5]%Z).

(** The spec's scenario [level = [1,2]]. *)
Definition two_answers : Responses :=
  table (map (fun l => answer "2024-H1" "Finance" "PM01" l None) [1; 2]%Z).

(** Five unanimous answers at level 2, all with evidence. *)
Definition unanimous : Responses :=
  table (map (fun l => answer "2024-H1" "Finance" "PM01" l (Some "doc.pdf"))
             [2; 2; 2; 2; 2]%Z).

(** Rows the validator must drop next to one it must keep. *)
Definition raw_answers : Responses :=
  table [answer "2024-H1" "Finance" "PM01" 3 None;
         answer "2024-H1" "Finance" "PM01" 6 None;
         answer "2024-H1" "Finance" "XX99" 3 None].

Definition raise_level : Action :=
  {| a_action_id := "A1"; a_factor_id := "PM01"; a_if_level_leq := 2;
     a_action_text := "Document the planning process"; a_impact := 4;
     a_effort := 2; a_timeframe := "short"; a_dependency_action_id := None |}.

Definition first_step : Action :=
  {| a_action_id := "A0"; a_factor_id := "PM01"; a_if_level_leq := 1;
     a_action_text := "Name a planning owner"; a_impact := 3;
     a_effort := 1; a_timeframe := "short"; a_dependency_action_id := None |}.

(** The frames returned by the scorer on the sample tables. *)
Definition frame (df : Responses) (cyc : string) : list ScoreRow :=
match compute_factor_scores df catalog cyc None with
| Some out => out
| None => []
end.

Definition scored_five : list ScoreRow := frame five_answers "2024-H1".
Definition scored_unanimous : list ScoreRow := frame unanimous "2024-H1".

(** A cycle in which nobody answered. *)
Definition scored_silent : list ScoreRow := frame five_answers "2025-H1".

Definition no_row : ScoreRow :=
{| score := factor_score (table []) default_factor ""; info := default_factor |}.

(** The planning factor's row when five respondents agree on level 2. *)
Definition planning_row : ScoreRow := hd no_row scored_unanimous.

Definition no_area : AreaScore :=
{| area := ""; area_index := 0; area_level := 0; n_factors := 0;
   avg_responses := 0; avg_proficiency := nan; avg_coverage := nan |}.

Definition first_area : AreaScore := hd no_area (compute_area_scores scored_five).

(** A response with a level but no proficiency rating, in a table
    that has the proficiency column. *)
Definition unrated : Response :=
{| r_cycle_id := "2024-H1"; r_respondent_id := "resp_1"; r_org_group := "Finance";
   r_factor_id := "PM01"; r_level := Some 3; r_proficiency_level := nan;
   r_coverage_level := Some 3; r_confidence := Some 4; r_evidence_link := None |}.

Definition partly_rated : Responses := table [unrated].

(** A second factor of the project-management area, with weight 1.2. *)
Definition budgeting : Factor :=
{| f_factor_id := "PM02"; f_area := "Project Management";
   f_factor_name := "Budgeting"; f_weight := 12 # 10; f_target_level := 4;
   f_owner_group := "Finance"; f_evidence_required := false |}.

Definition pm_catalog : list Factor := [planning; budgeting].

Definition pm_answers : Responses :=
table (rows five_answers
       ++ map (fun l => answer "2024-H1" "Finance" "PM02" l None) [4; 4; 4]%Z).

Definition scored_pm : list ScoreRow :=
match compute_factor_scores pm_answers pm_catalog "2024-H1" None with
| Some out => out
| None => []
end.

Definition pm_area : AreaScore := hd no_area (compute_area_scores scored_pm).

(** The sample tables as loaded, with and without the evidence column. *)
Definition loaded (df : Responses) : Table :=
{| body := df; has_evidence_link := true |}.

Definition without_evidence (df : Responses) : Table :=
{| body := df; has_evidence_link := false |}.

(** Answers to the invoicing factor, which requires evidence. *)
Definition invoice_answers : Responses :=
table (map (fun l => answer "2024-H1" "Finance" "INV01" l None) [3; 4]%Z).

End Sample.

(* ================================================================== *)
(** * Properties *)

(* ------------------------------------------------------------------ *)
(** ** Comparisons and Python's [max]/[min] *)

Lemma Qlt_bool_iff (x y : Q) : Qlt_bool x y = true <-> x < y.
Proof.
  unfold Qlt_bool. rewrite negb_true_iff.
  split; intros H.
  - apply Qnot_le_lt. intros L. apply Qle_bool_iff in L. congruence.
  - destruct (Qle_bool y x) eqn:E; [|reflexivity].
    apply Qle_bool_iff in E. apply Qlt_not_le in H. contradiction.
Qed.

Lemma Qlt_bool_false_iff (x y : Q) : Qlt_bool x y = false <-> y <= x.
Proof.
  unfold Qlt_bool. rewrite negb_false_iff. apply Qle_bool_iff.
Qed.

Lemma Qle_bool_false_iff (x y : Q) : Qle_bool x y = false <-> y < x.
Proof.
  rewrite <- Qlt_bool_iff. unfold Qlt_bool.
  destruct (Qle_bool x y); simpl; intuition congruence.
Qed.

Lemma Qgt_bool_iff (x y : Q) : Qgt_bool x y = true <-> y < x.
Proof. unfold Qgt_bool. apply Qlt_bool_iff. Qed.

Lemma Qge_bool_iff (x y : Q) : Qge_bool x y = true <-> y <= x.
Proof. unfold Qge_bool. apply Qle_bool_iff. Qed.

Lemma py_max_nan (a : Q) : py_max a None = a.
Proof. reflexivity. Qed.

Lemma py_max_cases (a b : Q) :
  (a < b /\ py_max a (Some b) = b) \/ (b <= a /\ py_max a (Some b) = a).
Proof.
  unfold py_max, gt, cmp2.
  destruct (Qgt_bool b a) eqn:E.
  - left. split; [apply Qgt_bool_iff in E; exact E | reflexivity].
  - right. split; [apply Qlt_bool_false_iff in E; exact E | reflexivity].
Qed.

Lemma py_max_Qmax (a b : Q) : py_max a (Some b) == Qmax a b.
Proof.
  destruct (py_max_cases a b) as [[H E] | [H E]]; rewrite E.
  - symmetry. apply Q.max_r. apply Qlt_le_weak. exact H.
  - symmetry. apply Q.max_l. exact H.
Qed.

Lemma py_max_ge_l (a : Q) (b : num) : a <= py_max a b.
Proof.
  destruct b as [b|]; [|rewrite py_max_nan; apply Qle_refl].
  destruct (py_max_cases a b) as [[H E] | [H E]]; rewrite E.
  - apply Qlt_le_weak. exact H.
  - apply Qle_refl.
Qed.

Lemma py_min_cases (a b : Q) :
  (b < a /\ py_min a b = b) \/ (a <= b /\ py_min a b = a).
Proof.
  unfold py_min.
  destruct (Qlt_bool b a) eqn:E.
  - left. split; [apply Qlt_bool_iff in E; exact E | reflexivity].
  - right. split; [apply Qlt_bool_false_iff in E; exact E | reflexivity].
Qed.

Lemma py_min_Qmin (a b : Q) : py_min a b == Qmin a b.
Proof.
  destruct (py_min_cases a b) as [[H E] | [H E]]; rewrite E.
  - symmetry. apply Q.min_r. apply Qlt_le_weak. exact H.
  - symmetry. apply Q.min_l. exact H.
Qed.

Lemma between_iff (lo hi : Q) (a : num) :
  between lo hi a = true <-> exists x, a = Some x /\ lo <= x /\ x <= hi.
Proof.
  destruct a as [x|]; simpl.
  - rewrite andb_true_iff, !Qle_bool_iff. split.
    + intros [H1 H2]. exists x. auto.
    + intros (y & E & H1 & H2). inversion E; subst. auto.
  - split; [discriminate | intros (x & E & _); discriminate].
Qed.

(* ------------------------------------------------------------------ *)
(** ** The error monad *)

Lemma mapM_total {A B : Type} (f : A -> option B) (g : A -> B) (l : list A) :
  (forall a, In a l -> f a = Some (g a)) ->
  mapM f l = Some (map g l).
Proof.
  induction l as [|a t IH]; intros H; simpl.
  - reflexivity.
  - rewrite (H a (or_introl eq_refl)). simpl.
    rewrite IH by (intros b Hb; apply H; right; exact Hb).
    reflexivity.
Qed.

(* ------------------------------------------------------------------ *)
(** ** Shape of the frame returned by [compute_factor_scores] *)

Lemma factor_info_of_some (factors_df : list Factor) (f : Factor) :
  In f factors_df ->
  exists fi, factor_info_of factors_df (f_factor_id f) = Some fi
             /\ In fi factors_df /\ f_factor_id fi = f_factor_id f.
Proof.
  intros Hin. unfold factor_info_of.
  destruct (find (fun f0 => String.eqb (f_factor_id f0) (f_factor_id f)) factors_df)
    as [fi|] eqn:E.
  - exists fi. apply find_some in E. destruct E as [H1 H2].
    apply String.eqb_eq in H2. auto.
  - exfalso. apply (find_none _ _ E) in Hin.
    rewrite String.eqb_refl in Hin. discriminate.
Qed.

Lemma factor_info_of_inv (factors_df : list Factor) (fid : string) (fi : Factor) :
  factor_info_of factors_df fid = Some fi ->
  In fi factors_df /\ f_factor_id fi = fid.
Proof.
  unfold factor_info_of. intros E. apply find_some in E.
  destruct E as [H1 H2]. apply String.eqb_eq in H2. auto.
Qed.

Lemma factor_score_id (cd : Responses) (fi : Factor) (fid : string) :
  factor_id (factor_score cd fi fid) = fid.
Proof.
  unfold factor_score.
  destruct (List.length (factor_responses_of cd fid) =? 0)%nat; reflexivity.
Qed.

Lemma score_loop_total (cd : Responses) (factors_df : list Factor) :
  mapM (score_factor cd factors_df) (map f_factor_id factors_df)
  = Some (score_list cd factors_df).
Proof.
  unfold score_list. apply mapM_total.
  intros fid Hin. apply in_map_iff in Hin. destruct Hin as (f & <- & Hf).
  destruct (factor_info_of_some _ _ Hf) as (fi & E & _ & _).
  unfold score_factor, catalog_row. rewrite E. reflexivity.
Qed.

Lemma compute_factor_scores_unfold (df : Responses) (factors_df : list Factor)
    (cyc : string) (flt : option string) :
  compute_factor_scores df factors_df cyc flt
  = merge_left (score_list (cycle_rows df cyc flt) factors_df) factors_df.
Proof.
  unfold compute_factor_scores. rewrite score_loop_total. reflexivity.
Qed.

(** The run fails exactly on an empty catalog. *)
Lemma compute_factor_scores_returns (df : Responses) (factors_df : list Factor)
    (cyc : string) (flt : option string) :
  factors_df <> [] ->
  exists out, compute_factor_scores df factors_df cyc flt = Some out.
Proof.
  intros Hne. rewrite compute_factor_scores_unfold.
  unfold merge_left, score_list.
  destruct factors_df as [|f t]; [contradiction|]. simpl. eauto.
Qed.

Lemma merge_left_in (scores : list FactorScore) (factors_df : list Factor)
    (out : list ScoreRow) (r : ScoreRow) :
  merge_left scores factors_df = Some out ->
  (In r out <->
   In (score r) scores /\ In (info r) factors_df
   /\ f_factor_id (info r) = factor_id (score r)).
Proof.
  unfold merge_left. intros E.
  assert (out = flat_map
            (fun s => map (mkScoreRow s)
               (filter (fun f => String.eqb (f_factor_id f) (factor_id s)) factors_df))
            scores) as ->.
  { destruct scores; [discriminate | inversion E; reflexivity]. }
  rewrite in_flat_map. split.
  - intros (s & Hs & Hr). apply in_map_iff in Hr. destruct Hr as (f & <- & Hf).
    apply filter_In in Hf. destruct Hf as [Hf He]. apply String.eqb_eq in He.
    simpl. auto.
  - intros (Hs & Hf & He). exists (score r). split; [exact Hs|].
    apply in_map_iff. exists (info r). split; [destruct r; reflexivity|].
    apply filter_In. split; [exact Hf|]. apply String.eqb_eq. exact He.
Qed.

(** Every score row has a partner in the merge. *)
Lemma merge_partner (cd : Responses) (factors_df : list Factor) (s : FactorScore) :
  In s (score_list cd factors_df) ->
  exists f, In f factors_df /\ f_factor_id f = factor_id s.
Proof.
  unfold score_list. rewrite map_map. intros H.
  apply in_map_iff in H. destruct H as (f & <- & Hf).
  exists f. rewrite factor_score_id. auto.
Qed.

(** What a row of the returned frame is. *)
Lemma scored_row_inv (df : Responses) (factors_df : list Factor) (cyc : string)
    (flt : option string) (out : list ScoreRow) (r : ScoreRow) :
  compute_factor_scores df factors_df cyc flt = Some out ->
  In r out ->
  exists fi,
    factor_info_of factors_df (factor_id (score r)) = Some fi
    /\ score r = factor_score (cycle_rows df cyc flt) fi (factor_id (score r))
    /\ In (info r) factors_df
    /\ f_factor_id (info r) = factor_id (score r).
Proof.
  rewrite compute_factor_scores_unfold. intros E Hin.
  apply (merge_left_in _ _ _ r E) in Hin. destruct Hin as (Hs & Hf & He).
  unfold score_list in Hs. rewrite map_map in Hs.
  apply in_map_iff in Hs. destruct Hs as (f & Hsc & Hfin).
  destruct (factor_info_of_some _ _ Hfin) as (fi & Efi & _ & _).
  exists fi. unfold catalog_row in Hsc. rewrite Efi in Hsc.
  assert (Hid : factor_id (score r) = f_factor_id f)
    by (rewrite <- Hsc; apply factor_score_id).
  rewrite Hid. rewrite Hid in He. auto.
Qed.

(** Every catalog row has its row in the returned frame. *)
Lemma scored_row_exists (df : Responses) (factors_df : list Factor) (cyc : string)
    (flt : option string) (f : Factor) :
  In f factors_df ->
  exists out r,
    compute_factor_scores df factors_df cyc flt = Some out
    /\ In r out /\ info r = f /\ factor_id (score r) = f_factor_id f.
Proof.
  intros Hf.
  assert (Hne : factors_df <> []) by (intros ->; contradiction).
  destruct (compute_factor_scores_returns df factors_df cyc flt Hne) as (out & E).
  exists out.
  exists (mkScoreRow
            (factor_score (cycle_rows df cyc flt)
               (catalog_row factors_df (f_factor_id f)) (f_factor_id f)) f).
  split; [exact E|]. rewrite compute_factor_scores_unfold in E.
  split; [|split; [reflexivity | simpl; apply factor_score_id]].
  apply (merge_left_in _ _ _ _ E). simpl. rewrite factor_score_id.
  split; [|auto].
  unfold score_list. rewrite map_map. apply in_map_iff. exists f. auto.
Qed.

(* ------------------------------------------------------------------ *)
(** ** Quality penalty and adjusted index *)

Lemma factor_score_empty (cd : Responses) (fi : Factor) (fid : string) :
  factor_responses_of cd fid = [] ->
  factor_score cd fi fid
  = {| factor_id := fid; median_level := nan; mean_level := nan;
       proficiency_median := nan; coverage_median := nan; n_responses := 0;
       dispersion := nan; confidence_avg := nan; evidence_rate := 0;
       index_raw := Some 1; quality_penalty := 0; index_adjusted := 1 |}.
Proof.
  intros E. unfold factor_score. rewrite E. reflexivity.
Qed.

Lemma factor_score_nonempty (cd : Responses) (fi : Factor) (fid : string) :
  factor_responses_of cd fid <> [] ->
  let s := factor_score cd fi fid in
  n_responses s = List.length (factor_responses_of cd fid)
  /\ median_level s = np_median (map r_level (factor_responses_of cd fid))
  /\ index_raw s = median_level s
  /\ quality_penalty s
     = penalty (n_responses s) (dispersion s) (f_evidence_required fi) (evidence_rate s)
  /\ index_adjusted s = py_max 1 (sub (median_level s) (Some (quality_penalty s))).
Proof.
  intros Hne. unfold factor_score.
  destruct (factor_responses_of cd fid) as [|r0 t] eqn:E; [contradiction|].
  cbn [List.length Nat.eqb]. cbv zeta. cbn [n_responses median_level index_raw
    quality_penalty index_adjusted dispersion evidence_rate].
  rewrite length_map. repeat split; reflexivity.
Qed.

Lemma penalty_increments (n : nat) (d : num) (req : bool) (rate : Q) :
  penalty n d req rate
  == increment (n <? 3)%nat + increment (gt d (Some (3 # 2)))
     + increment (req && Qlt_bool rate (1 # 2)).
Proof.
  unfold penalty, increment.
  destruct (n <? 3)%nat, (gt d (Some (3 # 2))), (req && Qlt_bool rate (1 # 2));
    reflexivity.
Qed.

Lemma penalty_values (n : nat) (d : num) (req : bool) (rate : Q) :
  let p := penalty n d req rate in
  (p == 0 \/ p == 1 # 2 \/ p == 1 \/ p == 3 # 2) /\ 0 <= p /\ p <= 3 # 2.
Proof.
  unfold penalty.
  destruct (n <? 3)%nat, (gt d (Some (3 # 2))), (req && Qlt_bool rate (1 # 2));
    cbv zeta; (split; [|split; discriminate]);
    first [ left; reflexivity
          | right; left; reflexivity
          | right; right; left; reflexivity
          | right; right; right; reflexivity ].
Qed.

Lemma gt_iff (d : num) (c : Q) :
  gt d (Some c) = true <-> exists x, d = Some x /\ c < x.
Proof.
  destruct d as [x|]; simpl.
  - unfold gt, cmp2. rewrite Qgt_bool_iff. split.
    + intros H. exists x. auto.
    + intros (y & E & H). inversion E; subst. exact H.
  - split; [discriminate | intros (x & E & _); discriminate].
Qed.

(** C1.  For a catalog factor with at least one response in the
    selected cycle and group, the scorer returns, and in every row it
    returns for that factor the quality penalty is the sum of three
    independent increments of 0.5 -- one when [n_responses < 3], one
    when [dispersion > 1.5], one when the factor requires evidence and
    [evidence_rate < 0.5] -- hence one of 0, 0.5, 1, 1.5 and never above
    1.5; and [index_adjusted] is [max(1.0, median_level - quality_penalty)]. *)
Theorem quality_penalty_three_increments
    (df : Responses) (factors_df : list Factor) (cyc : string)
    (flt : option string) (f : Factor) :
  In f factors_df ->
  factor_responses_of (cycle_rows df cyc flt) (f_factor_id f) <> [] ->
  exists out,
    compute_factor_scores df factors_df cyc flt = Some out
    /\ (exists r, In r out /\ factor_id (score r) = f_factor_id f)
    /\ forall r, In r out -> factor_id (score r) = f_factor_id f ->
       exists factor_info b_n b_d b_e,
         factor_info_of factors_df (f_factor_id f) = Some factor_info
         /\ n_responses (score r)
            = List.length (factor_responses_of (cycle_rows df cyc flt) (f_factor_id f))
         /\ (b_n = true <-> (n_responses (score r) < 3)%nat)
         /\ (b_d = true <-> exists d, dispersion (score r) = Some d /\ 3 # 2 < d)
         /\ (b_e = true <->
             f_evidence_required factor_info = true /\ evidence_rate (score r) < 1 # 2)
         /\ quality_penalty (score r) == increment b_n + increment b_d + increment b_e
         /\ (quality_penalty (score r) == 0 \/ quality_penalty (score r) == 1 # 2
             \/ quality_penalty (score r) == 1 \/ quality_penalty (score r) == 3 # 2)
         /\ quality_penalty (score r) <= 3 # 2
         /\ match median_level (score r) with
            | Some m => index_adjusted (score r) == Qmax 1 (m - quality_penalty (score r))
            | None => index_adjusted (score r) = 1
            end.
Proof.
  intros Hf Hne.
  destruct (scored_row_exists df factors_df cyc flt f Hf) as (out & r0 & E & Hr0 & _ & Hid0).
  exists out. split; [exact E|]. split; [exists r0; auto|].
  intros r Hr Hid.
  destruct (scored_row_inv _ _ _ _ _ _ E Hr) as (fi & Efi & Hsc & _ & _).
  rewrite Hid in Efi, Hsc.
  destruct (factor_score_nonempty (cycle_rows df cyc flt) fi (f_factor_id f) Hne)
    as (Hn & Hmed & _ & Hqp & Hadj).
  rewrite <- Hsc in Hn, Hmed, Hqp, Hadj.
  exists fi, (n_responses (score r) <? 3)%nat,
    (gt (dispersion (score r)) (Some (3 # 2))),
    (f_evidence_required fi && Qlt_bool (evidence_rate (score r)) (1 # 2)).
  split; [exact Efi|]. split; [exact Hn|].
  split; [apply Nat.ltb_lt|]. split; [apply gt_iff|].
  split; [rewrite andb_true_iff, Qlt_bool_iff; reflexivity|].
  split; [rewrite Hqp; apply penalty_increments|].
  pose proof (penalty_values (n_responses (score r)) (dispersion (score r))
                (f_evidence_required fi) (evidence_rate (score r))) as Hv.
  cbv zeta in Hv. rewrite <- Hqp in Hv. destruct Hv as (Hv & _ & Hle).
  split; [exact Hv|]. split; [exact Hle|].
  rewrite Hadj. destruct (median_level (score r)) as [m|]; simpl.
  - apply py_max_Qmax.
  - reflexivity.
Qed.

(** The spec's scenario [level = [1,2]]: one increment, floor of 1.0. *)
Lemma quality_penalty_three_increments_witness :
  exists out,
    compute_factor_scores Sample.two_answers Sample.catalog "2024-H1" None = Some out
    /\ (exists r, In r out /\ factor_id (score r) = "PM01"%string)
    /\ forall r, In r out -> factor_id (score r) = "PM01"%string ->
       exists factor_info b_n b_d b_e,
         factor_info_of Sample.catalog "PM01" = Some factor_info
         /\ n_responses (score r)
            = List.length (factor_responses_of
                             (cycle_rows Sample.two_answers "2024-H1" None) "PM01")
         /\ (b_n = true <-> (n_responses (score r) < 3)%nat)
         /\ (b_d = true <-> exists d, dispersion (score r) = Some d /\ 3 # 2 < d)
         /\ (b_e = true <->
             f_evidence_required factor_info = true /\ evidence_rate (score r) < 1 # 2)
         /\ quality_penalty (score r) == increment b_n + increment b_d + increment b_e
         /\ (quality_penalty (score r) == 0 \/ quality_penalty (score r) == 1 # 2
             \/ quality_penalty (score r) == 1 \/ quality_penalty (score r) == 3 # 2)
         /\ quality_penalty (score r) <= 3 # 2
         /\ match median_level (score r) with
            | Some m => index_adjusted (score r) == Qmax 1 (m - quality_penalty (score r))
            | None => index_adjusted (score r) = 1
            end.
Proof.
  apply (quality_penalty_three_increments
           Sample.two_answers Sample.catalog "2024-H1" None Sample.planning).
  - simpl. auto.
  - vm_compute. discriminate.
Defined.

(* ------------------------------------------------------------------ *)
(** ** Factors without responses *)

(** C5, as stated, fails: in the sample the invoicing factor has no
    response, and its row carries [index_raw = 1.0] (with
    [evidence_rate = 0.0] and [quality_penalty = 0.0]), not NaN. *)
Lemma silent_factor_row_has_numbers :
  ~ (forall df factors_df cyc flt out r,
       compute_factor_scores df factors_df cyc flt = Some out ->
       In r out -> n_responses (score r) = 0%nat ->
       stated_zero_row (score r)).
Proof.
  intros H.
  specialize (H Sample.two_answers Sample.catalog "2024-H1"%string None).
  vm_compute in H.
  specialize (H _ (mkScoreRow _ Sample.invoicing) eq_refl (or_intror (or_introl eq_refl))
                eq_refl).
  destruct H as (_ & _ & _ & _ & _ & _ & H & _). discriminate H.
Qed.

(** C5, amended.  For a catalog factor with no response in the selected
    cycle and group the scorer still returns a row: [median_level],
    [mean_level], [proficiency_median], [coverage_median], [dispersion]
    and [confidence_avg] are NaN, while [n_responses = 0],
    [evidence_rate = 0.0], [index_raw = 1.0], [quality_penalty = 0.0] and
    [index_adjusted = 1.0]. *)
Theorem zero_response_row
    (df : Responses) (factors_df : list Factor) (cyc : string)
    (flt : option string) (f : Factor) :
  In f factors_df ->
  factor_responses_of (cycle_rows df cyc flt) (f_factor_id f) = [] ->
  exists out,
    compute_factor_scores df factors_df cyc flt = Some out
    /\ (exists r, In r out /\ info r = f /\ factor_id (score r) = f_factor_id f)
    /\ forall r, In r out -> factor_id (score r) = f_factor_id f ->
       zero_row (score r).
Proof.
  intros Hf Hempty.
  destruct (scored_row_exists df factors_df cyc flt f Hf) as (out & r0 & E & Hr0 & Hi0 & Hid0).
  exists out. split; [exact E|]. split; [exists r0; auto|].
  intros r Hr Hid.
  destruct (scored_row_inv _ _ _ _ _ _ E Hr) as (fi & _ & Hsc & _ & _).
  rewrite Hid in Hsc. rewrite (factor_score_empty _ _ _ Hempty) in Hsc.
  rewrite Hsc. unfold zero_row. simpl. repeat split; reflexivity.
Qed.

Lemma zero_response_row_witness :
  exists out,
    compute_factor_scores Sample.two_answers Sample.catalog "2024-H1" None = Some out
    /\ (exists r, In r out /\ info r = Sample.invoicing
                   /\ factor_id (score r) = "INV01"%string)
    /\ forall r, In r out -> factor_id (score r) = "INV01"%string ->
       zero_row (score r).
Proof.
  apply (zero_response_row Sample.two_answers Sample.catalog "2024-H1" None
           Sample.invoicing).
  - simpl. auto.
  - vm_compute. reflexivity.
Defined.

(* ------------------------------------------------------------------ *)
(** ** Order statistics stay within the sample's range *)

Section Range.

Variable P : Q -> Prop.

Lemma insert_sorted_Forall (x : Q) (l : list Q) :
  P x -> Forall P l -> Forall P (insert_sorted x l).
Proof.
  intros Hx Hl. induction Hl as [|y t Hy Ht IH]; simpl.
  - constructor; [exact Hx | constructor].
  - destruct (Qle_bool x y).
    + constructor; [exact Hx|]. constructor; assumption.
    + constructor; assumption.
Qed.

Lemma sort_asc_Forall (l : list Q) : Forall P l -> Forall P (sort_asc l).
Proof.
  induction 1 as [|x t Hx Ht IH]; simpl.
  - constructor.
  - apply insert_sorted_Forall; assumption.
Qed.

Lemma nth_Forall (l : list Q) (i : nat) (d : Q) :
  Forall P l -> (i < List.length l)%nat -> P (nth i l d).
Proof.
  intros Hl Hi. rewrite Forall_forall in Hl. apply Hl. apply nth_In. exact Hi.
Qed.

End Range.

Lemma insert_sorted_length (x : Q) (l : list Q) :
  List.length (insert_sorted x l) = S (List.length l).
Proof.
  induction l as [|y t IH]; simpl; [reflexivity|].
  destruct (Qle_bool x y); simpl; [reflexivity | rewrite IH; reflexivity].
Qed.

Lemma sort_asc_length (l : list Q) : List.length (sort_asc l) = List.length l.
Proof.
  induction l as [|x t IH]; simpl; [reflexivity|].
  rewrite insert_sorted_length, IH. reflexivity.
Qed.

Lemma median_of_range (lo hi : Q) (l : list Q) :
  l <> [] ->
  Forall (fun x => lo <= x /\ x <= hi) l ->
  lo <= median_of l /\ median_of l <= hi.
Proof.
  intros Hne Hl. unfold median_of.
  pose proof (sort_asc_Forall _ l Hl) as Hs.
  pose proof (sort_asc_length l) as Hlen.
  set (s := sort_asc l) in *. set (n := List.length s) in *.
  assert (Hpos : (0 < n)%nat).
  { rewrite Hlen. destruct l; [contradiction | simpl; lia]. }
  assert (Hmid : (n / 2 < n)%nat) by (apply Nat.div_lt; lia).
  destruct (Nat.even n) eqn:Ev.
  - assert (Hlow : (n / 2 - 1 < n)%nat) by lia.
    pose proof (nth_Forall _ s (n / 2 - 1) 0 Hs Hlow) as [A1 A2].
    pose proof (nth_Forall _ s (n / 2) 0 Hs Hmid) as [B1 B2].
    cbv beta in A1, A2, B1, B2.
    set (a := nth (n / 2 - 1) s 0) in *. set (b := nth (n / 2) s 0) in *.
    split.
    + apply Qle_shift_div_l; [reflexivity | lra].
    + apply Qle_shift_div_r; [reflexivity | lra].
  - pose proof (nth_Forall _ s (n / 2) 0 Hs Hmid) as [B1 B2].
    split; assumption.
Qed.

Lemma all_defined_between (lo hi : Q) (l : list num) :
  Forall (fun a => between lo hi a = true) l ->
  exists xs, all_defined l = Some xs
             /\ List.length xs = List.length l
             /\ Forall (fun x => lo <= x /\ x <= hi) xs.
Proof.
  induction 1 as [|a t Ha Ht (xs & E & Hlen & Hxs)]; simpl.
  - exists []. repeat split; constructor.
  - apply between_iff in Ha. destruct Ha as (x & -> & H1 & H2).
    rewrite E. exists (x :: xs). simpl. repeat split.
    + rewrite Hlen. reflexivity.
    + constructor; auto.
Qed.

(* ------------------------------------------------------------------ *)
(** ** What the selections keep *)

Lemma select_rows (p : Response -> bool) (df : Responses) (r : Response) :
  In r (rows (select p df)) <-> In r (rows df) /\ p r = true.
Proof. unfold select. simpl. apply filter_In. Qed.

Lemma cycle_rows_incl (df : Responses) (cyc : string) (flt : option string)
    (r : Response) :
  In r (rows (cycle_rows df cyc flt)) -> In r (rows df).
Proof.
  unfold cycle_rows. destruct flt as [g|].
  - destruct (truthy (Some g) && negb (String.eqb g "All")).
    + intros H. apply select_rows in H. destruct H as [H _].
      apply select_rows in H. tauto.
    + intros H. apply select_rows in H. tauto.
  - intros H. apply select_rows in H. tauto.
Qed.

Lemma validate_responses_rows (df : Responses) (factors_df : list Factor) :
  rows (validate_responses df factors_df)
  = filter (meets_contract df factors_df) (rows df).
Proof.
  unfold meets_contract, validate_responses, select, with_rows. cbn [has_proficiency_level
    has_coverage_level rows].
  destruct (has_proficiency_level df), (has_coverage_level df);
    cbn [rows has_coverage_level];
    induction (rows df) as [|r t IH]; simpl; try reflexivity;
    destruct (isin (r_factor_id r) (map f_factor_id factors_df)); simpl; try exact IH;
    destruct (between 1 5 (r_level r)); simpl; try exact IH;
    try (destruct (between 1 5 (r_proficiency_level r)); simpl; try exact IH);
    try (destruct (between 1 5 (r_coverage_level r)); simpl; try exact IH);
    rewrite IH; reflexivity.
Qed.

Lemma validate_responses_level (df : Responses) (factors_df : list Factor)
    (r : Response) :
  In r (rows (validate_responses df factors_df)) -> between 1 5 (r_level r) = true.
Proof.
  rewrite validate_responses_rows. intros H. apply filter_In in H.
  destruct H as [_ H]. unfold meets_contract in H.
  rewrite !andb_true_iff in H. tauto.
Qed.

(* ------------------------------------------------------------------ *)
(** ** The index chain *)

Lemma factor_score_chain (cd : Responses) (fi : Factor) (fid : string) :
  (forall r, In r (rows cd) -> between 1 5 (r_level r) = true) ->
  exists raw_index,
    index_raw (factor_score cd fi fid) = Some raw_index
    /\ 1 <= index_adjusted (factor_score cd fi fid)
    /\ index_adjusted (factor_score cd fi fid) <= raw_index
    /\ raw_index <= 5.
Proof.
  intros Hvalid.
  destruct (factor_responses_of cd fid) as [|r0 t] eqn:E.
  - rewrite (factor_score_empty _ _ _ E). simpl. exists 1.
    split; [reflexivity|]. repeat split; discriminate.
  - assert (Hne : factor_responses_of cd fid <> []) by (rewrite E; discriminate).
    destruct (factor_score_nonempty cd fi fid Hne) as (_ & Hmed & Hraw & Hqp & Hadj).
    assert (Hlv : Forall (fun a => between 1 5 a = true)
                    (map r_level (factor_responses_of cd fid))).
    { apply Forall_forall. intros a Ha. apply in_map_iff in Ha.
      destruct Ha as (r & <- & Hr). apply Hvalid.
      unfold factor_responses_of in Hr. apply filter_In in Hr. tauto. }
    destruct (all_defined_between 1 5 _ Hlv) as (xs & Exs & Hlen & Hxs).
    assert (Hxne : xs <> []).
    { intros ->. rewrite E in Hlen. simpl in Hlen. discriminate. }
    destruct (median_of_range 1 5 xs Hxne Hxs) as [M1 M5].
    unfold np_median in Hmed. rewrite Exs in Hmed.
    exists (median_of xs). rewrite Hraw, Hmed. split; [reflexivity|].
    split; [rewrite Hadj; apply py_max_ge_l|].
    split; [|exact M5].
    rewrite Hadj, Hmed. cbn [sub lift2].
    pose proof (penalty_values
                  (n_responses (factor_score cd fi fid))
                  (dispersion (factor_score cd fi fid))
                  (f_evidence_required fi)
                  (evidence_rate (factor_score cd fi fid))) as Hv.
    cbv zeta in Hv. rewrite <- Hqp in Hv. destruct Hv as (_ & Hp0 & _).
    set (p := quality_penalty (factor_score cd fi fid)) in *.
    destruct (py_max_cases 1 (median_of xs - p)) as [[_ Hm] | [_ Hm]];
      rewrite Hm; [lra | exact M1].
Qed.

(** C6.  On validated responses and a non-empty catalog the scorer
    returns, and every row it returns satisfies
    [1.0 <= index_adjusted <= index_raw <= 5.0]. *)
Theorem index_chain
    (raw : Responses) (factors_df : list Factor) (cyc : string)
    (flt : option string) :
  factors_df <> [] ->
  exists out,
    compute_factor_scores (validate_responses raw factors_df) factors_df cyc flt
    = Some out
    /\ forall r, In r out ->
       exists raw_index,
         index_raw (score r) = Some raw_index
         /\ 1 <= index_adjusted (score r)
         /\ index_adjusted (score r) <= raw_index
         /\ raw_index <= 5.
Proof.
  intros Hne.
  destruct (compute_factor_scores_returns (validate_responses raw factors_df)
              factors_df cyc flt Hne) as (out & E).
  exists out. split; [exact E|]. intros r Hr.
  destruct (scored_row_inv _ _ _ _ _ _ E Hr) as (fi & _ & Hsc & _ & _).
  rewrite Hsc. apply factor_score_chain.
  intros x Hx. apply cycle_rows_incl in Hx.
  apply (validate_responses_level raw factors_df). exact Hx.
Qed.

Lemma index_chain_witness :
  exists out,
    compute_factor_scores (validate_responses Sample.raw_answers Sample.catalog)
      Sample.catalog "2024-H1" None = Some out
    /\ forall r, In r out ->
       exists raw_index,
         index_raw (score r) = Some raw_index
         /\ 1 <= index_adjusted (score r)
         /\ index_adjusted (score r) <= raw_index
         /\ raw_index <= 5.
Proof.
  apply (index_chain Sample.raw_answers Sample.catalog "2024-H1" None).
  discriminate.
Defined.

(* ------------------------------------------------------------------ *)
(** ** The group filter *)

(** C10.  With the filter ['All'], with an empty filter string and
    with no filter the scorer selects the rows of the cycle and returns
    the same result; any other filter restricts the cycle's rows to the
    group before scoring. *)
Theorem group_filter_sentinel
    (df : Responses) (factors_df : list Factor) (cyc : string) :
  compute_factor_scores df factors_df cyc (Some "All"%string)
  = compute_factor_scores df factors_df cyc None
  /\ compute_factor_scores df factors_df cyc (Some ""%string)
     = compute_factor_scores df factors_df cyc None
  /\ cycle_rows df cyc None
     = select (fun r => String.eqb (r_cycle_id r) cyc) df
  /\ forall g, g <> "All"%string -> g <> ""%string ->
       cycle_rows df cyc (Some g)
       = select (fun r => String.eqb (r_org_group r) g)
           (select (fun r => String.eqb (r_cycle_id r) cyc) df).
Proof.
  split; [reflexivity|]. split; [reflexivity|]. split; [reflexivity|].
  intros g HAll Hempty. unfold cycle_rows, truthy.
  apply String.eqb_neq in HAll. apply String.eqb_neq in Hempty.
  rewrite HAll, Hempty. reflexivity.
Qed.

Lemma group_filter_sentinel_witness :
  compute_factor_scores Sample.five_answers Sample.catalog "2024-H1" (Some "All"%string)
  = compute_factor_scores Sample.five_answers Sample.catalog "2024-H1" None
  /\ cycle_rows Sample.five_answers "2024-H1" (Some "Finance"%string)
     = select (fun r => String.eqb (r_org_group r) "Finance")
         (select (fun r => String.eqb (r_cycle_id r) "2024-H1") Sample.five_answers).
Proof.
  destruct (group_filter_sentinel Sample.five_answers Sample.catalog "2024-H1"%string)
    as (H1 & _ & _ & H4).
  split; [exact H1 | apply H4; discriminate].
Defined.

(* ------------------------------------------------------------------ *)
(** ** The validator *)

Lemma isin_iff (x : string) (l : list string) : isin x l = true <-> In x l.
Proof.
  unfold isin. rewrite existsb_exists. split.
  - intros (y & Hy & E). apply String.eqb_eq in E. subst. exact Hy.
  - intros H. exists x. split; [exact H | apply String.eqb_refl].
Qed.

Lemma meets_contract_iff (df : Responses) (factors_df : list Factor) (r : Response) :
  meets_contract df factors_df r = true <->
  (exists f, In f factors_df /\ f_factor_id f = r_factor_id r)
  /\ (exists l, r_level r = Some l /\ 1 <= l /\ l <= 5)
  /\ (has_proficiency_level df = true ->
      exists p, r_proficiency_level r = Some p /\ 1 <= p /\ p <= 5)
  /\ (has_coverage_level df = true ->
      exists c, r_coverage_level r = Some c /\ 1 <= c /\ c <= 5).
Proof.
  unfold meets_contract. rewrite !andb_true_iff, isin_iff, in_map_iff, between_iff.
  assert (Hopt : forall (b : bool) (a : num),
             (if b then between 1 5 a else true) = true <->
             (b = true -> exists x, a = Some x /\ 1 <= x /\ x <= 5)).
  { intros b a. destruct b.
    - rewrite between_iff. split; [auto | intros H; apply H; reflexivity].
    - split; [discriminate | reflexivity]. }
  rewrite !Hopt.
  assert (Hcat : (exists f, f_factor_id f = r_factor_id r /\ In f factors_df) <->
                 (exists f, In f factors_df /\ f_factor_id f = r_factor_id r)).
  { split; intros (f & H1 & H2); exists f; auto. }
  rewrite Hcat. tauto.
Qed.

(** C7, as stated, fails when "when present" is read per response: in a
    table that has the [proficiency_level] column, a response with a
    known factor, level 3, coverage 3 and an empty proficiency cell
    meets the stated contract, yet the validator drops it
    ([between] is false on NaN). *)
Lemma unrated_response_is_dropped :
  In Sample.unrated (rows Sample.partly_rated)
  /\ stated_contract Sample.catalog Sample.unrated = true
  /\ ~ In Sample.unrated (rows (validate_responses Sample.partly_rated Sample.catalog))
  /\ rows (validate_responses Sample.partly_rated Sample.catalog)
     <> filter (stated_contract Sample.catalog) (rows Sample.partly_rated).
Proof.
  split; [left; reflexivity|]. split; [reflexivity|]. split.
  - vm_compute. intros [].
  - vm_compute. discriminate.
Qed.

(** C7, amended.  The validator is a total function (it raises nothing)
    and returns, in their original order, exactly the input rows whose
    [factor_id] occurs in the catalog, whose [level] lies in [1,5] and
    whose [proficiency_level] and [coverage_level], when the table has
    these columns, are filled and lie in [1,5] (an empty cell of such a
    column drops the row); every other row is dropped, and the table
    keeps its columns. *)
Theorem validator_keeps_exactly (df : Responses) (factors_df : list Factor) :
  rows (validate_responses df factors_df)
  = filter (meets_contract df factors_df) (rows df)
  /\ (forall r,
        In r (rows (validate_responses df factors_df)) <->
        In r (rows df)
        /\ (exists f, In f factors_df /\ f_factor_id f = r_factor_id r)
        /\ (exists l, r_level r = Some l /\ 1 <= l /\ l <= 5)
        /\ (has_proficiency_level df = true ->
            exists p, r_proficiency_level r = Some p /\ 1 <= p /\ p <= 5)
        /\ (has_coverage_level df = true ->
            exists c, r_coverage_level r = Some c /\ 1 <= c /\ c <= 5))
  /\ has_proficiency_level (validate_responses df factors_df) = has_proficiency_level df
  /\ has_coverage_level (validate_responses df factors_df) = has_coverage_level df
  /\ has_confidence (validate_responses df factors_df) = has_confidence df.
Proof.
  split; [apply validate_responses_rows|]. split.
  - intros r. rewrite validate_responses_rows, filter_In, meets_contract_iff.
    reflexivity.
  - unfold validate_responses, select, with_rows. cbn [has_proficiency_level
      has_coverage_level rows].
    destruct (has_proficiency_level df) eqn:Ep, (has_coverage_level df) eqn:Ec;
      cbn; rewrite ?Ep, ?Ec; auto.
Qed.

(** The validator on the sample: the out-of-range and the unknown-factor
    rows go, the valid one stays. *)
Example validator_sample :
  rows (validate_responses Sample.raw_answers Sample.catalog)
  = [Sample.answer "2024-H1" "Finance" "PM01" 3 None].
Proof. vm_compute. reflexivity. Qed.

(* ------------------------------------------------------------------ *)
(** ** The quadrant classifier *)

(** C8, as stated, fails: the labels returned are the long Appendix A5
    sentences, not the short ones the specification quotes. *)
Lemma quadrant_label_differs :
  get_combined_maturity_quadrant (Some 4) (Some 2) <> "Strong, not yet scaled"%string
  /\ get_combined_maturity_quadrant (Some 4) (Some 2) <> stated_quadrant 4 2.
Proof. split; vm_compute; discriminate. Qed.

(** C8, amended.  For every pair of numbers the classifier thresholds
    each axis at 3 (inclusive on the high side) and returns
    "Institutional maturity and stable programme" when both are at
    least 3, "Strong practices not yet scaled across the organisation"
    when only proficiency is, "Widespread implementation requiring
    quality improvement" when only coverage is, and "Early-stage
    capability requiring structural improvements" otherwise; for (4, 2)
    it returns the second label. *)
Theorem quadrant_labels (proficiency coverage : Q) :
  (3 <= proficiency -> 3 <= coverage ->
   get_combined_maturity_quadrant (Some proficiency) (Some coverage)
   = "Institutional maturity and stable programme"%string)
  /\ (3 <= proficiency -> coverage < 3 ->
      get_combined_maturity_quadrant (Some proficiency) (Some coverage)
      = "Strong practices not yet scaled across the organisation"%string)
  /\ (proficiency < 3 -> 3 <= coverage ->
      get_combined_maturity_quadrant (Some proficiency) (Some coverage)
      = "Widespread implementation requiring quality improvement"%string)
  /\ (proficiency < 3 -> coverage < 3 ->
      get_combined_maturity_quadrant (Some proficiency) (Some coverage)
      = "Early-stage capability requiring structural improvements"%string)
  /\ get_combined_maturity_quadrant (Some 4) (Some 2)
     = "Strong practices not yet scaled across the organisation"%string.
Proof.
  unfold get_combined_maturity_quadrant, ge, cmp2, Qge_bool.
  repeat split; try reflexivity; intros Hp Hc.
  - apply Qle_bool_iff in Hp, Hc. rewrite Hp, Hc. reflexivity.
  - apply Qle_bool_iff in Hp. apply Qle_bool_false_iff in Hc.
    rewrite Hp, Hc. reflexivity.
  - apply Qle_bool_false_iff in Hp. apply Qle_bool_iff in Hc.
    rewrite Hp, Hc. reflexivity.
  - apply Qle_bool_false_iff in Hp, Hc. rewrite Hp, Hc. reflexivity.
Qed.

Lemma quadrant_labels_witness :
  get_combined_maturity_quadrant (Some (5 # 2)) (Some 3)
  = "Widespread implementation requiring quality improvement"%string.
Proof.
  destruct (quadrant_labels (5 # 2) 3) as (_ & _ & H & _).
  apply H; [reflexivity | discriminate].
Defined.

(** A NaN coordinate counts as low: [nan >= 3] is false. *)
Lemma quadrant_nan_is_low (coverage : Q) :
  get_combined_maturity_quadrant nan (Some coverage)
  = get_combined_maturity_quadrant (Some 0) (Some coverage)
  /\ get_combined_maturity_quadrant (Some coverage) nan
     = get_combined_maturity_quadrant (Some coverage) (Some 0).
Proof.
  unfold get_combined_maturity_quadrant, ge, cmp2, Qge_bool, nan.
  split; destruct (Qle_bool 3 coverage); reflexivity.
Qed.

(* ------------------------------------------------------------------ *)
(** ** Area aggregation *)

Lemma unique_In (x : string) (l : list string) : In x (unique l) <-> In x l.
Proof.
  induction l as [|y t IH]; simpl; [reflexivity|].
  rewrite filter_In, IH. split.
  - intros [H | [H _]]; auto.
  - intros [H | H]; [auto|].
    destruct (String.eqb y x) eqn:E.
    + apply String.eqb_eq in E. auto.
    + right. auto.
Qed.

Lemma total_weight_pos (af : list ScoreRow) :
  af <> [] ->
  (forall r, In r af -> 0 < weight r) ->
  0 < Qsum (map weight af).
Proof.
  induction af as [|r t IH]; intros Hne Hw; [contradiction|].
  simpl. pose proof (Hw r (or_introl eq_refl)) as Hr.
  destruct t as [|r' t'].
  - simpl. lra.
  - assert (0 < Qsum (map weight (r' :: t'))).
    { apply IH; [discriminate|]. intros x Hx. apply Hw. right. exact Hx. }
    lra.
Qed.

Lemma weighted_sum_lower (lo : Q) (af : list ScoreRow) :
  (forall r, In r af -> 0 < weight r) ->
  (forall r, In r af -> lo <= adj r) ->
  lo * Qsum (map weight af) <= Qsum (map (fun r => adj r * weight r) af).
Proof.
  induction af as [|r t IH]; intros Hw Hlo; simpl.
  - lra.
  - pose proof (Hw r (or_introl eq_refl)) as Hr.
    pose proof (Hlo r (or_introl eq_refl)) as Hx.
    assert (IH' : lo * Qsum (map weight t) <= Qsum (map (fun r => adj r * weight r) t)).
    { apply IH; intros x Hin; [apply Hw | apply Hlo]; right; exact Hin. }
    assert (Hm : lo * weight r <= adj r * weight r).
    { apply Qmult_le_compat_r; [exact Hx | apply Qlt_le_weak; exact Hr]. }
    rewrite Qmult_plus_distr_r. lra.
Qed.

Lemma weighted_sum_upper (hi : Q) (af : list ScoreRow) :
  (forall r, In r af -> 0 < weight r) ->
  (forall r, In r af -> adj r <= hi) ->
  Qsum (map (fun r => adj r * weight r) af) <= hi * Qsum (map weight af).
Proof.
  induction af as [|r t IH]; intros Hw Hhi; simpl.
  - lra.
  - pose proof (Hw r (or_introl eq_refl)) as Hr.
    pose proof (Hhi r (or_introl eq_refl)) as Hx.
    assert (IH' : Qsum (map (fun r => adj r * weight r) t) <= hi * Qsum (map weight t)).
    { apply IH; intros x Hin; [apply Hw | apply Hhi]; right; exact Hin. }
    assert (Hm : adj r * weight r <= hi * weight r).
    { apply Qmult_le_compat_r; [exact Hx | apply Qlt_le_weak; exact Hr]. }
    rewrite Qmult_plus_distr_r. lra.
Qed.

Lemma weighted_mean_between (lo hi : Q) (af : list ScoreRow) :
  af <> [] ->
  (forall r, In r af -> 0 < weight r) ->
  (forall r, In r af -> lo <= adj r /\ adj r <= hi) ->
  lo <= weighted_mean af /\ weighted_mean af <= hi.
Proof.
  intros Hne Hw Hb. unfold weighted_mean.
  pose proof (total_weight_pos af Hne Hw) as Hpos.
  split.
  - apply Qle_shift_div_l; [exact Hpos|].
    apply weighted_sum_lower; [exact Hw | intros r Hr; apply Hb; exact Hr].
  - apply Qle_shift_div_r; [exact Hpos|].
    apply weighted_sum_upper; [exact Hw | intros r Hr; apply Hb; exact Hr].
Qed.

(** A non-empty frame has a row of least and a row of greatest
    [index_adjusted]. *)
Lemma extreme_rows (af : list ScoreRow) :
  af <> [] ->
  exists rmin rmax,
    In rmin af /\ In rmax af
    /\ forall r, In r af -> adj rmin <= adj r /\ adj r <= adj rmax.
Proof.
  induction af as [|x t IH]; intros Hne; [contradiction|].
  destruct t as [|y t'].
  - exists x, x. simpl. repeat split; auto;
      destruct H as [<- | []]; apply Qle_refl.
  - destruct IH as (lo & hi & Hlo & Hhi & Hb); [discriminate|].
    set (t := y :: t') in *.
    exists (if Qle_bool (adj x) (adj lo) then x else lo),
           (if Qle_bool (adj hi) (adj x) then x else hi).
    destruct (Qle_bool (adj x) (adj lo)) eqn:E1, (Qle_bool (adj hi) (adj x)) eqn:E2;
      try apply Qle_bool_iff in E1; try apply Qle_bool_iff in E2;
      try apply Qle_bool_false_iff in E1; try apply Qle_bool_false_iff in E2;
      (split; [simpl; auto|]); (split; [simpl; auto|]);
      intros r [<- | Hr];
      try (specialize (Hb r Hr)); lra.
Qed.

Lemma area_index_of_eq (af : list ScoreRow) :
  area_index_of af
  = if Qgt_bool (Qsum (map weight af)) 0 then weighted_mean af else 1.
Proof. reflexivity. Qed.

(** C9, as stated, fails in the arithmetic the code runs in: for an
    area of one factor with [index_adjusted = 3.0] and weight 0.8 the
    quotient [(3.0 * 0.8) / 0.8] is 3.0000000000000004 in binary64,
    above the only member's index; three factors at 5.0 with weight 1.2
    give 5.000000000000001. *)
Lemma area_index_leaves_member_range :
  area_index_binary64 [(3%float, weight_0_8)] = 0x1.8000000000001p+1%float
  /\ PrimFloat.ltb 3%float (area_index_binary64 [(3%float, weight_0_8)]) = true
  /\ PrimFloat.ltb 5%float
       (area_index_binary64
          [(5%float, weight_1_2); (5%float, weight_1_2); (5%float, weight_1_2)])
     = true.
Proof. vm_compute. repeat split. Qed.

(** C9, amended.  Every area present in the frame gets a row.  When all
    member factors of the area have positive weight, [area_index] is the
    weight-weighted mean of their [index_adjusted]; computed exactly,
    that mean lies between the least and the greatest [index_adjusted]
    among them (the binary64 quotient may miss the range by a rounding
    error).  When the total weight is zero -- in binary64: not
    positive -- [area_index] is 1.0 and nothing is divided. *)
Theorem area_index_weighted_mean (factor_scores_df : list ScoreRow) :
  (forall r, In r factor_scores_df ->
     exists a, In a (compute_area_scores factor_scores_df)
               /\ area a = f_area (info r))
  /\ forall a, In a (compute_area_scores factor_scores_df) ->
     let af := area_rows factor_scores_df (area a) in
     af <> []
     /\ (forall r, In r af <-> In r factor_scores_df /\ f_area (info r) = area a)
     /\ ((forall r, In r af -> 0 < weight r) ->
         area_index a = weighted_mean af
         /\ exists rmin rmax,
              In rmin af /\ In rmax af
              /\ (forall r, In r af -> adj rmin <= adj r /\ adj r <= adj rmax)
              /\ adj rmin <= area_index a /\ area_index a <= adj rmax)
     /\ (Qsum (map weight af) == 0 -> area_index a = 1)
     /\ (forall cells : list (float * float),
           PrimFloat.ltb 0%float (column_sum (map snd cells)) = false ->
           area_index_binary64 cells = 1%float).
Proof.
  split.
  - intros r Hr. unfold compute_area_scores.
    eexists. split.
    + apply in_map_iff. exists (f_area (info r)). split; [reflexivity|].
      apply unique_In. apply in_map_iff. exists r. auto.
    + reflexivity.
  - intros a Ha. unfold compute_area_scores in Ha.
    apply in_map_iff in Ha. destruct Ha as (nm & <- & Hnm). cbn [area area_index].
    rewrite unique_In in Hnm. apply in_map_iff in Hnm. destruct Hnm as (r0 & E0 & Hr0).
    assert (Hmem : forall r, In r (area_rows factor_scores_df nm) <->
                             In r factor_scores_df /\ f_area (info r) = nm).
    { intros r. unfold area_rows. rewrite filter_In, String.eqb_eq. reflexivity. }
    assert (Hne : area_rows factor_scores_df nm <> []).
    { intros E. assert (H : In r0 (area_rows factor_scores_df nm)) by (apply Hmem; auto).
      rewrite E in H. contradiction. }
    cbv zeta. split; [exact Hne|]. split; [exact Hmem|]. split.
    + intros Hw. rewrite area_index_of_eq.
      pose proof (total_weight_pos _ Hne Hw) as Hpos.
      apply Qgt_bool_iff in Hpos. rewrite Hpos. split; [reflexivity|].
      destruct (extreme_rows _ Hne) as (rmin & rmax & Hmin & Hmax & Hb).
      exists rmin, rmax. split; [exact Hmin|]. split; [exact Hmax|].
      split; [exact Hb|].
      apply weighted_mean_between; assumption.
    + split.
      * intros Hz. rewrite area_index_of_eq.
        destruct (Qgt_bool (Qsum (map weight (area_rows factor_scores_df nm))) 0) eqn:E;
          [|reflexivity].
        apply Qgt_bool_iff in E. rewrite Hz in E. discriminate E.
      * intros cells Hcells. unfold area_index_binary64. rewrite Hcells. reflexivity.
Qed.

(** An area of two factors with weights 1 and 1.2 and adjusted
    indices 2 and 4. *)
Lemma area_index_weighted_mean_witness :
  In Sample.pm_area (compute_area_scores Sample.scored_pm)
  /\ List.length (area_rows Sample.scored_pm (area Sample.pm_area)) = 2%nat
  /\ area_index Sample.pm_area
     = weighted_mean (area_rows Sample.scored_pm (area Sample.pm_area))
  /\ 2 <= area_index Sample.pm_area /\ area_index Sample.pm_area <= 4.
Proof.
  assert (Hin : In Sample.pm_area (compute_area_scores Sample.scored_pm))
    by (left; reflexivity).
  split; [exact Hin|]. split; [reflexivity|].
  destruct (area_index_weighted_mean Sample.scored_pm) as [_ H].
  destruct (H Sample.pm_area Hin) as (_ & _ & Hw & _).
  destruct Hw as (Hmean & rmin & rmax & Hmin & Hmax & _ & Hlo & Hhi).
  - intros r Hr. vm_compute in Hr.
    destruct Hr as [<- | [<- | []]]; reflexivity.
  - split; [exact Hmean|]. split.
    + apply Qle_trans with (adj rmin); [|exact Hlo].
      vm_compute in Hmin. destruct Hmin as [<- | [<- | []]]; discriminate.
    + apply Qle_trans with (adj rmax); [exact Hhi|].
      vm_compute in Hmax. destruct Hmax as [<- | [<- | []]]; discriminate.
Defined.

(** The sample's first area holds one factor, so its index is that
    factor's adjusted index. *)
Example area_sample :
  area Sample.first_area = "Project Management"%string
  /\ area_index Sample.first_area == 2
  /\ area_level Sample.first_area = 2%Z.
Proof. vm_compute. repeat split. Qed.

(* ------------------------------------------------------------------ *)
(** ** Sorting the backlog *)

Lemma insert_desc_perm (g : Gap) (l : list Gap) :
  Permutation (insert_desc g l) (g :: l).
Proof.
  induction l as [|h t IH]; simpl.
  - apply Permutation_refl.
  - destruct (Qle_bool (priority_score h) (priority_score g)).
    + apply Permutation_refl.
    + apply perm_trans with (h :: g :: t).
      * apply perm_skip. exact IH.
      * apply perm_swap.
Qed.

Lemma sort_values_desc_perm (l : list Gap) : Permutation (sort_values_desc l) l.
Proof.
  induction l as [|g t IH]; simpl.
  - apply perm_nil.
  - apply perm_trans with (g :: sort_values_desc t).
    + apply insert_desc_perm.
    + apply perm_skip. exact IH.
Qed.

Lemma insert_desc_sorted (g : Gap) (l : list Gap) :
  StronglySorted ranked l -> StronglySorted ranked (insert_desc g l).
Proof.
  induction 1 as [|h t Hs IH Hall]; simpl.
  - constructor; constructor.
  - destruct (Qle_bool (priority_score h) (priority_score g)) eqn:E.
    + apply Qle_bool_iff in E. constructor.
      * constructor; assumption.
      * constructor; [exact E|].
        apply Forall_forall. intros x Hx. rewrite Forall_forall in Hall.
        unfold ranked in *. apply Qle_trans with (priority_score h); auto.
    + apply Qle_bool_false_iff in E. constructor; [exact IH|].
      apply (Permutation_Forall (Permutation_sym (insert_desc_perm g t))).
      constructor; [|exact Hall].
      unfold ranked. apply Qlt_le_weak. exact E.
Qed.

Lemma sort_values_desc_sorted (l : list Gap) :
  StronglySorted ranked (sort_values_desc l).
Proof.
  induction l as [|g t IH]; simpl.
  - constructor.
  - apply insert_desc_sorted. exact IH.
Qed.

Lemma compute_gap_analysis_perm (scores : list ScoreRow) (actions : list Action) :
  Permutation (compute_gap_analysis scores actions) (collect_gaps scores actions).
Proof.
  unfold compute_gap_analysis.
  destruct (0 <? List.length (collect_gaps scores actions))%nat.
  - apply sort_values_desc_perm.
  - apply Permutation_refl.
Qed.

Lemma compute_gap_analysis_sorted (scores : list ScoreRow) (actions : list Action) :
  StronglySorted ranked (compute_gap_analysis scores actions).
Proof.
  unfold compute_gap_analysis.
  destruct (collect_gaps scores actions) as [|g t] eqn:E.
  - simpl. constructor.
  - cbn [List.length Nat.ltb Nat.leb]. apply sort_values_desc_sorted.
Qed.

(* ------------------------------------------------------------------ *)
(** ** Which rows the gap analysis emits *)

Lemma gap_levels_of_Qmax (factor : ScoreRow) :
  gap_levels_of factor == stated_gap_levels factor.
Proof. unfold gap_levels_of, stated_gap_levels. apply py_max_Qmax. Qed.

Lemma gap_levels_of_pos (factor : ScoreRow) :
  0 < gap_levels_of factor <-> current_level_of factor < f_target_level (info factor).
Proof.
  unfold gap_levels_of.
  destruct (py_max_cases 0 (f_target_level (info factor) - current_level_of factor))
    as [[H E] | [H E]]; rewrite E; split; intros; lra.
Qed.

Lemma gap_levels_of_value (factor : ScoreRow) :
  current_level_of factor < f_target_level (info factor) ->
  gap_levels_of factor = f_target_level (info factor) - current_level_of factor.
Proof.
  intros Hlt. unfold gap_levels_of.
  destruct (py_max_cases 0 (f_target_level (info factor) - current_level_of factor))
    as [[H E] | [H E]]; [exact E | lra].
Qed.

Lemma flat_map_singletons {A B : Type} (p : A -> bool) (f : A -> B) (l : list A) :
  flat_map (fun a => if p a then [f a] else []) l = map f (filter p l).
Proof.
  induction l as [|a t IH]; simpl; [reflexivity|].
  destruct (p a); simpl; rewrite IH; reflexivity.
Qed.

Lemma flat_map_nothing {A B : Type} (l : list A) :
  flat_map (fun _ : A => @nil B) l = [].
Proof. induction l as [|a t IH]; simpl; auto. Qed.

Lemma factor_gaps_stated (actions : list Action) (factor : ScoreRow) :
  factor_gaps actions factor
  = flat_map (fun action =>
                if applicable factor action then [gap_row factor action] else [])
             actions.
Proof.
  unfold factor_gaps, applicable.
  assert (Hb : Qlt_bool 0 (stated_gap_levels factor)
               = negb (Qle_bool (gap_levels_of factor) 0)).
  { unfold Qlt_bool. f_equal.
    destruct (Qle_bool (stated_gap_levels factor) 0) eqn:E1,
             (Qle_bool (gap_levels_of factor) 0) eqn:E2; try reflexivity;
      try apply Qle_bool_iff in E1; try apply Qle_bool_iff in E2;
      try apply Qle_bool_false_iff in E1; try apply Qle_bool_false_iff in E2;
      pose proof (gap_levels_of_Qmax factor); lra. }
  rewrite Hb. destruct (Qle_bool (gap_levels_of factor) 0); simpl.
  - symmetry. apply flat_map_nothing.
  - rewrite flat_map_singletons. reflexivity.
Qed.

Lemma collect_gaps_stated (scores : list ScoreRow) (actions : list Action) :
  collect_gaps scores actions = stated_gaps scores actions.
Proof.
  unfold collect_gaps, stated_gaps.
  induction scores as [|factor t IH]; simpl; [reflexivity|].
  rewrite factor_gaps_stated, IH. reflexivity.
Qed.

Lemma factor_gaps_in (actions : list Action) (factor : ScoreRow) (g : Gap) :
  In g (factor_gaps actions factor) <->
  exists action,
    In action actions
    /\ current_level_of factor < f_target_level (info factor)
    /\ a_factor_id action = factor_id (score factor)
    /\ current_level_of factor <= a_if_level_leq action
    /\ g = gap_row factor action.
Proof.
  unfold factor_gaps.
  destruct (Qle_bool (gap_levels_of factor) 0) eqn:E.
  - apply Qle_bool_iff in E. split; [contradiction|].
    intros (a & _ & Hlt & _). apply gap_levels_of_pos in Hlt. lra.
  - apply Qle_bool_false_iff in E. apply gap_levels_of_pos in E.
    rewrite in_map_iff. unfold factor_actions_of. split.
    + intros (a & <- & Ha). apply filter_In in Ha. destruct Ha as [Ha Hc].
      apply andb_true_iff in Hc. destruct Hc as [H1 H2].
      apply String.eqb_eq in H1. apply Qge_bool_iff in H2.
      exists a. auto.
    + intros (a & Ha & _ & H1 & H2 & ->). exists a. split; [reflexivity|].
      apply filter_In. split; [exact Ha|].
      apply andb_true_iff. split; [apply String.eqb_eq | apply Qge_bool_iff]; assumption.
Qed.

Lemma compute_gap_analysis_in (scores : list ScoreRow) (actions : list Action)
    (g : Gap) :
  In g (compute_gap_analysis scores actions) <->
  exists factor action,
    In factor scores /\ In action actions
    /\ current_level_of factor < f_target_level (info factor)
    /\ a_factor_id action = factor_id (score factor)
    /\ current_level_of factor <= a_if_level_leq action
    /\ g = gap_row factor action.
Proof.
  split.
  - intros H.
    apply (Permutation_in _ (compute_gap_analysis_perm scores actions)) in H.
    unfold collect_gaps in H. apply in_flat_map in H.
    destruct H as (factor & Hf & Hg). apply factor_gaps_in in Hg.
    destruct Hg as (a & Hg). exists factor, a. tauto.
  - intros (factor & a & Hf & Hrest).
    apply (Permutation_in _ (Permutation_sym (compute_gap_analysis_perm scores actions))).
    unfold collect_gaps. apply in_flat_map. exists factor. split; [exact Hf|].
    apply factor_gaps_in. exists a. exact Hrest.
Qed.

Lemma gap_row_gap_levels (factor : ScoreRow) (action : Action) :
  gap_levels (gap_row factor action) = gap_levels_of factor.
Proof. reflexivity. Qed.

(** C4.  The analyzer returns a rearrangement of one row per
    applicable (factor, action) pair -- the gap
    [max(0, target_level - current_level)] is positive, with
    [current_level] the median level or 1.0 when it is undefined, the
    action references the factor and [if_level_leq >= current_level] --
    and of nothing else; every returned row has a positive
    [gap_levels], and the rows come in non-increasing order of
    [priority_score]. *)
Theorem gap_rows_exact_and_sorted
    (factor_scores_df : list ScoreRow) (actions_df : list Action) :
  Permutation (compute_gap_analysis factor_scores_df actions_df)
              (stated_gaps factor_scores_df actions_df)
  /\ (forall g,
        In g (compute_gap_analysis factor_scores_df actions_df) <->
        exists factor action,
          In factor factor_scores_df /\ In action actions_df
          /\ 0 < stated_gap_levels factor
          /\ a_factor_id action = factor_id (score factor)
          /\ current_level_of factor <= a_if_level_leq action
          /\ g = gap_row factor action)
  /\ (forall factor,
        current_level_of factor
        = match median_level (score factor) with Some m => m | None => 1 end)
  /\ (forall g,
        In g (compute_gap_analysis factor_scores_df actions_df) ->
        0 < gap_levels g)
  /\ StronglySorted ranked (compute_gap_analysis factor_scores_df actions_df).
Proof.
  split.
  { rewrite <- collect_gaps_stated. apply compute_gap_analysis_perm. }
  assert (Hpos : forall factor,
             0 < stated_gap_levels factor <->
             current_level_of factor < f_target_level (info factor)).
  { intros factor. rewrite <- gap_levels_of_pos.
    pose proof (gap_levels_of_Qmax factor). split; intros; lra. }
  split.
  { intros g. rewrite compute_gap_analysis_in. split.
    - intros (factor & a & Hf & Ha & Hlt & Hrest). exists factor, a.
      apply Hpos in Hlt. tauto.
    - intros (factor & a & Hf & Ha & Hlt & Hrest). exists factor, a.
      apply Hpos in Hlt. tauto. }
  split; [reflexivity|]. split.
  - intros g Hg. apply compute_gap_analysis_in in Hg.
    destruct Hg as (factor & a & _ & _ & Hlt & _ & _ & ->).
    rewrite gap_row_gap_levels. apply gap_levels_of_pos. exact Hlt.
  - apply compute_gap_analysis_sorted.
Qed.

Lemma gap_rows_exact_and_sorted_witness :
  0 < gap_levels (gap_row Sample.planning_row Sample.raise_level).
Proof.
  destruct (gap_rows_exact_and_sorted Sample.scored_unanimous [Sample.raise_level])
    as (_ & _ & _ & H & _).
  apply H. vm_compute. left. reflexivity.
Defined.

(** On the sample the two applicable actions come out by descending
    priority. *)
Example backlog_sample :
  map g_action_id
      (compute_gap_analysis Sample.scored_unanimous
         [Sample.first_step; Sample.raise_level])
  = ["A1"%string]
  /\ map g_action_id
       (compute_gap_analysis Sample.scored_silent
          [Sample.raise_level; Sample.first_step])
     = ["A0"%string; "A1"%string].
Proof. vm_compute. split; reflexivity. Qed.

(* ------------------------------------------------------------------ *)
(** ** Priority score *)

Lemma quality_factor_of_stated (factor : ScoreRow) :
  (0 < n_responses (score factor))%nat ->
  quality_factor_of factor == stated_quality_factor factor.
Proof.
  intros Hn. unfold quality_factor_of, stated_quality_factor.
  apply Nat.ltb_lt in Hn. rewrite Hn. cbv zeta.
  rewrite py_min_Qmin.
  destruct (dispersion (score factor)) as [d|].
  - rewrite py_max_Qmax. reflexivity.
  - reflexivity.
Qed.

Lemma gap_row_priority (factor : ScoreRow) (action : Action) :
  priority_score (gap_row factor action)
  = (a_impact action * gap_levels_of factor * weight factor)
    / py_max (a_effort action) (Some 1)
    * quality_factor_of factor.
Proof. reflexivity. Qed.

(** The specification's scenario, for any row and action carrying its
    numbers. *)
Lemma priority_scenario (factor : ScoreRow) (action : Action) :
  f_target_level (info factor) == 4 ->
  current_level_of factor == 2 ->
  a_impact action == 4 ->
  a_effort action == 2 ->
  weight factor == 1 ->
  quality_factor_of factor == 1 ->
  gap_levels (gap_row factor action) == 2
  /\ priority_score (gap_row factor action) == 4.
Proof.
  intros Ht Hc Hi He Hw Hq.
  assert (Hg : gap_levels_of factor == 2).
  { rewrite gap_levels_of_value; lra. }
  split; [exact Hg|].
  rewrite gap_row_priority, Hg, Hi, Hw, Hq.
  destruct (py_max_cases (a_effort action) 1) as [[H E] | [H E]]; rewrite E.
  - lra.
  - rewrite He. reflexivity.
Qed.

(** C3.  Every row the analyzer returns is built from a factor row and
    an action; when that factor has [n_responses > 0] its
    [priority_score] is
    [(impact * gap_levels * weight) / max(effort, 1)] times
    [min(1, n_responses/5) * max(0, 1 - dispersion/2) * evidence_rate],
    with 0.5 in place of the middle term when the dispersion is
    undefined.  With [target_level = 4], [current_level = 2],
    [impact = 4], [effort = 2], [weight = 1.0] and a quality factor of
    1.0 the row has [gap_levels = 2] and [priority_score = 4.0]. *)
Theorem priority_score_formula
    (factor_scores_df : list ScoreRow) (actions_df : list Action) (g : Gap) :
  In g (compute_gap_analysis factor_scores_df actions_df) ->
  exists factor action,
    In factor factor_scores_df /\ In action actions_df
    /\ g = gap_row factor action
    /\ impact g = a_impact action /\ effort g = a_effort action
    /\ gap_levels g == stated_gap_levels factor
    /\ ((0 < n_responses (score factor))%nat ->
        priority_score g == stated_priority factor g)
    /\ (f_target_level (info factor) == 4 ->
        current_level_of factor == 2 ->
        impact g == 4 -> effort g == 2 -> weight factor == 1 ->
        quality_factor_of factor == 1 ->
        gap_levels g == 2 /\ priority_score g == 4).
Proof.
  intros Hg. apply compute_gap_analysis_in in Hg.
  destruct Hg as (factor & a & Hf & Ha & _ & _ & _ & ->).
  exists factor, a. split; [exact Hf|]. split; [exact Ha|].
  split; [reflexivity|]. split; [reflexivity|]. split; [reflexivity|].
  split; [apply gap_levels_of_Qmax|]. split.
  - intros Hn. unfold stated_priority.
    rewrite gap_row_priority. cbn [impact effort gap_levels gap_row].
    rewrite (quality_factor_of_stated factor Hn), py_max_Qmax. reflexivity.
  - cbn [impact effort gap_row]. apply priority_scenario.
Qed.

(** The scenario on the sample: five unanimous answers at level 2
    against a target of 4, and the action with impact 4 and effort 2. *)
Lemma priority_score_formula_witness :
  exists factor action,
    In factor Sample.scored_unanimous /\ In action [Sample.raise_level]
    /\ gap_row Sample.planning_row Sample.raise_level = gap_row factor action
    /\ impact (gap_row Sample.planning_row Sample.raise_level) = a_impact action
    /\ effort (gap_row Sample.planning_row Sample.raise_level) = a_effort action
    /\ gap_levels (gap_row Sample.planning_row Sample.raise_level)
       == stated_gap_levels factor
    /\ ((0 < n_responses (score factor))%nat ->
        priority_score (gap_row Sample.planning_row Sample.raise_level)
        == stated_priority factor (gap_row Sample.planning_row Sample.raise_level))
    /\ (f_target_level (info factor) == 4 ->
        current_level_of factor == 2 ->
        impact (gap_row Sample.planning_row Sample.raise_level) == 4 ->
        effort (gap_row Sample.planning_row Sample.raise_level) == 2 ->
        weight factor == 1 ->
        quality_factor_of factor == 1 ->
        gap_levels (gap_row Sample.planning_row Sample.raise_level) == 2
        /\ priority_score (gap_row Sample.planning_row Sample.raise_level) == 4).
Proof.
  apply (priority_score_formula Sample.scored_unanimous [Sample.raise_level]).
  vm_compute. left. reflexivity.
Defined.

Example priority_sample :
  map (fun g => (gap_levels g, priority_score g))
      (compute_gap_analysis Sample.scored_unanimous [Sample.raise_level])
  = [(gap_levels (gap_row Sample.planning_row Sample.raise_level),
      priority_score (gap_row Sample.planning_row Sample.raise_level))]
  /\ gap_levels (gap_row Sample.planning_row Sample.raise_level) == 2
  /\ priority_score (gap_row Sample.planning_row Sample.raise_level) == 4
  /\ quality_factor_of Sample.planning_row == 1.
Proof. vm_compute. repeat split. Qed.

(* ------------------------------------------------------------------ *)
(** ** Gap rows of factors without responses *)

(** In the scorer's frame, [n_responses = 0] marks exactly the
    zero-response rows. *)
Lemma scored_zero_row (df : Responses) (factors_df : list Factor) (cyc : string)
    (flt : option string) (out : list ScoreRow) (r : ScoreRow) :
  compute_factor_scores df factors_df cyc flt = Some out ->
  In r out ->
  n_responses (score r) = 0%nat ->
  zero_row (score r).
Proof.
  intros E Hr Hn.
  destruct (scored_row_inv _ _ _ _ _ _ E Hr) as (fi & _ & Hsc & _ & _).
  destruct (factor_responses_of (cycle_rows df cyc flt) (factor_id (score r)))
    as [|x t] eqn:Er.
  - rewrite (factor_score_empty _ _ _ Er) in Hsc. rewrite Hsc.
    unfold zero_row. simpl. repeat split; reflexivity.
  - exfalso.
    assert (Hne : factor_responses_of (cycle_rows df cyc flt) (factor_id (score r)) <> [])
      by (rewrite Er; discriminate).
    destruct (factor_score_nonempty _ fi _ Hne) as (Hlen & _).
    rewrite <- Hsc, Er in Hlen. simpl in Hlen. congruence.
Qed.

(** C2, as stated, fails: in a cycle without answers the planning
    factor has [n_responses = 0], yet the analyzer returns a row for it,
    priced with the flat quality factor 0.1. *)
Lemma zero_response_factor_gets_gap_rows :
  exists scores,
    compute_factor_scores Sample.five_answers Sample.catalog "2025-H1" None
    = Some scores
    /\ ~ (forall r g,
            In r scores -> n_responses (score r) = 0%nat ->
            In g (compute_gap_analysis scores [Sample.raise_level]) ->
            g_factor_id g <> factor_id (score r)).
Proof.
  eexists. split; [vm_compute; reflexivity|].
  intros H.
  refine (H (mkScoreRow (factor_score (Sample.table []) Sample.planning "PM01")
                        Sample.planning)
            (gap_row (mkScoreRow (factor_score (Sample.table []) Sample.planning "PM01")
                                 Sample.planning)
                     Sample.raise_level)
            _ _ _ _).
  - vm_compute. left. reflexivity.
  - reflexivity.
  - vm_compute. left. reflexivity.
  - reflexivity.
Qed.

(** C2, amended.  A row of the scorer's frame with [n_responses = 0]
    has an undefined median, so its [current_level] is 1.0 and its
    quality factor the flat 0.1.  When its [target_level] exceeds 1 the
    analyzer returns a row for each action of the factor with
    [if_level_leq >= 1], with [gap_levels = target_level - 1] and
    [priority_score = (impact * gap_levels * weight) / max(effort, 1) * 0.1];
    when [target_level <= 1] it returns none for that row. *)
Theorem zero_response_gap_rows
    (df : Responses) (factors_df : list Factor) (cyc : string)
    (flt : option string) (scores : list ScoreRow) (actions_df : list Action)
    (r : ScoreRow) :
  compute_factor_scores df factors_df cyc flt = Some scores ->
  In r scores ->
  n_responses (score r) = 0%nat ->
  current_level_of r = 1
  /\ quality_factor_of r = 1 # 10
  /\ (1 < f_target_level (info r) ->
      forall action,
        In action actions_df ->
        a_factor_id action = factor_id (score r) ->
        1 <= a_if_level_leq action ->
        In (gap_row r action) (compute_gap_analysis scores actions_df)
        /\ gap_levels (gap_row r action) = f_target_level (info r) - 1
        /\ priority_score (gap_row r action)
           == (a_impact action * (f_target_level (info r) - 1) * weight r)
              / Qmax (a_effort action) 1 * (1 # 10))
  /\ (f_target_level (info r) <= 1 -> factor_gaps actions_df r = []).
Proof.
  intros E Hr Hn.
  pose proof (scored_zero_row _ _ _ _ _ _ E Hr Hn) as Hz.
  destruct Hz as (Hmed & _).
  assert (Hcur : current_level_of r = 1).
  { unfold current_level_of. rewrite Hmed. reflexivity. }
  assert (Hqf : quality_factor_of r = 1 # 10).
  { unfold quality_factor_of. rewrite Hn. reflexivity. }
  split; [exact Hcur|]. split; [exact Hqf|]. split.
  - intros Ht a Ha Hid Hthr.
    assert (Hlt : current_level_of r < f_target_level (info r))
      by (rewrite Hcur; exact Ht).
    split.
    + apply compute_gap_analysis_in. exists r, a.
      rewrite Hcur. rewrite Hcur in Hlt. auto 10.
    + rewrite gap_row_gap_levels, gap_row_priority, Hqf.
      rewrite (gap_levels_of_value r Hlt), Hcur.
      split; [reflexivity|].
      rewrite py_max_Qmax. reflexivity.
  - intros Ht. unfold factor_gaps.
    destruct (Qle_bool (gap_levels_of r) 0) eqn:Eg; [reflexivity|].
    apply Qle_bool_false_iff in Eg. apply gap_levels_of_pos in Eg.
    rewrite Hcur in Eg. lra.
Qed.

Lemma zero_response_gap_rows_witness :
  current_level_of (hd Sample.no_row Sample.scored_silent) = 1
  /\ quality_factor_of (hd Sample.no_row Sample.scored_silent) = 1 # 10
  /\ In (gap_row (hd Sample.no_row Sample.scored_silent) Sample.raise_level)
        (compute_gap_analysis Sample.scored_silent [Sample.raise_level]).
Proof.
  destruct (zero_response_gap_rows Sample.five_answers Sample.catalog "2025-H1" None
              Sample.scored_silent [Sample.raise_level]
              (hd Sample.no_row Sample.scored_silent))
    as (H1 & H2 & H3 & _).
  - vm_compute. reflexivity.
  - vm_compute. left. reflexivity.
  - reflexivity.
  - split; [exact H1|]. split; [exact H2|].
    apply H3.
    + reflexivity.
    + left. reflexivity.
    + reflexivity.
    + discriminate.
Defined.

(* ------------------------------------------------------------------ *)
(** ** The specification's scoring scenarios *)

(** [level = [1,2,2,3,5]], no evidence required: median 2, quartiles 2
    and 3, no penalty, adjusted index 2. *)
Example five_answers_scenario :
  let s := score (hd Sample.no_row Sample.scored_five) in
  n_responses s = 5%nat
  /\ Num.eq (median_level s) (Some 2)
  /\ Num.eq (dispersion s) (Some 1)
  /\ quality_penalty s == 0
  /\ index_adjusted s == 2.
Proof. vm_compute. repeat split. Qed.

(** [level = [1,2]]: median 1.5, one increment for the small sample,
    adjusted index floored at 1. *)
Example two_answers_scenario :
  let s := score (hd Sample.no_row (Sample.frame Sample.two_answers "2024-H1")) in
  n_responses s = 2%nat
  /\ Num.eq (median_level s) (Some (3 # 2))
  /\ quality_penalty s == 1 # 2
  /\ index_adjusted s == 1.
Proof. vm_compute. repeat split. Qed.

(* ================================================================== *)
(** * Further properties of the pipeline *)

(* ------------------------------------------------------------------ *)
(** ** The validator, continued *)

Lemma validate_responses_eq (df : Responses) (factors_df : list Factor) :
  validate_responses df factors_df
  = with_rows df (filter (meets_contract df factors_df) (rows df)).
Proof.
  pose proof (validate_responses_rows df factors_df) as Hrows.
  revert Hrows. unfold validate_responses, select, with_rows.
  cbn [has_proficiency_level has_coverage_level has_confidence rows].
  destruct (has_proficiency_level df) eqn:Ep, (has_coverage_level df) eqn:Ec;
    cbn [has_proficiency_level has_coverage_level has_confidence rows];
    rewrite ?Ep, ?Ec; intros ->; reflexivity.
Qed.

Lemma filter_all {A : Type} (p : A -> bool) (l : list A) :
  filter p l = l <-> forall x, In x l -> p x = true.
Proof.
  induction l as [|a t IH]; simpl.
  - split; [intros _ x [] | reflexivity].
  - destruct (p a) eqn:E.
    + split.
      * intros H. injection H as H. intros x [<- | Hx]; [exact E|].
        apply IH; assumption.
      * intros H. f_equal. apply IH. intros x Hx. apply H. right. exact Hx.
    + split.
      * intros H. exfalso.
        assert (Hlen : (List.length (filter p t) <= List.length t)%nat)
          by apply filter_length_le.
        rewrite H in Hlen. simpl in Hlen. lia.
      * intros H. specialize (H a (or_introl eq_refl)). congruence.
Qed.

(** X1.  Validation is a projection: a validated table passes unchanged, and
    a table passes unchanged exactly when each of its rows meets the
    contract. *)
Theorem validate_responses_idempotent (df : Responses) (factors_df : list Factor) :
  validate_responses (validate_responses df factors_df) factors_df
  = validate_responses df factors_df
  /\ (rows (validate_responses df factors_df) = rows df <->
      forall r, In r (rows df) -> meets_contract df factors_df r = true).
Proof.
  split.
  - rewrite (validate_responses_eq (validate_responses df factors_df)).
    rewrite (validate_responses_eq df). unfold with_rows. cbn [rows
      has_proficiency_level has_coverage_level has_confidence].
    f_equal.
    apply filter_all. intros r Hr. apply filter_In in Hr.
    destruct Hr as [_ Hr]. exact Hr.
  - rewrite validate_responses_rows. apply filter_all.
Qed.

(* ------------------------------------------------------------------ *)
(** ** The scorer's frame, continued *)

Lemma filter_none {A : Type} (p : A -> bool) (l : list A) :
  (forall x, In x l -> p x = false) -> filter p l = [].
Proof.
  induction l as [|a t IH]; intros H; simpl; [reflexivity|].
  rewrite (H a (or_introl eq_refl)). apply IH.
  intros x Hx. apply H. right. exact Hx.
Qed.

Lemma filter_same_id (factors_df : list Factor) (f : Factor) :
  NoDup (map f_factor_id factors_df) ->
  In f factors_df ->
  filter (fun f' => String.eqb (f_factor_id f') (f_factor_id f)) factors_df = [f].
Proof.
  induction factors_df as [|h t IH]; intros Hnd Hin; [contradiction|].
  simpl in Hnd. inversion Hnd as [|? ? Hnotin Hnd']; subst.
  simpl. destruct Hin as [-> | Hin].
  - rewrite String.eqb_refl. f_equal. apply filter_none.
    intros x Hx. apply String.eqb_neq. intros E. apply Hnotin.
    rewrite <- E. apply in_map. exact Hx.
  - destruct (String.eqb (f_factor_id h) (f_factor_id f)) eqn:E.
    + apply String.eqb_eq in E. exfalso. apply Hnotin. rewrite E.
      apply in_map. exact Hin.
    + apply IH; assumption.
Qed.

Lemma flat_map_one {A B : Type} (g : A -> list B) (k : A -> B) (l : list A) :
  (forall x, In x l -> g x = [k x]) -> flat_map g l = map k l.
Proof.
  induction l as [|a t IH]; intros H; simpl; [reflexivity|].
  rewrite (H a (or_introl eq_refl)). simpl. f_equal.
  apply IH. intros x Hx. apply H. right. exact Hx.
Qed.

Lemma frame_rows_of_unique_catalog
    (df : Responses) (factors_df : list Factor) (cyc : string)
    (flt : option string) (out : list ScoreRow) :
  NoDup (map f_factor_id factors_df) ->
  compute_factor_scores df factors_df cyc flt = Some out ->
  map info out = factors_df
  /\ map (fun r => factor_id (score r)) out = map f_factor_id factors_df
  /\ List.length out = List.length factors_df.
Proof.
  intros Hnd E. rewrite compute_factor_scores_unfold in E.
  set (cd := cycle_rows df cyc flt) in *.
  assert (Hout : out = map (fun f => mkScoreRow
                     (factor_score cd (catalog_row factors_df (f_factor_id f))
                        (f_factor_id f)) f) factors_df).
  { unfold merge_left in E. unfold score_list in E. rewrite map_map in E.
    destruct factors_df as [|f0 t0] eqn:Ecat; [discriminate|].
    rewrite <- Ecat in *.
    assert (Hsome : forall l : list FactorScore, l <> [] ->
              match l with [] => None
              | _ :: _ => Some (flat_map (fun s => map (mkScoreRow s)
                     (filter (fun f => String.eqb (f_factor_id f) (factor_id s))
                        factors_df)) l) end
              = Some (flat_map (fun s => map (mkScoreRow s)
                     (filter (fun f => String.eqb (f_factor_id f) (factor_id s))
                        factors_df)) l)).
    { intros l Hl. destruct l; [contradiction | reflexivity]. }
    rewrite Hsome in E by (rewrite Ecat; discriminate).
    injection E as <-. rewrite flat_map_concat_map, map_map, <- flat_map_concat_map.
    apply flat_map_one. intros f Hf. rewrite factor_score_id.
    rewrite (filter_same_id factors_df f Hnd Hf). reflexivity. }
  rewrite Hout. rewrite !map_map. cbn [info score].
  split; [apply map_id|]. split.
  - apply map_ext. intros f. apply factor_score_id.
  - apply length_map.
Qed.

Lemma frame_of_unique_catalog
    (df : Responses) (factors_df : list Factor) (cyc : string)
    (flt : option string) (out : list ScoreRow) :
  NoDup (map f_factor_id factors_df) ->
  compute_factor_scores df factors_df cyc flt = Some out ->
  map info out = factors_df /\ List.length out = List.length factors_df.
Proof.
  intros Hnd E.
  destruct (frame_rows_of_unique_catalog df factors_df cyc flt out Hnd E)
    as (H1 & _ & H3).
  split; assumption.
Qed.

(** X3.  When the catalog lists every [factor_id] once, the frame has one row
    per catalog row, in catalog order, each carrying its own catalog
    columns. *)
Theorem one_row_per_factor
    (df : Responses) (factors_df : list Factor) (cyc : string)
    (flt : option string) (out : list ScoreRow) :
  NoDup (map f_factor_id factors_df) ->
  compute_factor_scores df factors_df cyc flt = Some out ->
  map info out = factors_df
  /\ map (fun r => factor_id (score r)) out = map f_factor_id factors_df
  /\ List.length out = List.length factors_df.
Proof.
  apply frame_rows_of_unique_catalog.
Qed.

Lemma one_row_per_factor_witness :
  map info Sample.scored_five = Sample.catalog
  /\ map (fun r => factor_id (score r)) Sample.scored_five
     = map f_factor_id Sample.catalog
  /\ List.length Sample.scored_five = List.length Sample.catalog.
Proof.
  apply (one_row_per_factor Sample.five_answers Sample.catalog "2024-H1" None).
  - repeat constructor; simpl; intuition discriminate.
  - vm_compute. reflexivity.
Defined.

(** X5.  The scores of a cycle depend on the rows of that cycle only: two
    tables with the same columns and the same rows for the cycle score
    alike, whatever else they hold. *)
Theorem other_cycles_ignored
    (df1 df2 : Responses) (factors_df : list Factor) (cyc : string)
    (flt : option string) :
  has_proficiency_level df1 = has_proficiency_level df2 ->
  has_coverage_level df1 = has_coverage_level df2 ->
  has_confidence df1 = has_confidence df2 ->
  filter (fun r => String.eqb (r_cycle_id r) cyc) (rows df1)
  = filter (fun r => String.eqb (r_cycle_id r) cyc) (rows df2) ->
  compute_factor_scores df1 factors_df cyc flt
  = compute_factor_scores df2 factors_df cyc flt.
Proof.
  intros Hp Hc Hf Hrows.
  assert (Hsel : select (fun r => String.eqb (r_cycle_id r) cyc) df1
                 = select (fun r => String.eqb (r_cycle_id r) cyc) df2).
  { unfold select, with_rows. rewrite Hp, Hc, Hf, Hrows. reflexivity. }
  unfold compute_factor_scores, cycle_rows. rewrite Hsel. reflexivity.
Qed.

Lemma other_cycles_ignored_witness :
  compute_factor_scores
    (Sample.table (rows Sample.five_answers
                   ++ [Sample.answer "2023-H2" "Finance" "PM01" 5 None]))
    Sample.catalog "2024-H1" None
  = compute_factor_scores Sample.five_answers Sample.catalog "2024-H1" None.
Proof.
  apply other_cycles_ignored; reflexivity.
Defined.

(* ------------------------------------------------------------------ *)
(** ** Evidence rate *)

Lemma Qnat_le (a b : nat) : (a <= b)%nat -> Qnat a <= Qnat b.
Proof.
  intros H. unfold Qnat. rewrite <- Zle_Qle. lia.
Qed.

Lemma Qnat_pos (n : nat) : (0 < n)%nat -> 0 < Qnat n.
Proof.
  intros H. unfold Qnat. change 0 with (inject_Z 0). rewrite <- Zlt_Qlt. lia.
Qed.

Lemma Qnat_nonneg (n : nat) : 0 <= Qnat n.
Proof.
  unfold Qnat. change 0 with (inject_Z 0). rewrite <- Zle_Qle. lia.
Qed.

Lemma factor_score_evidence_rate (cd : Responses) (fi : Factor) (fid : string) :
  0 <= evidence_rate (factor_score cd fi fid)
  /\ evidence_rate (factor_score cd fi fid) <= 1
  /\ (f_evidence_required fi = false ->
      factor_responses_of cd fid <> [] ->
      evidence_rate (factor_score cd fi fid) = 1).
Proof.
  unfold factor_score.
  destruct (factor_responses_of cd fid) as [|r0 t] eqn:E.
  - simpl. repeat split; try discriminate. intros _ H. contradiction.
  - cbn [List.length Nat.eqb]. cbv zeta. cbn [evidence_rate].
    destruct (f_evidence_required fi).
    + rewrite length_map.
      set (n := List.length (r0 :: t)).
      set (c := notna_count (map r_evidence_link (r0 :: t))).
      assert (Hc : (c <= n)%nat).
      { unfold c, n, notna_count.
        rewrite <- (length_map r_evidence_link (r0 :: t)).
        apply filter_length_le. }
      assert (Hn : 0 < Qnat n) by (apply Qnat_pos; unfold n; simpl; lia).
      split; [|split; [|discriminate]].
      * apply Qle_shift_div_l; [exact Hn|]. rewrite Qmult_0_l. apply Qnat_nonneg.
      * apply Qle_shift_div_r; [exact Hn|]. rewrite Qmult_1_l. apply Qnat_le. exact Hc.
    + repeat split; discriminate.
Qed.

(** X7.  In every row of the scorer's frame the evidence rate is a fraction
    between 0 and 1. *)
Theorem evidence_rate_is_fraction
    (df : Responses) (factors_df : list Factor) (cyc : string)
    (flt : option string) (out : list ScoreRow) (r : ScoreRow) :
  compute_factor_scores df factors_df cyc flt = Some out ->
  In r out ->
  0 <= evidence_rate (score r) /\ evidence_rate (score r) <= 1.
Proof.
  intros E Hr.
  destruct (scored_row_inv _ _ _ _ _ _ E Hr) as (fi & _ & Hsc & _ & _).
  rewrite Hsc.
  destruct (factor_score_evidence_rate (cycle_rows df cyc flt) fi (factor_id (score r)))
    as (H0 & H1 & _).
  split; assumption.
Qed.

Lemma evidence_rate_is_fraction_witness :
  0 <= evidence_rate (score Sample.planning_row)
  /\ evidence_rate (score Sample.planning_row) <= 1.
Proof.
  apply (evidence_rate_is_fraction Sample.unanimous Sample.catalog "2024-H1" None
           Sample.scored_unanimous).
  - vm_compute. reflexivity.
  - left. reflexivity.
Defined.

(* ------------------------------------------------------------------ *)
(** ** Monotonicity of the quality penalty *)

(** X8.  Fewer responses, a wider dispersion or a lower evidence rate never
    lower the quality penalty. *)
Theorem penalty_monotone
    (n n' : nat) (d d' rate rate' : Q) (req : bool) :
  (n' <= n)%nat -> d <= d' -> rate' <= rate ->
  penalty n (Some d) req rate <= penalty n' (Some d') req rate'.
Proof.
  intros Hn Hd Hr.
  rewrite !penalty_increments.
  assert (H1 : increment (n <? 3)%nat <= increment (n' <? 3)%nat).
  { unfold increment. destruct (n <? 3)%nat eqn:E1, (n' <? 3)%nat eqn:E2;
      try discriminate.
    apply Nat.ltb_lt in E1. apply Nat.ltb_ge in E2. lia. }
  assert (H2 : increment (gt (Some d) (Some (3 # 2)))
               <= increment (gt (Some d') (Some (3 # 2)))).
  { unfold increment, gt, cmp2.
    destruct (Qgt_bool d (3 # 2)) eqn:E1, (Qgt_bool d' (3 # 2)) eqn:E2;
      try discriminate.
    apply Qgt_bool_iff in E1. apply Qlt_bool_false_iff in E2. lra. }
  assert (H3 : increment (req && Qlt_bool rate (1 # 2))
               <= increment (req && Qlt_bool rate' (1 # 2))).
  { unfold increment. destruct req; simpl; [|discriminate].
    destruct (Qlt_bool rate (1 # 2)) eqn:E1, (Qlt_bool rate' (1 # 2)) eqn:E2;
      try discriminate.
    apply Qlt_bool_iff in E1. apply Qlt_bool_false_iff in E2. lra. }
  lra.
Qed.

Lemma penalty_monotone_witness :
  penalty 5 (Some 1) true (3 # 4) <= penalty 2 (Some 2) true (1 # 4).
Proof.
  apply penalty_monotone; [lia | discriminate | discriminate].
Defined.

(* ------------------------------------------------------------------ *)
(** ** Percentiles and the interquartile range *)

Lemma insert_sorted_In (x y : Q) (l : list Q) :
  In y (insert_sorted x l) -> y = x \/ In y l.
Proof.
  induction l as [|h t IH]; simpl.
  - intros [<- | []]. left. reflexivity.
  - destruct (Qle_bool x h); simpl.
    + intros [<- | [<- | H]]; auto.
    + intros [<- | H]; auto. destruct (IH H); auto.
Qed.

Lemma insert_sorted_sorted (x : Q) (l : list Q) :
  StronglySorted Qle l -> StronglySorted Qle (insert_sorted x l).
Proof.
  induction 1 as [|h t Hs IH Hall]; simpl.
  - constructor; constructor.
  - destruct (Qle_bool x h) eqn:E.
    + apply Qle_bool_iff in E. constructor; [constructor; assumption|].
      constructor; [exact E|].
      rewrite Forall_forall in *. intros y Hy. apply Qle_trans with h; auto.
    + apply Qle_bool_false_iff in E. constructor; [exact IH|].
      rewrite Forall_forall in *. intros y Hy.
      destruct (insert_sorted_In _ _ _ Hy) as [-> | Hy'].
      * apply Qlt_le_weak. exact E.
      * apply Hall. exact Hy'.
Qed.

Lemma sort_asc_sorted (l : list Q) : StronglySorted Qle (sort_asc l).
Proof.
  induction l as [|x t IH]; simpl; [constructor|].
  apply insert_sorted_sorted. exact IH.
Qed.

Lemma nth_sorted (s : list Q) (i j : nat) :
  StronglySorted Qle s ->
  (i <= j)%nat -> (j < List.length s)%nat ->
  nth i s 0 <= nth j s 0.
Proof.
  intros Hs. revert i j. induction Hs as [|h t Hs IH Hall]; intros i j Hij Hj.
  - simpl in Hj. lia.
  - destruct i as [|i], j as [|j]; simpl in *.
    + apply Qle_refl.
    + rewrite Forall_forall in Hall. apply Hall. apply nth_In. lia.
    + lia.
    + apply IH; lia.
Qed.

(** Where the virtual index of a percentile falls. *)
Lemma virtual_index_cell (m : nat) (q : Q) :
  0 <= q -> q <= 1 ->
  let vi := inject_Z (Z.of_nat m) * q in
  (Z.to_nat (Qfloor vi) <= m)%nat
  /\ (0 <= Qfloor vi)%Z
  /\ 0 <= vi - inject_Z (Qfloor vi)
  /\ vi - inject_Z (Qfloor vi) < 1.
Proof.
  intros H0 H1 vi.
  assert (Hm : 0 <= inject_Z (Z.of_nat m)).
  { change 0 with (inject_Z 0). rewrite <- Zle_Qle. lia. }
  assert (Hvi0 : 0 <= vi) by (unfold vi; apply Qmult_le_0_compat; assumption).
  assert (Hvim : vi <= inject_Z (Z.of_nat m)).
  { unfold vi. rewrite <- (Qmult_1_r (inject_Z (Z.of_nat m))) at 2.
    rewrite !(Qmult_comm (inject_Z (Z.of_nat m))).
    apply Qmult_le_compat_r; assumption. }
  assert (Hf0 : (0 <= Qfloor vi)%Z).
  { change 0%Z with (Qfloor 0). apply Qfloor_resp_le. exact Hvi0. }
  assert (Hfm : (Qfloor vi <= Z.of_nat m)%Z).
  { rewrite <- (Qfloor_Z (Z.of_nat m)). apply Qfloor_resp_le. exact Hvim. }
  pose proof (Qfloor_le vi) as Hle. pose proof (Qlt_floor vi) as Hlt.
  rewrite inject_Z_plus in Hlt. change (inject_Z 1) with 1 in Hlt.
  repeat split; try lia; try lra.
Qed.

Lemma percentile_of_cell (l : list Q) (q : Q) :
  l <> [] -> 0 <= q -> q <= 1 ->
  let s := sort_asc l in
  let i := Z.to_nat (Qfloor (inject_Z (Z.of_nat (List.length s - 1)) * q)) in
  (i <= List.length s - 1)%nat
  /\ nth i s 0 <= percentile_of l q
  /\ percentile_of l q <= nth (Nat.min (i + 1) (List.length s - 1)) s 0.
Proof.
  intros Hne H0 H1 s i.
  assert (Hlen : (0 < List.length s)%nat).
  { unfold s. rewrite sort_asc_length. destruct l; [contradiction | simpl; lia]. }
  destruct (virtual_index_cell (List.length s - 1) q H0 H1) as (Hi & _ & Hg0 & Hg1).
  fold i in Hi. split; [exact Hi|].
  unfold percentile_of. fold s. fold i.
  set (g := inject_Z (Z.of_nat (List.length s - 1)) * q
            - inject_Z (Qfloor (inject_Z (Z.of_nat (List.length s - 1)) * q))) in *.
  assert (Hord : nth i s 0 <= nth (Nat.min (i + 1) (List.length s - 1)) s 0).
  { apply nth_sorted; [apply sort_asc_sorted | lia | lia]. }
  set (lo := nth i s 0) in *. set (hi := nth (Nat.min (i + 1) (List.length s - 1)) s 0) in *.
  assert (Hp0 : 0 <= (hi - lo) * g) by (apply Qmult_le_0_compat; lra).
  assert (Hp1 : (hi - lo) * g <= (hi - lo) * 1).
  { rewrite !(Qmult_comm (hi - lo)). apply Qmult_le_compat_r; lra. }
  split; lra.
Qed.

(** Percentiles grow with the requested fraction. *)
Lemma percentile_of_monotone (l : list Q) (q1 q2 : Q) :
  l <> [] -> 0 <= q1 -> q1 <= q2 -> q2 <= 1 ->
  percentile_of l q1 <= percentile_of l q2.
Proof.
  intros Hne H0 H12 H1.
  assert (Hq1 : q1 <= 1) by lra. assert (Hq2 : 0 <= q2) by lra.
  destruct (percentile_of_cell l q1 Hne H0 Hq1) as (Hi1 & Hlo1 & Hhi1).
  destruct (percentile_of_cell l q2 Hne Hq2 H1) as (Hi2 & Hlo2 & Hhi2).
  cbv zeta in *.
  set (s := sort_asc l) in *. set (m := (List.length s - 1)%nat) in *.
  assert (Hlen : (0 < List.length s)%nat).
  { unfold s. rewrite sort_asc_length. destruct l; [contradiction | simpl; lia]. }
  assert (Hm : 0 <= inject_Z (Z.of_nat m)).
  { change 0 with (inject_Z 0). rewrite <- Zle_Qle. lia. }
  assert (Hvi : inject_Z (Z.of_nat m) * q1 <= inject_Z (Z.of_nat m) * q2).
  { rewrite !(Qmult_comm (inject_Z (Z.of_nat m))).
    apply Qmult_le_compat_r; assumption. }
  pose proof (Qfloor_resp_le _ _ Hvi) as Hfl.
  destruct (virtual_index_cell m q1 H0 Hq1) as (_ & Hf1 & _ & _).
  destruct (virtual_index_cell m q2 Hq2 H1) as (_ & Hf2 & _ & _).
  cbv zeta in Hf1, Hf2.
  destruct (Z.eq_dec (Qfloor (inject_Z (Z.of_nat m) * q1))
                     (Qfloor (inject_Z (Z.of_nat m) * q2))) as [Eq | Ne].
  - unfold percentile_of. fold s. fold m. rewrite <- Eq.
    set (i := Z.to_nat (Qfloor (inject_Z (Z.of_nat m) * q1))) in *.
    assert (Hord : nth i s 0 <= nth (Nat.min (i + 1) m) s 0).
    { apply nth_sorted; [apply sort_asc_sorted | lia | lia]. }
    set (lo := nth i s 0) in *. set (hi := nth (Nat.min (i + 1) m) s 0) in *.
    assert (Hg : (hi - lo) * (inject_Z (Z.of_nat m) * q1
                              - inject_Z (Qfloor (inject_Z (Z.of_nat m) * q1)))
                 <= (hi - lo) * (inject_Z (Z.of_nat m) * q2
                                 - inject_Z (Qfloor (inject_Z (Z.of_nat m) * q1)))).
    { rewrite !(Qmult_comm (hi - lo)). apply Qmult_le_compat_r; lra. }
    lra.
  - set (i1 := Z.to_nat (Qfloor (inject_Z (Z.of_nat m) * q1))) in *.
    set (i2 := Z.to_nat (Qfloor (inject_Z (Z.of_nat m) * q2))) in *.
    assert (Hlt : (i1 + 1 <= i2)%nat) by (unfold i1, i2; lia).
    assert (Hmid : nth (Nat.min (i1 + 1) m) s 0 <= nth i2 s 0).
    { apply nth_sorted; [apply sort_asc_sorted | lia | lia]. }
    lra.
Qed.

Lemma percentile_of_range (lo hi : Q) (l : list Q) (q : Q) :
  l <> [] -> 0 <= q -> q <= 1 ->
  Forall (fun x => lo <= x /\ x <= hi) l ->
  lo <= percentile_of l q /\ percentile_of l q <= hi.
Proof.
  intros Hne H0 H1 Hl.
  destruct (percentile_of_cell l q Hne H0 H1) as (Hi & Hlo & Hhi). cbv zeta in *.
  pose proof (sort_asc_Forall _ l Hl) as Hs.
  set (s := sort_asc l) in *.
  assert (Hlen : (0 < List.length s)%nat).
  { unfold s. rewrite sort_asc_length. destruct l; [contradiction | simpl; lia]. }
  set (i := Z.to_nat (Qfloor (inject_Z (Z.of_nat (List.length s - 1)) * q))) in *.
  pose proof (nth_Forall _ s i 0 Hs ltac:(lia)) as [A _].
  pose proof (nth_Forall _ s (Nat.min (i + 1) (List.length s - 1)) 0 Hs ltac:(lia))
    as [_ B].
  cbv beta in A, B. split; lra.
Qed.

Lemma Qsum_range (lo hi : Q) (l : list Q) :
  Forall (fun x => lo <= x /\ x <= hi) l ->
  lo * Qlen l <= Qsum l /\ Qsum l <= hi * Qlen l.
Proof.
  unfold Qlen. induction 1 as [|x t [Hx1 Hx2] Ht [IH1 IH2]].
  - cbn [Qsum List.length Z.of_nat]. change (inject_Z 0) with 0.
    rewrite !Qmult_0_r. split; apply Qle_refl.
  - cbn [Qsum List.length]. rewrite Nat2Z.inj_succ. unfold Z.succ.
    rewrite inject_Z_plus. change (inject_Z 1) with 1.
    set (k := inject_Z (Z.of_nat (List.length t))) in *.
    rewrite !Qmult_plus_distr_r. split; lra.
Qed.

Lemma mean_range (lo hi : Q) (l : list Q) :
  l <> [] ->
  Forall (fun x => lo <= x /\ x <= hi) l ->
  lo <= Qsum l / Qlen l /\ Qsum l / Qlen l <= hi.
Proof.
  intros Hne Hl. destruct (Qsum_range lo hi l Hl) as [H1 H2].
  assert (Hpos : 0 < Qlen l).
  { unfold Qlen. change 0 with (inject_Z 0). rewrite <- Zlt_Qlt.
    destruct l; [contradiction | simpl; lia]. }
  split.
  - apply Qle_shift_div_l; assumption.
  - apply Qle_shift_div_r; assumption.
Qed.

Lemma np_median_range (lo hi : Q) (l : list num) :
  l <> [] ->
  Forall (fun a => between lo hi a = true) l ->
  exists m, np_median l = Some m /\ lo <= m /\ m <= hi.
Proof.
  intros Hne Hl. destruct (all_defined_between lo hi l Hl) as (xs & E & Hlen & Hxs).
  assert (Hxne : xs <> []).
  { intros ->. destruct l; [contradiction | discriminate]. }
  unfold np_median. rewrite E. exists (median_of xs). split; [reflexivity|].
  apply median_of_range; assumption.
Qed.

(** The interquartile range is never negative. *)
Lemma factor_score_dispersion_nonneg (cd : Responses) (fi : Factor) (fid : string)
    (d : Q) :
  dispersion (factor_score cd fi fid) = Some d -> 0 <= d.
Proof.
  unfold factor_score.
  destruct (factor_responses_of cd fid) as [|r0 t] eqn:E; [discriminate|].
  cbn [List.length Nat.eqb]. cbv zeta. cbn [dispersion].
  unfold np_percentile.
  destruct (all_defined (map r_level (r0 :: t))) as [xs|] eqn:Ex; [|discriminate].
  cbn [sub lift2]. intros H. injection H as <-.
  assert (Hxne : xs <> []).
  { intros ->. simpl in Ex. destruct (r_level r0); [|discriminate].
    destruct (all_defined (map r_level t)); discriminate. }
  pose proof (percentile_of_monotone xs (25 # 100) (75 # 100) Hxne) as Hm.
  assert (percentile_of xs (25 # 100) <= percentile_of xs (75 # 100))
    by (apply Hm; discriminate).
  lra.
Qed.

(** X9.  In every row of the scorer's frame a defined dispersion is
    non-negative: the 75th percentile is never below the 25th. *)
Theorem dispersion_nonnegative
    (df : Responses) (factors_df : list Factor) (cyc : string)
    (flt : option string) (out : list ScoreRow) (r : ScoreRow) (d : Q) :
  compute_factor_scores df factors_df cyc flt = Some out ->
  In r out ->
  dispersion (score r) = Some d ->
  0 <= d.
Proof.
  intros E Hr Hd.
  destruct (scored_row_inv _ _ _ _ _ _ E Hr) as (fi & _ & Hsc & _ & _).
  rewrite Hsc in Hd. apply (factor_score_dispersion_nonneg _ _ _ _ Hd).
Qed.

Lemma dispersion_nonnegative_witness :
  match dispersion (score (hd Sample.no_row Sample.scored_five)) with
  | Some d => 0 <= d
  | None => True
  end.
Proof.
  destruct (dispersion (score (hd Sample.no_row Sample.scored_five))) as [d|] eqn:Ed;
    [|exact I].
  apply (dispersion_nonnegative Sample.five_answers Sample.catalog "2024-H1" None
           Sample.scored_five (hd Sample.no_row Sample.scored_five) d).
  - vm_compute. reflexivity.
  - left. reflexivity.
  - exact Ed.
Defined.

(* ------------------------------------------------------------------ *)
(** ** Columns kept by the validator *)

Lemma validated_columns (df : Responses) (factors_df : list Factor) :
  has_proficiency_level (validate_responses df factors_df) = has_proficiency_level df
  /\ has_coverage_level (validate_responses df factors_df) = has_coverage_level df.
Proof.
  rewrite validate_responses_eq. split; reflexivity.
Qed.

(* ------------------------------------------------------------------ *)
(** ** Statistics of validated responses stay on the 1-5 scale *)

Lemma cycle_rows_columns (df : Responses) (cyc : string) (flt : option string) :
  has_proficiency_level (cycle_rows df cyc flt) = has_proficiency_level df
  /\ has_coverage_level (cycle_rows df cyc flt) = has_coverage_level df
  /\ has_confidence (cycle_rows df cyc flt) = has_confidence df.
Proof.
  unfold cycle_rows. destruct flt as [g|]; [|repeat split].
  destruct (truthy (Some g) && negb (String.eqb g "All")); repeat split.
Qed.

Lemma factor_score_on_scale (cd : Responses) (fi : Factor) (fid : string) :
  (forall r, In r (rows cd) ->
     between 1 5 (r_level r) = true
     /\ (has_proficiency_level cd = true -> between 1 5 (r_proficiency_level r) = true)
     /\ (has_coverage_level cd = true -> between 1 5 (r_coverage_level r) = true)) ->
  factor_responses_of cd fid <> [] ->
  let s := factor_score cd fi fid in
  exists m mu p c d,
    median_level s = Some m /\ mean_level s = Some mu
    /\ proficiency_median s = Some p /\ coverage_median s = Some c
    /\ dispersion s = Some d
    /\ (1 <= m /\ m <= 5) /\ (1 <= mu /\ mu <= 5)
    /\ (1 <= p /\ p <= 5) /\ (1 <= c /\ c <= 5)
    /\ (0 <= d /\ d <= 4).
Proof.
  intros Hv Hne. unfold factor_score.
  destruct (factor_responses_of cd fid) as [|r0 t] eqn:E; [contradiction|].
  cbn [List.length Nat.eqb]. cbv zeta.
  cbn [median_level mean_level proficiency_median coverage_median dispersion].
  assert (Hin : forall r, In r (r0 :: t) -> In r (rows cd)).
  { intros r Hr. rewrite <- E in Hr. unfold factor_responses_of in Hr.
    apply filter_In in Hr. tauto. }
  assert (Hcol : forall (col : Response -> num),
             (forall r, In r (r0 :: t) -> between 1 5 (col r) = true) ->
             Forall (fun a => between 1 5 a = true) (map col (r0 :: t))).
  { intros col Hc. apply Forall_forall. intros a Ha. apply in_map_iff in Ha.
    destruct Ha as (r & <- & Hr). apply Hc. exact Hr. }
  assert (Hlv : Forall (fun a => between 1 5 a = true) (map r_level (r0 :: t))).
  { apply Hcol. intros r Hr. apply (Hv r (Hin r Hr)). }
  destruct (all_defined_between 1 5 _ Hlv) as (xs & Exs & Hlen & Hxs).
  assert (Hxne : xs <> []) by (intros ->; discriminate Hlen).
  destruct (np_median_range 1 5 (map r_level (r0 :: t)) ltac:(discriminate) Hlv)
    as (m & Em & Hm).
  assert (Hp : exists p,
             (if has_proficiency_level cd
              then np_median (map r_proficiency_level (r0 :: t))
              else np_median (map r_level (r0 :: t))) = Some p /\ 1 <= p /\ p <= 5).
  { destruct (has_proficiency_level cd) eqn:Ep; [|exists m; auto].
    apply np_median_range; [discriminate|]. apply Hcol.
    intros r Hr. apply (Hv r (Hin r Hr)). reflexivity. }
  assert (Hc : exists c,
             (if has_coverage_level cd
              then np_median (map r_coverage_level (r0 :: t))
              else np_median (map r_level (r0 :: t))) = Some c /\ 1 <= c /\ c <= 5).
  { destruct (has_coverage_level cd) eqn:Ec; [|exists m; auto].
    apply np_median_range; [discriminate|]. apply Hcol.
    intros r Hr. apply (Hv r (Hin r Hr)). reflexivity. }
  destruct Hp as (p & Ep & Hp). destruct Hc as (c & Ec & Hc).
  unfold np_mean, np_percentile. rewrite Exs. cbn [sub lift2].
  destruct (mean_range 1 5 xs Hxne Hxs) as [Mu1 Mu5].
  destruct (percentile_of_range 1 5 xs (75 # 100) Hxne ltac:(discriminate)
              ltac:(discriminate) Hxs) as [_ Q75].
  destruct (percentile_of_range 1 5 xs (25 # 100) Hxne ltac:(discriminate)
              ltac:(discriminate) Hxs) as [Q25 _].
  assert (Hmono : percentile_of xs (25 # 100) <= percentile_of xs (75 # 100)).
  { apply percentile_of_monotone; [exact Hxne | discriminate..]. }
  exists m, (Qsum xs / Qlen xs), p, c,
    (percentile_of xs (75 # 100) - percentile_of xs (25 # 100)).
  repeat split; try assumption; try tauto; try reflexivity; lra.
Qed.

(** X10.  On validated responses every factor with responses has defined
    statistics on the rating scale: median, mean, proficiency median and
    coverage median lie in [1,5], and the dispersion in [0,4]. *)
Theorem statistics_on_scale
    (raw : Responses) (factors_df : list Factor) (cyc : string)
    (flt : option string) (out : list ScoreRow) (r : ScoreRow) :
  compute_factor_scores (validate_responses raw factors_df) factors_df cyc flt
  = Some out ->
  In r out ->
  (0 < n_responses (score r))%nat ->
  exists m mu p c d,
    median_level (score r) = Some m /\ mean_level (score r) = Some mu
    /\ proficiency_median (score r) = Some p /\ coverage_median (score r) = Some c
    /\ dispersion (score r) = Some d
    /\ (1 <= m /\ m <= 5) /\ (1 <= mu /\ mu <= 5)
    /\ (1 <= p /\ p <= 5) /\ (1 <= c /\ c <= 5)
    /\ (0 <= d /\ d <= 4).
Proof.
  intros E Hr Hn.
  destruct (scored_row_inv _ _ _ _ _ _ E Hr) as (fi & _ & Hsc & _ & _).
  set (cd := cycle_rows (validate_responses raw factors_df) cyc flt) in *.
  assert (Hne : factor_responses_of cd (factor_id (score r)) <> []).
  { intros Hempty. rewrite (factor_score_empty _ _ _ Hempty) in Hsc.
    rewrite Hsc in Hn. simpl in Hn. lia. }
  rewrite Hsc. apply factor_score_on_scale; [|exact Hne].
  intros x Hx. unfold cd in Hx. apply cycle_rows_incl in Hx.
  destruct (cycle_rows_columns (validate_responses raw factors_df) cyc flt)
    as (Cp & Cc & _).
  destruct (validated_columns raw factors_df) as (Vp & Vc).
  fold cd in Cp, Cc. rewrite Cp, Cc, Vp, Vc.
  rewrite validate_responses_rows in Hx. apply filter_In in Hx.
  destruct Hx as [_ Hx]. unfold meets_contract in Hx.
  rewrite !andb_true_iff in Hx. destruct Hx as (((_ & Hl) & Hpf) & Hcv).
  split; [exact Hl|]. split; intros Hflag.
  - rewrite Hflag in Hpf. exact Hpf.
  - rewrite Hflag in Hcv. exact Hcv.
Qed.

Lemma statistics_on_scale_witness :
  exists m mu p c d,
    median_level (score (hd Sample.no_row (Sample.frame
      (validate_responses Sample.raw_answers Sample.catalog) "2024-H1"))) = Some m
    /\ mean_level (score (hd Sample.no_row (Sample.frame
      (validate_responses Sample.raw_answers Sample.catalog) "2024-H1"))) = Some mu
    /\ proficiency_median (score (hd Sample.no_row (Sample.frame
      (validate_responses Sample.raw_answers Sample.catalog) "2024-H1"))) = Some p
    /\ coverage_median (score (hd Sample.no_row (Sample.frame
      (validate_responses Sample.raw_answers Sample.catalog) "2024-H1"))) = Some c
    /\ dispersion (score (hd Sample.no_row (Sample.frame
      (validate_responses Sample.raw_answers Sample.catalog) "2024-H1"))) = Some d
    /\ (1 <= m /\ m <= 5) /\ (1 <= mu /\ mu <= 5)
    /\ (1 <= p /\ p <= 5) /\ (1 <= c /\ c <= 5)
    /\ (0 <= d /\ d <= 4).
Proof.
  apply (statistics_on_scale Sample.raw_answers Sample.catalog "2024-H1" None
           (Sample.frame (validate_responses Sample.raw_answers Sample.catalog)
              "2024-H1")).
  - vm_compute. reflexivity.
  - left. reflexivity.
  - vm_compute. lia.
Defined.

(* ------------------------------------------------------------------ *)
(** ** Grouping rows by a key *)

Lemma unique_NoDup (l : list string) : NoDup (unique l).
Proof.
  induction l as [|x t IH]; simpl; [constructor|].
  constructor.
  - intros H. apply filter_In in H. destruct H as [_ H].
    rewrite String.eqb_refl in H. discriminate.
  - apply NoDup_filter. exact IH.
Qed.

Lemma count_key_once (k : string) (keys : list string) :
  NoDup keys -> In k keys ->
  list_sum (map (fun k' => if String.eqb k k' then 1%nat else 0%nat) keys) = 1%nat.
Proof.
  induction keys as [|h t IH]; intros Hnd Hin; [contradiction|].
  inversion Hnd as [|? ? Hnotin Hnd']; subst. simpl.
  destruct (String.eqb k h) eqn:E.
  - apply String.eqb_eq in E. subst h.
    assert (Hz : list_sum (map (fun k' => if String.eqb k k' then 1%nat else 0%nat) t)
                 = 0%nat).
    { clear IH Hnd Hnd' Hin. induction t as [|y t' IHt]; [reflexivity|]. simpl.
      destruct (String.eqb k y) eqn:Ey.
      - apply String.eqb_eq in Ey. exfalso. apply Hnotin. left. auto.
      - apply IHt. intros H. apply Hnotin. right. exact H. }
    rewrite Hz. reflexivity.
  - destruct Hin as [-> | Hin]; [rewrite String.eqb_refl in E; discriminate|].
    simpl. apply IH; assumption.
Qed.

(** Grouping by a key splits a frame: the group sizes add up to the
    number of rows. *)
Lemma group_sizes_add_up {A : Type} (key : A -> string) (keys : list string)
    (l : list A) :
  NoDup keys ->
  (forall x, In x l -> In (key x) keys) ->
  list_sum (map (fun k => List.length (filter (fun x => String.eqb (key x) k) l)) keys)
  = List.length l.
Proof.
  intros Hnd. induction l as [|x t IH]; intros Hcov.
  - simpl. clear Hnd Hcov. induction keys as [|k ks IHk]; [reflexivity|].
    simpl. exact IHk.
  - assert (Hsplit : forall ks,
              list_sum (map (fun k => List.length
                               (filter (fun y => String.eqb (key y) k) (x :: t))) ks)
              = (list_sum (map (fun k' => if String.eqb (key x) k' then 1 else 0) ks)
                 + list_sum (map (fun k => List.length
                                    (filter (fun y => String.eqb (key y) k) t)) ks))%nat).
    { induction ks as [|k ks IHk]; [reflexivity|].
      rewrite !map_cons.
      change (list_sum ?a) with (fold_right Nat.add 0%nat a) in *.
      cbn [fold_right]. rewrite IHk. cbn [filter].
      destruct (String.eqb (key x) k); simpl; lia. }
    rewrite Hsplit, IH by (intros y Hy; apply Hcov; right; exact Hy).
    rewrite (count_key_once (key x) keys Hnd (Hcov x (or_introl eq_refl))).
    reflexivity.
Qed.

(* ------------------------------------------------------------------ *)
(** ** Area rows *)

Lemma py_round_floor (x : Q) :
  (Qfloor x <= py_round x)%Z /\ (py_round x <= Qfloor x + 1)%Z.
Proof.
  unfold py_round.
  destruct (Qlt_bool (x - inject_Z (Qfloor x)) (1 # 2)); [lia|].
  destruct (Qlt_bool (1 # 2) (x - inject_Z (Qfloor x))); [lia|].
  destruct (Z.even (Qfloor x)); lia.
Qed.

(** X11.  The area frame has one row per distinct area, the rows' factor
    counts add up to the number of factor rows, every area holds at
    least one factor, and every area level is one of 1..5. *)
Theorem area_rows_partition (factor_scores_df : list ScoreRow) :
  NoDup (map area (compute_area_scores factor_scores_df))
  /\ list_sum (map n_factors (compute_area_scores factor_scores_df))
     = List.length factor_scores_df
  /\ Forall (fun a => (1 <= n_factors a)%nat
                      /\ (1 <= area_level a)%Z /\ (area_level a <= 5)%Z)
            (compute_area_scores factor_scores_df).
Proof.
  unfold compute_area_scores. rewrite !map_map. cbn [area n_factors].
  split; [rewrite map_id; apply unique_NoDup|]. split.
  - unfold area_rows.
    apply (group_sizes_add_up (fun r => f_area (info r))).
    + apply unique_NoDup.
    + intros x Hx. apply unique_In. apply in_map_iff. exists x. auto.
  - apply Forall_forall. intros a Ha. apply in_map_iff in Ha.
    destruct Ha as (nm & <- & Hnm). cbn [n_factors area_level].
    rewrite unique_In in Hnm. apply in_map_iff in Hnm. destruct Hnm as (r0 & E0 & Hr0).
    split; [|lia].
    assert (Hin : In r0 (area_rows factor_scores_df nm)).
    { unfold area_rows. apply filter_In. split; [exact Hr0|].
      apply String.eqb_eq. exact E0. }
    destruct (area_rows factor_scores_df nm); [contradiction | simpl; lia].
Qed.

(* ------------------------------------------------------------------ *)
(** ** Overall score *)

Lemma compute_area_scores_nonempty (factor_scores_df : list ScoreRow) :
  factor_scores_df <> [] -> compute_area_scores factor_scores_df <> [].
Proof.
  destruct factor_scores_df as [|r t]; [contradiction|]. intros _.
  unfold compute_area_scores. simpl. discriminate.
Qed.

Lemma compute_overall_score_none (area_scores_df : list AreaScore) :
  compute_overall_score area_scores_df = None <-> area_scores_df = [].
Proof.
  destruct area_scores_df; simpl; split; intros H; try reflexivity; discriminate.
Qed.

(** X13.  The overall score is refused exactly for an area frame without
    rows, and after the area aggregation exactly for a factor frame
    without rows; whenever it is returned, the overall level is one of
    1..5. *)
Theorem overall_score_refused_iff_empty :
  (forall area_scores_df,
     compute_overall_score area_scores_df = None <-> area_scores_df = [])
  /\ (forall factor_scores_df,
        compute_overall_score (compute_area_scores factor_scores_df) = None <->
        factor_scores_df = [])
  /\ (forall area_scores_df o,
        compute_overall_score area_scores_df = Some o ->
        (1 <= overall_level o)%Z /\ (overall_level o <= 5)%Z).
Proof.
  split; [apply compute_overall_score_none|]. split.
  - intros rows. rewrite compute_overall_score_none. split.
    + intros E. destruct rows as [|r t]; [reflexivity|].
      exfalso. apply (compute_area_scores_nonempty (r :: t)); [discriminate | exact E].
    + intros ->. reflexivity.
  - intros l o E. destruct l as [|a t]; [discriminate|].
    simpl in E. injection E as <-. cbn [overall_level]. lia.
Qed.

Lemma overall_score_refused_iff_empty_witness :
  exists o,
    compute_overall_score (compute_area_scores Sample.scored_pm) = Some o
    /\ (1 <= overall_level o)%Z /\ (overall_level o <= 5)%Z.
Proof.
  destruct overall_score_refused_iff_empty as (_ & _ & H).
  eexists. split; [vm_compute; reflexivity|].
  apply (H (compute_area_scores Sample.scored_pm)). vm_compute. reflexivity.
Defined.

(* ------------------------------------------------------------------ *)
(** ** Participation statistics *)

Lemma insert_key_perm (k : string) (l : list string) :
  Permutation (insert_key k l) (k :: l).
Proof.
  induction l as [|h t IH]; simpl; [apply Permutation_refl|].
  destruct (String.leb k h); [apply Permutation_refl|].
  apply perm_trans with (h :: k :: t); [apply perm_skip; exact IH | apply perm_swap].
Qed.

Lemma sort_keys_perm (l : list string) : Permutation (sort_keys l) l.
Proof.
  induction l as [|k t IH]; simpl; [apply perm_nil|].
  apply perm_trans with (k :: sort_keys t);
    [apply insert_key_perm | apply perm_skip; exact IH].
Qed.

Lemma group_keys (l : list string) :
  NoDup (sort_keys (unique l))
  /\ forall k, In k (sort_keys (unique l)) <-> In k l.
Proof.
  split.
  - apply (Permutation_NoDup (Permutation_sym (sort_keys_perm (unique l)))).
    apply unique_NoDup.
  - intros k. split; intros H.
    + apply (proj1 (unique_In k l)).
      apply (Permutation_in _ (sort_keys_perm (unique l))). exact H.
    + apply (Permutation_in _ (Permutation_sym (sort_keys_perm (unique l)))).
      apply (proj2 (unique_In k l)). exact H.
Qed.

Lemma nunique_le (l : list string) : (nunique l <= List.length l)%nat.
Proof.
  unfold nunique. induction l as [|x t IH]; simpl; [lia|].
  pose proof (filter_length_le (fun y => negb (String.eqb x y)) (unique t)). lia.
Qed.

Lemma nunique_pos (l : list string) : l <> [] -> (1 <= nunique l)%nat.
Proof.
  unfold nunique. destruct l; [contradiction|]. intros _. simpl. lia.
Qed.

Lemma list_sum_le {A : Type} (f g : A -> nat) (l : list A) :
  (forall x, In x l -> (f x <= g x)%nat) ->
  (list_sum (map f l) <= list_sum (map g l))%nat.
Proof.
  induction l as [|a t IH]; intros H; simpl; [lia|].
  pose proof (H a (or_introl eq_refl)).
  assert (list_sum (map f t) <= list_sum (map g t))%nat
    by (apply IH; intros x Hx; apply H; right; exact Hx).
  lia.
Qed.

Lemma length_flat_map_sum {A B : Type} (f : A -> list B) (l : list A) :
  List.length (flat_map f l) = list_sum (map (fun x => List.length (f x)) l).
Proof.
  induction l as [|a t IH]; simpl; [reflexivity|].
  rewrite length_app, IH. reflexivity.
Qed.

Lemma participation_groups (responses_df : Responses) (cyc : string) :
  let cycle_data := filter (fun r => String.eqb (r_cycle_id r) cyc) (rows responses_df) in
  let stats := compute_participation_stats responses_df cyc in
  NoDup (map group (by_group stats))
  /\ (forall g, In g (map group (by_group stats)) <->
                exists r, In r cycle_data /\ r_org_group r = g)
  /\ list_sum (map total_responses (by_group stats)) = List.length cycle_data.
Proof.
  cbv zeta. unfold compute_participation_stats, select, with_rows.
  cbn [rows by_group]. rewrite !map_map. cbn [group total_responses].
  set (cycle_data := filter (fun r => String.eqb (r_cycle_id r) cyc) (rows responses_df)).
  destruct (group_keys (map r_org_group cycle_data)) as [Hnd Hkeys].
  rewrite map_id. split; [exact Hnd|]. split.
  - intros g. rewrite Hkeys, in_map_iff. split; intros (r & H1 & H2); exists r; auto.
  - rewrite <- (group_sizes_add_up r_org_group
                  (sort_keys (unique (map r_org_group cycle_data))) cycle_data Hnd).
    + f_equal. apply map_ext. intros g. apply length_map.
    + intros r Hr. apply Hkeys. apply in_map. exact Hr.
Qed.

(** X15.  Every response of the cycle is counted in exactly one group: the
    groups listed are the distinct organisational groups present in the
    cycle, and their response counts add up to the cycle's row count. *)
Theorem participation_partition (responses_df : Responses) (cyc : string) :
  let cycle_data := filter (fun r => String.eqb (r_cycle_id r) cyc) (rows responses_df) in
  let stats := compute_participation_stats responses_df cyc in
  NoDup (map group (by_group stats))
  /\ (forall g, In g (map group (by_group stats)) <->
                exists r, In r cycle_data /\ r_org_group r = g)
  /\ list_sum (map total_responses (by_group stats)) = List.length cycle_data.
Proof.
  apply participation_groups.
Qed.

(** X16.  Respondent counts are consistent with response counts: each group
    has at least one respondent and no more respondents than
    responses, and the cycle's respondent total is at most the sum over
    the groups, which is at most the number of responses. *)
Theorem participation_counts (responses_df : Responses) (cyc : string) :
  let cycle_data := filter (fun r => String.eqb (r_cycle_id r) cyc) (rows responses_df) in
  let stats := compute_participation_stats responses_df cyc in
  Forall (fun s => (1 <= unique_respondents s)%nat
                   /\ (unique_respondents s <= total_responses s)%nat)
         (by_group stats)
  /\ (total_respondents stats
      <= list_sum (map unique_respondents (by_group stats)))%nat
  /\ (list_sum (map unique_respondents (by_group stats))
      <= List.length cycle_data)%nat
  /\ (total_respondents stats = 0%nat <-> cycle_data = []).
Proof.
  cbv zeta.
  destruct (participation_groups responses_df cyc) as (Hnd & Hkeys & Hsum).
  unfold compute_participation_stats, select, with_rows in *.
  cbn [rows by_group total_respondents] in *. rewrite !map_map in *.
  cbn [group total_responses unique_respondents] in *.
  set (cycle_data := filter (fun r => String.eqb (r_cycle_id r) cyc) (rows responses_df))
    in *.
  set (keys := sort_keys (unique (map r_org_group cycle_data))) in *.
  set (members := fun g => filter (fun r => String.eqb (r_org_group r) g) cycle_data).
  assert (Hpoint : forall g, In g keys ->
            (1 <= nunique (map r_respondent_id (members g)))%nat
            /\ (nunique (map r_respondent_id (members g))
                <= List.length (map r_factor_id (members g)))%nat).
  { intros g Hg. split.
    - apply nunique_pos. rewrite map_id in Hkeys.
      apply Hkeys in Hg. destruct Hg as (r & Hr & Eg).
      assert (Hin : In r (members g)).
      { unfold members. apply filter_In. split; [exact Hr|].
        apply String.eqb_eq. exact Eg. }
      intros Hnil. apply map_eq_nil in Hnil. rewrite Hnil in Hin. contradiction.
    - rewrite length_map, <- (length_map r_respondent_id). apply nunique_le. }
  split.
  { apply Forall_forall. intros s Hs. apply in_map_iff in Hs.
    destruct Hs as (g & <- & Hg). cbn [unique_respondents total_responses].
    apply Hpoint. exact Hg. }
  split.
  { apply Nat.le_trans with
      (List.length (flat_map (fun g => unique (map r_respondent_id (members g))) keys));
      [|rewrite length_flat_map_sum; apply Nat.eq_le_incl; reflexivity].
    unfold nunique.
    apply NoDup_incl_length; [apply unique_NoDup|].
    intros u Hu. apply (proj1 (unique_In _ _)) in Hu. apply in_map_iff in Hu.
    destruct Hu as (r & <- & Hr). apply in_flat_map.
    exists (r_org_group r). split.
    - rewrite map_id in Hkeys. apply Hkeys. exists r. auto.
    - apply (proj2 (unique_In _ _)). apply in_map. unfold members. apply filter_In.
      split; [exact Hr | apply String.eqb_refl]. }
  split.
  { rewrite <- Hsum. apply list_sum_le. intros g Hg. apply Hpoint. exact Hg. }
  unfold nunique. split.
  - intros H. destruct cycle_data as [|r t]; [reflexivity|]. simpl in H. discriminate.
  - intros ->. reflexivity.
Qed.

(* ------------------------------------------------------------------ *)
(** ** Tables without the evidence column *)

Lemma mapM_none_iff {A B : Type} (f : A -> option B) (l : list A) :
  mapM f l = None <-> exists a, In a l /\ f a = None.
Proof.
  induction l as [|a t IH]; simpl.
  - split; [discriminate | intros (a & [] & _)].
  - destruct (f a) as [b|] eqn:Ea; simpl.
    + destruct (mapM f t) as [bs|] eqn:Et; simpl.
      * split; [discriminate|]. intros (x & [<- | Hx] & Ex); [congruence|].
        pose proof (proj2 IH (ex_intro _ x (conj Hx Ex))) as H. discriminate H.
      * split; [|reflexivity]. intros _.
        destruct (proj1 IH eq_refl) as (x & Hx & Ex). exists x. auto.
    + split; [|reflexivity]. intros _. exists a. auto.
Qed.

Lemma mapM_some_rows {A B : Type} (f : A -> option B) (d : B) (l : list A)
    (bs : list B) :
  mapM f l = Some bs ->
  bs = map (fun a => match f a with Some b => b | None => d end) l.
Proof.
  revert bs. induction l as [|a t IH]; intros bs; simpl.
  - intros E. injection E as <-. reflexivity.
  - destruct (f a) as [b|]; simpl; [|discriminate].
    destruct (mapM f t) as [bs'|]; simpl; [|discriminate].
    intros E. injection E as <-. rewrite (IH bs' eq_refl). reflexivity.
Qed.

Lemma mapM_ext_in {A B : Type} (f g : A -> option B) (l : list A) :
  (forall a, In a l -> f a = g a) -> mapM f l = mapM g l.
Proof.
  induction l as [|a t IH]; intros H; simpl; [reflexivity|].
  rewrite (H a (or_introl eq_refl)), IH; [reflexivity|].
  intros x Hx. apply H. right. exact Hx.
Qed.

Lemma score_factor_table_cases (t : Table) (cd : Responses)
    (factors_df : list Factor) (fid : string) :
  (reads_missing_evidence t cd factors_df fid = true
   /\ score_factor_table t cd factors_df fid = None)
  \/ (reads_missing_evidence t cd factors_df fid = false
      /\ score_factor_table t cd factors_df fid = score_factor cd factors_df fid).
Proof.
  unfold reads_missing_evidence, score_factor_table, score_factor.
  destruct (factor_info_of factors_df fid) as [fi|]; cbn [bind]; [|right; auto].
  destruct (negb (List.length (factor_responses_of cd fid) =? 0)%nat
            && f_evidence_required fi && negb (has_evidence_link t));
    [left | right]; auto.
Qed.

Lemma reads_missing_evidence_iff (t : Table) (cd : Responses)
    (factors_df : list Factor) (fid : string) :
  reads_missing_evidence t cd factors_df fid = true <->
  has_evidence_link t = false
  /\ exists fi,
       factor_info_of factors_df fid = Some fi
       /\ f_evidence_required fi = true
       /\ factor_responses_of cd fid <> [].
Proof.
  unfold reads_missing_evidence.
  destruct (factor_info_of factors_df fid) as [fi|].
  - rewrite !andb_true_iff, !negb_true_iff, Nat.eqb_neq. split.
    + intros ((Hn & Hr) & Hc). split; [exact Hc|]. exists fi.
      split; [reflexivity|]. split; [exact Hr|].
      intros E. rewrite E in Hn. apply Hn. reflexivity.
    + intros (Hc & fi' & E & Hr & Hn). injection E as <-.
      split; [split|]; try assumption.
      intros E. apply Hn. destruct (factor_responses_of cd fid);
        [reflexivity | discriminate].
  - split; [discriminate | intros (_ & fi & E & _); discriminate].
Qed.

(** Either some factor makes the scorer read the missing column, and
    the call raises, or none does, and the call is the scorer on the
    body of the table. *)
Lemma table_scorer_cases (t : Table) (factors_df : list Factor) (cyc : string)
    (flt : option string) :
  ((exists fid, In fid (map f_factor_id factors_df)
                /\ reads_missing_evidence t (cycle_rows (body t) cyc flt)
                     factors_df fid = true)
   /\ compute_factor_scores_table t factors_df cyc flt = None)
  \/ ((forall fid, In fid (map f_factor_id factors_df) ->
         reads_missing_evidence t (cycle_rows (body t) cyc flt) factors_df fid = false)
      /\ compute_factor_scores_table t factors_df cyc flt
         = compute_factor_scores (body t) factors_df cyc flt).
Proof.
  set (cd := cycle_rows (body t) cyc flt).
  destruct (existsb (reads_missing_evidence t cd factors_df)
              (map f_factor_id factors_df)) eqn:Ex.
  - left. apply existsb_exists in Ex. destruct Ex as (fid & Hfid & Hread).
    split; [exists fid; auto|].
    unfold compute_factor_scores_table. fold cd.
    assert (Hnone : mapM (score_factor_table t cd factors_df)
                      (map f_factor_id factors_df) = None).
    { apply mapM_none_iff. exists fid. split; [exact Hfid|].
      destruct (score_factor_table_cases t cd factors_df fid) as [[_ E] | [E _]];
        [exact E | congruence]. }
    rewrite Hnone. reflexivity.
  - right.
    assert (Hall : forall fid, In fid (map f_factor_id factors_df) ->
                     reads_missing_evidence t cd factors_df fid = false).
    { intros fid Hfid.
      destruct (reads_missing_evidence t cd factors_df fid) eqn:E; [|reflexivity].
      assert (existsb (reads_missing_evidence t cd factors_df)
                (map f_factor_id factors_df) = true)
        by (apply existsb_exists; exists fid; auto).
      congruence. }
    split; [exact Hall|].
    unfold compute_factor_scores_table, compute_factor_scores. fold cd.
    rewrite (mapM_ext_in (score_factor_table t cd factors_df)
               (score_factor cd factors_df)); [reflexivity|].
    intros fid Hfid.
    destruct (score_factor_table_cases t cd factors_df fid) as [[E _] | [_ E]];
      [|exact E].
    rewrite (Hall fid Hfid) in E. discriminate.
Qed.

Lemma table_frame (t : Table) (factors_df : list Factor) (cyc : string)
    (flt : option string) (out : list ScoreRow) :
  compute_factor_scores_table t factors_df cyc flt = Some out ->
  compute_factor_scores (body t) factors_df cyc flt = Some out.
Proof.
  intros Eo.
  destruct (table_scorer_cases t factors_df cyc flt) as [[_ E] | [_ E]];
    congruence.
Qed.

Lemma scorer_table_none
    (t : Table) (factors_df : list Factor) (cyc : string) (flt : option string) :
  compute_factor_scores_table t factors_df cyc flt = None <->
  factors_df = []
  \/ (has_evidence_link t = false
      /\ exists f fi,
           In f factors_df
           /\ factor_info_of factors_df (f_factor_id f) = Some fi
           /\ f_evidence_required fi = true
           /\ factor_responses_of (cycle_rows (body t) cyc flt) (f_factor_id f) <> []).
Proof.
  destruct (table_scorer_cases t factors_df cyc flt)
    as [[(fid & Hfid & Hread) E] | [Hall E]].
  - apply reads_missing_evidence_iff in Hread.
    destruct Hread as (Hcol & fi & Efi & Hreq & Hne).
    apply in_map_iff in Hfid. destruct Hfid as (f & <- & Hf).
    split; [|intros _; exact E]. intros _. right. split; [exact Hcol|].
    exists f, fi. auto.
  - rewrite E. split.
    + intros En. destruct factors_df as [|f0 t0]; [left; reflexivity|].
      destruct (compute_factor_scores_returns (body t) (f0 :: t0) cyc flt)
        as (out & Eo); [discriminate | congruence].
    + intros [-> | (Hcol & f & fi & Hf & Efi & Hreq & Hne)]; [reflexivity|].
      exfalso.
      assert (Hread : reads_missing_evidence t (cycle_rows (body t) cyc flt)
                        factors_df (f_factor_id f) = true).
      { apply reads_missing_evidence_iff. split; [exact Hcol|]. exists fi. auto. }
      rewrite (Hall (f_factor_id f)) in Hread; [discriminate|].
      apply in_map. exact Hf.
Qed.

(** X2.  On a table as loaded the scorer raises in exactly two cases:
    the catalog is empty, or the table lacks the [evidence_link] column
    and some catalog factor that requires evidence has a response in
    the selected cycle and group.  Whenever it returns, it returns the
    frame computed from the table's body. *)
Theorem scorer_raises_iff
    (t : Table) (factors_df : list Factor) (cyc : string) (flt : option string) :
  (compute_factor_scores_table t factors_df cyc flt = None <->
   factors_df = []
   \/ (has_evidence_link t = false
       /\ exists f fi,
            In f factors_df
            /\ factor_info_of factors_df (f_factor_id f) = Some fi
            /\ f_evidence_required fi = true
            /\ factor_responses_of (cycle_rows (body t) cyc flt) (f_factor_id f) <> []))
  /\ (forall out,
        compute_factor_scores_table t factors_df cyc flt = Some out ->
        compute_factor_scores (body t) factors_df cyc flt = Some out)
  /\ (has_evidence_link t = true ->
      compute_factor_scores_table t factors_df cyc flt
      = compute_factor_scores (body t) factors_df cyc flt).
Proof.
  split; [apply scorer_table_none|]. split.
  - intros out Eo. apply table_frame. exact Eo.
  - intros Hc.
    destruct (table_scorer_cases t factors_df cyc flt)
      as [[(fid & _ & Hread) _] | [_ E]]; [|exact E].
    apply reads_missing_evidence_iff in Hread. destruct Hread as [Hcol _]. congruence.
Qed.

Lemma scorer_raises_iff_witness :
  compute_factor_scores_table (Sample.without_evidence Sample.invoice_answers)
    Sample.catalog "2024-H1" None = None
  /\ compute_factor_scores_table (Sample.without_evidence Sample.five_answers)
       Sample.catalog "2024-H1" None
     = compute_factor_scores Sample.five_answers Sample.catalog "2024-H1" None.
Proof.
  split.
  - destruct (scorer_raises_iff (Sample.without_evidence Sample.invoice_answers)
                Sample.catalog "2024-H1"%string None) as ((_ & H) & _).
    apply H. right. split; [reflexivity|].
    exists Sample.invoicing, Sample.invoicing.
    split; [right; left; reflexivity|]. split; [reflexivity|].
    split; [reflexivity|]. vm_compute. discriminate.
  - destruct (scorer_raises_iff (Sample.without_evidence Sample.five_answers)
                Sample.catalog "2024-H1"%string None) as (_ & H & _).
    symmetry. vm_compute. symmetry. apply H. vm_compute. reflexivity.
Defined.

(* ------------------------------------------------------------------ *)
(** ** Trend tables *)

Lemma frame_nonempty (df : Responses) (factors_df : list Factor) (cyc : string)
    (flt : option string) (out : list ScoreRow) :
  compute_factor_scores df factors_df cyc flt = Some out -> out <> [].
Proof.
  intros E. destruct factors_df as [|f t]; [discriminate|].
  destruct (scored_row_exists df (f :: t) cyc flt f (or_introl eq_refl))
    as (out' & r & E' & Hr & _).
  rewrite E in E'. injection E' as <-. intros ->. contradiction.
Qed.

Lemma trend_cycle_some (t : Table) (factors_df : list Factor) (cyc : string)
    (scores : list ScoreRow) :
  compute_factor_scores_table t factors_df cyc None = Some scores ->
  exists o,
    compute_overall_score (compute_area_scores scores) = Some o
    /\ trend_cycle t factors_df cyc
       = Some ({| ot_cycle_id := cyc;
                  ot_overall_index := overall_index o;
                  ot_overall_level := overall_level o;
                  ot_overall_proficiency := overall_proficiency o;
                  ot_overall_coverage := overall_coverage o |},
               map (fun a =>
                      {| at_cycle_id := cyc; at_area := area a;
                         at_area_index := area_index a;
                         at_area_level := area_level a;
                         at_avg_proficiency := avg_proficiency a;
                         at_avg_coverage := avg_coverage a |})
                   (compute_area_scores scores),
               map (fun factor =>
                      {| ft_cycle_id := cyc;
                         ft_factor_id := factor_id (score factor);
                         ft_factor_name := f_factor_name (info factor);
                         ft_index_adjusted := index_adjusted (score factor) |})
                   (firstn 10 scores)).
Proof.
  intros E.
  pose proof (frame_nonempty _ _ _ _ _ (table_frame _ _ _ _ _ E)) as Hsne.
  destruct (compute_overall_score (compute_area_scores scores)) as [o|] eqn:Eo.
  - exists o. split; [reflexivity|].
    unfold trend_cycle. rewrite E. cbn [bind]. rewrite Eo. reflexivity.
  - exfalso. apply (compute_area_scores_nonempty scores Hsne).
    apply compute_overall_score_none. exact Eo.
Qed.

Lemma trend_cycle_none (t : Table) (factors_df : list Factor) (cyc : string) :
  trend_cycle t factors_df cyc = None <->
  compute_factor_scores_table t factors_df cyc None = None.
Proof.
  destruct (compute_factor_scores_table t factors_df cyc None) as [scores|] eqn:E.
  - destruct (trend_cycle_some t factors_df cyc scores E) as (o & _ & Et).
    rewrite Et. split; discriminate.
  - unfold trend_cycle. rewrite E. split; reflexivity.
Qed.

Lemma unique_nil (l : list string) : unique l = [] -> l = [].
Proof. destruct l; [reflexivity | discriminate]. Qed.

Lemma length_flat_map_const {A B : Type} (f : A -> list B) (k : nat) (l : list A) :
  (forall x, In x l -> List.length (f x) = k) ->
  List.length (flat_map f l) = (List.length l * k)%nat.
Proof.
  induction l as [|a t IH]; intros H; simpl; [reflexivity|].
  rewrite length_app, (H a (or_introl eq_refl)), IH; [reflexivity|].
  intros x Hx. apply H. right. exact Hx.
Qed.

(** When the trend computation fails. *)
Lemma compute_trend_data_none (t : Table) (factors_df : list Factor)
    (actions_df : list Action) :
  compute_trend_data t factors_df actions_df = None <->
  (factors_df = [] /\ rows (body t) <> [])
  \/ (has_evidence_link t = false
      /\ exists r fi,
           In r (rows (body t))
           /\ factor_info_of factors_df (r_factor_id r) = Some fi
           /\ f_evidence_required fi = true).
Proof.
  unfold compute_trend_data.
  set (cycles := unique (map r_cycle_id (rows (body t)))).
  assert (Hbind : (per_cycle <- mapM (trend_cycle t factors_df) cycles ;;
                   Some {| overall := map (fun x => fst (fst x)) per_cycle;
                           by_area := flat_map (fun x => snd (fst x)) per_cycle;
                           by_factor := flat_map (fun x => snd x) per_cycle |}) = None
                  <-> mapM (trend_cycle t factors_df) cycles = None).
  { destruct (mapM (trend_cycle t factors_df) cycles); simpl;
      split; try discriminate; reflexivity. }
  rewrite Hbind, mapM_none_iff. clear Hbind.
  assert (Hcyc : forall c, In c cycles <->
                   exists r, In r (rows (body t)) /\ r_cycle_id r = c).
  { intros c. unfold cycles. rewrite unique_In, in_map_iff.
    split; intros (r & H1 & H2); exists r; auto. }
  assert (Hsel : forall r, In r (rows (body t)) ->
            In r (factor_responses_of (cycle_rows (body t) (r_cycle_id r) None)
                    (r_factor_id r))).
  { intros r Hr. unfold factor_responses_of, cycle_rows, select, with_rows.
    cbn [rows]. apply filter_In. split; [|apply String.eqb_refl].
    apply filter_In. split; [exact Hr | apply String.eqb_refl]. }
  split.
  - intros (c & Hc & En). apply trend_cycle_none in En.
    apply (proj1 (Hcyc c)) in Hc. destruct Hc as (r0 & Hr0 & _).
    destruct (scorer_table_none t factors_df c None) as [Hto _].
    destruct (Hto En) as [-> | (Hcol & f & fi & Hf & Efi & Hreq & Hne)].
    + left. split; [reflexivity|]. intros E. rewrite E in Hr0. contradiction.
    + right. split; [exact Hcol|].
      destruct (factor_responses_of (cycle_rows (body t) c None) (f_factor_id f))
        as [|r rs] eqn:Er; [contradiction|].
      assert (Hr : In r (factor_responses_of (cycle_rows (body t) c None)
                           (f_factor_id f))) by (rewrite Er; left; reflexivity).
      unfold factor_responses_of in Hr. apply filter_In in Hr.
      destruct Hr as [Hr Hid]. apply String.eqb_eq in Hid.
      apply cycle_rows_incl in Hr.
      exists r, fi. rewrite Hid. auto.
  - intros [(-> & Hne) | (Hcol & r & fi & Hr & Efi & Hreq)].
    + assert (Hex : exists r, In r (rows (body t))).
      { destruct (rows (body t)) as [|r rs]; [contradiction|].
        exists r. left. reflexivity. }
      destruct Hex as (r & Hr). exists (r_cycle_id r). split.
      * apply Hcyc. exists r. auto.
      * reflexivity.
    + exists (r_cycle_id r). split; [apply Hcyc; exists r; auto|].
      apply trend_cycle_none.
      destruct (scorer_table_none t factors_df (r_cycle_id r) None) as [_ Hfrom].
      apply Hfrom. right. split; [exact Hcol|].
      destruct (factor_info_of_inv _ _ _ Efi) as [Hin Hid].
      exists fi, fi. split; [exact Hin|]. rewrite Hid.
      split; [exact Efi|]. split; [exact Hreq|].
      intros E. pose proof (Hsel r Hr) as H. rewrite E in H. contradiction.
Qed.

(** X17.  The trend computation fails in exactly two cases: there are
    responses but no catalog, or the table lacks the [evidence_link]
    column and holds a response to a factor that requires evidence.
    When it returns, the overall table has one row per distinct cycle,
    in order of first appearance, each with a level in 1..5; and when
    the catalog lists every factor once, the factor table has
    min(10, number of factors) rows per cycle and the area table one
    row per cycle and catalog area. *)
Theorem trend_tables_shape (responses_df : Table) (factors_df : list Factor)
    (actions_df : list Action) :
  (compute_trend_data responses_df factors_df actions_df = None <->
   (factors_df = [] /\ rows (body responses_df) <> [])
   \/ (has_evidence_link responses_df = false
       /\ exists r fi,
            In r (rows (body responses_df))
            /\ factor_info_of factors_df (r_factor_id r) = Some fi
            /\ f_evidence_required fi = true))
  /\ forall t, compute_trend_data responses_df factors_df actions_df = Some t ->
       let cycles := unique (map r_cycle_id (rows (body responses_df))) in
       map ot_cycle_id (overall t) = cycles
       /\ Forall (fun o => (1 <= ot_overall_level o)%Z /\ (ot_overall_level o <= 5)%Z)
                 (overall t)
       /\ (NoDup (map f_factor_id factors_df) ->
           List.length (by_factor t)
           = (List.length cycles * Nat.min 10 (List.length factors_df))%nat
           /\ List.length (by_area t)
              = (List.length cycles
                 * List.length (unique (map f_area factors_df)))%nat).
Proof.
  split; [apply compute_trend_data_none|].
  intros td E. cbv zeta. unfold compute_trend_data in E.
  set (cycles := unique (map r_cycle_id (rows (body responses_df)))) in *.
  destruct (mapM (trend_cycle responses_df factors_df) cycles) as [per|] eqn:Em;
    [|discriminate].
  cbn [bind] in E. injection E as <-. cbn [overall by_area by_factor].
  assert (Hper : per = map (trend_rows responses_df factors_df) cycles).
  { apply (mapM_some_rows _ no_trend _ _ Em). }
  assert (Hrow : forall c, In c cycles ->
             exists scores o,
               compute_factor_scores (body responses_df) factors_df c None = Some scores
               /\ compute_overall_score (compute_area_scores scores) = Some o
               /\ fst (fst (trend_rows responses_df factors_df c))
                  = {| ot_cycle_id := c;
                       ot_overall_index := overall_index o;
                       ot_overall_level := overall_level o;
                       ot_overall_proficiency := overall_proficiency o;
                       ot_overall_coverage := overall_coverage o |}
               /\ List.length (snd (fst (trend_rows responses_df factors_df c)))
                  = List.length (compute_area_scores scores)
               /\ List.length (snd (trend_rows responses_df factors_df c))
                  = Nat.min 10 (List.length scores)).
  { intros c Hc.
    destruct (compute_factor_scores_table responses_df factors_df c None)
      as [scores|] eqn:Es.
    - destruct (trend_cycle_some responses_df factors_df c scores Es) as (o & Eo & Et).
      exists scores, o. unfold trend_rows. rewrite Et. cbn [fst snd].
      rewrite !length_map, length_firstn.
      split; [apply (table_frame _ _ _ _ _ Es) | auto].
    - exfalso. apply trend_cycle_none in Es.
      assert (Hn : mapM (trend_cycle responses_df factors_df) cycles = None)
        by (apply mapM_none_iff; exists c; auto).
      congruence. }
  rewrite Hper, !map_map, !flat_map_concat_map, !map_map, <- !flat_map_concat_map.
  split; [|split].
  - rewrite <- (map_id cycles) at 2. apply map_ext_in.
    intros c Hc. destruct (Hrow c Hc) as (scores & o & _ & _ & -> & _). reflexivity.
  - apply Forall_forall. intros x Hx. apply in_map_iff in Hx.
    destruct Hx as (c & <- & Hc).
    destruct (Hrow c Hc) as (scores & o & _ & Eo & -> & _). cbn [ot_overall_level].
    destruct (compute_area_scores scores) as [|a l]; [discriminate|].
    simpl in Eo. injection Eo as <-. cbn [overall_level]. lia.
  - intros Hnd. split.
    + apply length_flat_map_const. intros c Hc.
      destruct (Hrow c Hc) as (scores & o & E1 & _ & _ & _ & ->).
      destruct (frame_of_unique_catalog _ _ _ _ _ Hnd E1) as (_ & Hlen).
      rewrite Hlen. reflexivity.
    + apply length_flat_map_const. intros c Hc.
      destruct (Hrow c Hc) as (scores & o & E1 & _ & _ & -> & _).
      destruct (frame_of_unique_catalog _ _ _ _ _ Hnd E1) as (Hinfo & _).
      unfold compute_area_scores. rewrite length_map.
      rewrite <- (map_map info f_area), Hinfo. reflexivity.
Qed.

Lemma trend_tables_shape_witness :
  compute_trend_data (Sample.without_evidence Sample.invoice_answers)
    Sample.catalog [] = None.
Proof.
  destruct (trend_tables_shape (Sample.without_evidence Sample.invoice_answers)
              Sample.catalog []) as ((_ & H) & _).
  apply H. right. split; [reflexivity|].
  exists (Sample.answer "2024-H1" "Finance" "INV01" 3 None), Sample.invoicing.
  split; [left; reflexivity|]. split; reflexivity.
Defined.

(* ------------------------------------------------------------------ *)
(** ** Level names, descriptions and colours *)

Lemma py_int_inject_Z (z : Z) : py_int (inject_Z z) = z.
Proof. unfold py_int. simpl. apply Z.quot_1_r. Qed.

Lemma py_int_level (x : Q) :
  (1 <= py_int x <= 5)%Z <-> 1 <= x /\ x < 6.
Proof.
  destruct x as [n d]. unfold py_int, Qle, Qlt. cbn [Qnum Qden].
  rewrite !Z.mul_1_l, !Z.mul_1_r.
  destruct (Z_lt_le_dec n 0) as [Hneg | Hpos].
  - split.
    + intros [H1 _]. exfalso.
      assert (Z.quot n (Z.pos d) <= 0)%Z.
      { apply Z.quot_le_upper_bound; lia. }
      lia.
    + intros [H1 _]. lia.
  - rewrite Z.quot_div_nonneg by lia.
    pose proof (Z.div_mod n (Z.pos d) ltac:(lia)) as Hdm.
    pose proof (Z.mod_pos_bound n (Z.pos d) ltac:(lia)) as Hmod.
    split.
    + intros [H1 H5]. split; nia.
    + intros [H1 H6]. split.
      * apply Z.div_le_lower_bound; lia.
      * assert (n / Z.pos d < 6)%Z by (apply Z.div_lt_upper_bound; lia). lia.
Qed.

Lemma level_key_cases (k : Z) :
  (1 <= k <= 5)%Z -> k = 1%Z \/ k = 2%Z \/ k = 3%Z \/ k = 4%Z \/ k = 5%Z.
Proof. lia. Qed.

Lemma dict_get_miss {V : Type} (d : list (Z * V)) (k : Z) (default : V) :
  (forall e, In e d -> fst e <> k) -> dict_get d k default = default.
Proof.
  induction d as [|[k' v] t IH]; intros H; simpl; [reflexivity|].
  destruct (Z.eqb k k') eqn:E.
  - apply Z.eqb_eq in E. exfalso. apply (H (k', v)); [left; reflexivity | simpl; lia].
  - apply IH. intros e He. apply H. right. exact He.
Qed.

(** X18.  A level has a name, a description and a colour of its own exactly
    when it truncates to one of 1..5, that is when [1 <= level < 6];
    outside that range all three lookups fall back to their defaults. *)
Theorem level_labels_defined (level : Q) :
  (1 <= level /\ level < 6 ->
   get_maturity_level_name level <> "Unknown"%string
   /\ get_maturity_level_description level <> "Unknown level"%string
   /\ get_maturity_color level <> "#95a5a6"%string)
  /\ (~ (1 <= level /\ level < 6) ->
      get_maturity_level_name level = "Unknown"%string
      /\ get_maturity_level_description level = "Unknown level"%string
      /\ get_maturity_color level = "#95a5a6"%string).
Proof.
  unfold get_maturity_level_name, get_maturity_level_description, get_maturity_color.
  rewrite <- py_int_level. split.
  - intros H. apply level_key_cases in H.
    destruct H as [-> | [-> | [-> | [-> | ->]]]]; repeat split; discriminate.
  - intros H. repeat split; apply dict_get_miss; intros e He; simpl in He;
      repeat (destruct He as [<- | He]; [simpl; lia|]); contradiction.
Qed.

Lemma level_labels_defined_witness :
  get_maturity_level_name (7 # 2) <> "Unknown"%string
  /\ get_maturity_level_description (7 # 2) <> "Unknown level"%string
  /\ get_maturity_color (7 # 2) <> "#95a5a6"%string.
Proof.
  destruct (level_labels_defined (7 # 2)) as [H _].
  apply H. split; [discriminate | reflexivity].
Defined.

(** X19.  The levels produced by the aggregations always have their own
    name, description and colour. *)
Theorem aggregate_levels_labelled :
  (forall factor_scores_df a,
     In a (compute_area_scores factor_scores_df) ->
     get_maturity_level_name (inject_Z (area_level a)) <> "Unknown"%string
     /\ get_maturity_level_description (inject_Z (area_level a)) <> "Unknown level"%string
     /\ get_maturity_color (inject_Z (area_level a)) <> "#95a5a6"%string)
  /\ (forall area_scores_df o,
        compute_overall_score area_scores_df = Some o ->
        get_maturity_level_name (inject_Z (overall_level o)) <> "Unknown"%string
        /\ get_maturity_level_description (inject_Z (overall_level o))
           <> "Unknown level"%string
        /\ get_maturity_color (inject_Z (overall_level o)) <> "#95a5a6"%string).
Proof.
  assert (Hkey : forall z, (1 <= z <= 5)%Z ->
            get_maturity_level_name (inject_Z z) <> "Unknown"%string
            /\ get_maturity_level_description (inject_Z z) <> "Unknown level"%string
            /\ get_maturity_color (inject_Z z) <> "#95a5a6"%string).
  { intros z Hz.
    unfold get_maturity_level_name, get_maturity_level_description, get_maturity_color.
    rewrite py_int_inject_Z. apply level_key_cases in Hz.
    destruct Hz as [-> | [-> | [-> | [-> | ->]]]]; repeat split; discriminate. }
  split.
  - intros rows a Ha. apply Hkey. unfold compute_area_scores in Ha.
    apply in_map_iff in Ha. destruct Ha as (nm & <- & _). cbn [area_level]. lia.
  - intros l o E. apply Hkey. destruct l as [|a t]; [discriminate|].
    simpl in E. injection E as <-. cbn [overall_level]. lia.
Qed.

Lemma aggregate_levels_labelled_witness :
  get_maturity_level_name (inject_Z (area_level Sample.first_area)) <> "Unknown"%string
  /\ get_maturity_level_description (inject_Z (area_level Sample.first_area))
     <> "Unknown level"%string
  /\ get_maturity_color (inject_Z (area_level Sample.first_area)) <> "#95a5a6"%string.
Proof.
  destruct aggregate_levels_labelled as [H _].
  apply (H Sample.scored_five). left. reflexivity.
Defined.

(* ------------------------------------------------------------------ *)
(** ** Completion percentage *)

(** X20.  The completion percentage always lies between 0 and 100; it is 100
    on a frame without rows, and on a frame with rows exactly when the
    responses reach ten per factor. *)
Theorem completion_percentage_bounds (factor_scores_df : list ScoreRow) :
  let actual := list_sum (map (fun r => n_responses (score r)) factor_scores_df) in
  0 <= calculate_completion_percentage factor_scores_df
  /\ calculate_completion_percentage factor_scores_df <= 100
  /\ (factor_scores_df = [] -> calculate_completion_percentage factor_scores_df = 100)
  /\ (factor_scores_df <> [] ->
      (calculate_completion_percentage factor_scores_df = 100 <->
       (List.length factor_scores_df * 10 <= actual)%nat)).
Proof.
  cbv zeta. unfold calculate_completion_percentage.
  destruct factor_scores_df as [|r0 t] eqn:El.
  - simpl. split; [discriminate|]. split; [discriminate|].
    split; [reflexivity|]. intros Hnil. contradiction.
  - rewrite <- El.
    set (len := List.length factor_scores_df).
    set (actual := list_sum (map (fun r => n_responses (score r)) factor_scores_df)).
    assert (Hlen : (0 < len)%nat) by (unfold len; rewrite El; simpl; lia).
    assert (Hz : (len * 10 =? 0)%nat = false) by (apply Nat.eqb_neq; lia).
    rewrite Hz. unfold py_min_num.
    assert (Htot : 0 < Qnat (len * 10)) by (apply Qnat_pos; lia).
    assert (Hratio0 : 0 <= Qnat actual / Qnat (len * 10) * 100).
    { apply Qmult_le_0_compat; [|discriminate].
      apply Qle_shift_div_l; [exact Htot|]. rewrite Qmult_0_l. apply Qnat_nonneg. }
    assert (Hiff : Qnat actual / Qnat (len * 10) * 100 < 100 <->
                   (actual < len * 10)%nat).
    { split.
      - intros H. destruct (Nat.lt_ge_cases actual (len * 10)) as [Hlt | Hge];
          [exact Hlt|]. exfalso.
        apply Qnat_le in Hge.
        assert (1 <= Qnat actual / Qnat (len * 10)).
        { apply Qle_shift_div_l; [exact Htot|]. rewrite Qmult_1_l. exact Hge. }
        lra.
      - intros H.
        assert (Hq : Qnat actual < Qnat (len * 10)).
        { unfold Qnat. rewrite <- Zlt_Qlt. lia. }
        assert (Qnat actual / Qnat (len * 10) < 1).
        { apply Qlt_shift_div_r; [exact Htot|]. rewrite Qmult_1_l. exact Hq. }
        lra. }
    destruct (Qlt_bool (Qnat actual / Qnat (len * 10) * 100) 100) eqn:E.
    + apply Qlt_bool_iff in E. pose proof (proj1 Hiff E) as Hlt.
      split; [exact Hratio0|]. split; [lra|]. split; [intros H; congruence|].
      intros _. split.
      * intros H. rewrite H in E. apply Qlt_irrefl in E. contradiction.
      * intros H. lia.
    + apply Qlt_bool_false_iff in E.
      split; [discriminate|]. split; [discriminate|]. split; [reflexivity|].
      intros _. split; [|reflexivity]. intros _.
      destruct (Nat.lt_ge_cases actual (len * 10)) as [Hlt | Hge]; [|exact Hge].
      apply Hiff in Hlt. lra.
Qed.

Lemma completion_percentage_bounds_witness :
  calculate_completion_percentage [] = 100.
Proof.
  destruct (completion_percentage_bounds []) as (_ & _ & H & _).
  apply H. reflexivity.
Defined.

(* ------------------------------------------------------------------ *)
(** ** The dashboard's filters *)

Lemma le_bound_iff (a : num) (bound : Q) :
  le_bound a bound = true <-> exists d, a = Some d /\ d <= bound.
Proof.
  unfold le_bound, cmp2. destruct a as [d|].
  - rewrite Qle_bool_iff. split.
    + intros H. exists d. auto.
    + intros (x & E & H). injection E as ->. exact H.
  - split; [discriminate | intros (x & E & _); discriminate].
Qed.

Lemma sidebar_filters_in (selected_area : string) (show_evidence_only : bool)
    (min_responses : nat) (max_dispersion : Q) (factor_scores : list ScoreRow)
    (r : ScoreRow) :
  In r (sidebar_filters selected_area show_evidence_only min_responses
          max_dispersion factor_scores) <->
  In r factor_scores
  /\ (selected_area = "All"%string \/ f_area (info r) = selected_area)
  /\ (show_evidence_only = true -> 0 < evidence_rate (score r))
  /\ (min_responses <= n_responses (score r))%nat
  /\ exists d, dispersion (score r) = Some d /\ d <= max_dispersion.
Proof.
  unfold sidebar_filters.
  rewrite filter_In, andb_true_iff, Nat.leb_le, le_bound_iff.
  assert (Harea : In r (if negb (String.eqb selected_area "All")
                        then filter (fun r => String.eqb (f_area (info r)) selected_area)
                               factor_scores
                        else factor_scores) <->
                  In r factor_scores
                  /\ (selected_area = "All"%string \/ f_area (info r) = selected_area)).
  { destruct (String.eqb selected_area "All") eqn:E; simpl.
    - apply String.eqb_eq in E. tauto.
    - apply String.eqb_neq in E. rewrite filter_In, String.eqb_eq. tauto. }
  destruct show_evidence_only.
  - rewrite filter_In, Harea, Qgt_bool_iff. split.
    + intros (((H1 & H2) & H3) & H4 & H5). auto 8.
    + intros (H1 & H2 & H3 & H4 & H5). auto 8.
  - rewrite Harea. split.
    + intros ((H1 & H2) & H4 & H5). repeat split; auto. discriminate.
    + intros (H1 & H2 & _ & H4 & H5). auto.
Qed.

(** X22.  What passes the dashboard's filters, and what that means for the
    backlog: with a minimum of at least one response no factor without
    responses survives, so every gap row computed from the filtered
    frame is priced with the product of the three quality terms, never
    with the flat 0.1. *)
Theorem dashboard_backlog_is_sampled
    (selected_area : string) (show_evidence_only : bool)
    (min_responses : nat) (max_dispersion : Q)
    (factor_scores : list ScoreRow) (actions_df : list Action) (g : Gap) :
  (1 <= min_responses)%nat ->
  In g (compute_gap_analysis
          (sidebar_filters selected_area show_evidence_only min_responses
             max_dispersion factor_scores)
          actions_df) ->
  exists factor action,
    In factor factor_scores /\ In action actions_df
    /\ g = gap_row factor action
    /\ (min_responses <= n_responses (score factor))%nat
    /\ (exists d, dispersion (score factor) = Some d /\ d <= max_dispersion)
    /\ priority_score g == stated_priority factor g.
Proof.
  intros Hmin Hg. apply compute_gap_analysis_in in Hg.
  destruct Hg as (factor & a & Hf & Ha & _ & _ & _ & ->).
  apply sidebar_filters_in in Hf. destruct Hf as (Hin & _ & _ & Hn & Hd).
  exists factor, a. split; [exact Hin|]. split; [exact Ha|].
  split; [reflexivity|]. split; [exact Hn|]. split; [exact Hd|].
  unfold stated_priority. rewrite gap_row_priority.
  cbn [impact effort gap_levels gap_row].
  rewrite (quality_factor_of_stated factor) by lia.
  rewrite py_max_Qmax. reflexivity.
Qed.

Lemma dashboard_backlog_is_sampled_witness :
  exists factor action,
    In factor Sample.scored_unanimous /\ In action [Sample.raise_level]
    /\ gap_row Sample.planning_row Sample.raise_level = gap_row factor action
    /\ (3 <= n_responses (score factor))%nat
    /\ (exists d, dispersion (score factor) = Some d /\ d <= 2)
    /\ priority_score (gap_row Sample.planning_row Sample.raise_level)
       == stated_priority factor (gap_row Sample.planning_row Sample.raise_level).
Proof.
  apply (dashboard_backlog_is_sampled "All" false 3 2 Sample.scored_unanimous
           [Sample.raise_level]).
  - lia.
  - vm_compute. left. reflexivity.
Defined.

(** X21.  The filters keep exactly the rows of the chosen area (all areas
    for ['All']), with a positive evidence rate when the evidence
    switch is on, with at least the minimum number of responses and
    with a defined dispersion within the maximum.  On the scorer's
    frame a factor without responses has no dispersion, so it never
    passes, even with a minimum of zero. *)
Theorem sidebar_filters_select
    (df : Responses) (factors_df : list Factor) (cyc : string)
    (flt : option string) (factor_scores : list ScoreRow)
    (selected_area : string) (show_evidence_only : bool)
    (min_responses : nat) (max_dispersion : Q) :
  compute_factor_scores df factors_df cyc flt = Some factor_scores ->
  forall r,
    (In r (sidebar_filters selected_area show_evidence_only min_responses
             max_dispersion factor_scores) <->
     In r factor_scores
     /\ (selected_area = "All"%string \/ f_area (info r) = selected_area)
     /\ (show_evidence_only = true -> 0 < evidence_rate (score r))
     /\ (min_responses <= n_responses (score r))%nat
     /\ exists d, dispersion (score r) = Some d /\ d <= max_dispersion)
    /\ (In r (sidebar_filters selected_area show_evidence_only min_responses
                max_dispersion factor_scores) ->
        (1 <= n_responses (score r))%nat).
Proof.
  intros E r. split; [apply sidebar_filters_in|].
  intros Hr. apply sidebar_filters_in in Hr.
  destruct Hr as (Hin & _ & _ & _ & d & Ed & _).
  destruct (n_responses (score r)) as [|n] eqn:En; [|lia].
  destruct (scored_zero_row _ _ _ _ _ _ E Hin En) as (_ & _ & _ & _ & Hd & _).
  rewrite Hd in Ed. discriminate.
Qed.

Lemma sidebar_filters_select_witness :
  (1 <= n_responses (score Sample.planning_row))%nat.
Proof.
  destruct (sidebar_filters_select Sample.unanimous Sample.catalog "2024-H1" None
              Sample.scored_unanimous "All" false 0 2) with (r := Sample.planning_row)
    as [_ H].
  - vm_compute. reflexivity.
  - apply H. vm_compute. left. reflexivity.
Defined.

(* ------------------------------------------------------------------ *)
(** ** The quality factor is a discount *)

Lemma unit_product (a b c : Q) :
  0 <= a -> a <= 1 -> 0 <= b -> b <= 1 -> 0 <= c -> c <= 1 ->
  0 <= a * b * c /\ a * b * c <= 1.
Proof.
  intros Ha0 Ha1 Hb0 Hb1 Hc0 Hc1.
  assert (Hab0 : 0 <= a * b) by (apply Qmult_le_0_compat; assumption).
  assert (Hab1 : a * b <= 1).
  { apply Qle_trans with (1 * b); [apply Qmult_le_compat_r; assumption | lra]. }
  split.
  - apply Qmult_le_0_compat; assumption.
  - apply Qle_trans with (1 * c); [apply Qmult_le_compat_r; assumption | lra].
Qed.

Lemma quality_factor_unit (r : ScoreRow) :
  (forall d, dispersion (score r) = Some d -> 0 <= d) ->
  0 <= evidence_rate (score r) -> evidence_rate (score r) <= 1 ->
  0 <= quality_factor_of r /\ quality_factor_of r <= 1.
Proof.
  intros Hd He0 He1. unfold quality_factor_of.
  destruct (0 <? n_responses (score r))%nat; [|split; discriminate].
  cbv zeta. apply unit_product; try assumption.
  - destruct (py_min_cases 1 (Qnat (n_responses (score r)) / 5)) as [[_ E] | [_ E]];
      rewrite E; [|discriminate].
    apply Qle_shift_div_l; [reflexivity|]. rewrite Qmult_0_l. apply Qnat_nonneg.
  - destruct (py_min_cases 1 (Qnat (n_responses (score r)) / 5)) as [[H E] | [_ E]];
      rewrite E; [lra | discriminate].
  - destruct (dispersion (score r)) as [d|]; [|discriminate].
    apply py_max_ge_l.
  - destruct (dispersion (score r)) as [d|] eqn:Ed; [|discriminate].
    specialize (Hd d eq_refl).
    destruct (py_max_cases 0 (1 - d / 2)) as [[_ E] | [_ E]]; rewrite E;
      [|discriminate].
    assert (0 <= d / 2) by (apply Qle_shift_div_l; [reflexivity | lra]).
    lra.
Qed.

(** X23.  For every gap row computed from the scorer's frame the quality
    factor lies between 0 and 1; so when impact and weight are not
    negative, the priority is not negative either and never exceeds the
    undiscounted [(impact * gap_levels * weight) / max(effort, 1)]. *)
Theorem priority_is_discounted
    (df : Responses) (factors_df : list Factor) (cyc : string)
    (flt : option string) (scores : list ScoreRow) (actions_df : list Action)
    (g : Gap) :
  compute_factor_scores df factors_df cyc flt = Some scores ->
  In g (compute_gap_analysis scores actions_df) ->
  exists factor action,
    In factor scores /\ In action actions_df /\ g = gap_row factor action
    /\ 0 <= quality_factor_of factor /\ quality_factor_of factor <= 1
    /\ (0 <= impact g -> 0 <= weight factor ->
        0 <= priority_score g
        /\ priority_score g
           <= (impact g * gap_levels g * weight factor) / Qmax (effort g) 1).
Proof.
  intros E Hg. apply compute_gap_analysis_in in Hg.
  destruct Hg as (factor & a & Hf & Ha & Hlt & _ & _ & ->).
  exists factor, a. split; [exact Hf|]. split; [exact Ha|]. split; [reflexivity|].
  destruct (scored_row_inv _ _ _ _ _ _ E Hf) as (fi & _ & Hsc & _ & _).
  assert (Hq : 0 <= quality_factor_of factor /\ quality_factor_of factor <= 1).
  { apply quality_factor_unit.
    - intros d Hd. rewrite Hsc in Hd.
      apply (factor_score_dispersion_nonneg _ _ _ _ Hd).
    - rewrite Hsc. apply factor_score_evidence_rate.
    - rewrite Hsc. apply factor_score_evidence_rate. }
  destruct Hq as [Hq0 Hq1]. split; [exact Hq0|]. split; [exact Hq1|].
  cbn [impact effort gap_levels gap_row]. intros Hi Hw.
  rewrite gap_row_priority, py_max_Qmax.
  assert (Hgap : 0 < gap_levels_of factor) by (apply gap_levels_of_pos; exact Hlt).
  assert (Hm : 0 < Qmax (a_effort a) 1).
  { apply Qlt_le_trans with 1; [reflexivity | apply Q.le_max_r]. }
  assert (Hbase : 0 <= (a_impact a * gap_levels_of factor * weight factor)
                       / Qmax (a_effort a) 1).
  { apply Qle_shift_div_l; [exact Hm|]. rewrite Qmult_0_l.
    apply Qmult_le_0_compat; [|exact Hw].
    apply Qmult_le_0_compat; [exact Hi | apply Qlt_le_weak; exact Hgap]. }
  set (base := (a_impact a * gap_levels_of factor * weight factor)
               / Qmax (a_effort a) 1) in *.
  split.
  - apply Qmult_le_0_compat; assumption.
  - rewrite <- (Qmult_1_r base) at 2.
    rewrite !(Qmult_comm base). apply Qmult_le_compat_r; assumption.
Qed.

Lemma priority_is_discounted_witness :
  exists factor action,
    In factor Sample.scored_silent
    /\ In action [Sample.raise_level]
    /\ gap_row (hd Sample.no_row Sample.scored_silent) Sample.raise_level
       = gap_row factor action
    /\ 0 <= quality_factor_of factor /\ quality_factor_of factor <= 1
    /\ (0 <= impact (gap_row (hd Sample.no_row Sample.scored_silent) Sample.raise_level) ->
        0 <= weight factor ->
        0 <= priority_score
               (gap_row (hd Sample.no_row Sample.scored_silent) Sample.raise_level)
        /\ priority_score
             (gap_row (hd Sample.no_row Sample.scored_silent) Sample.raise_level)
           <= (impact (gap_row (hd Sample.no_row Sample.scored_silent)
                         Sample.raise_level)
               * gap_levels (gap_row (hd Sample.no_row Sample.scored_silent)
                               Sample.raise_level)
               * weight factor)
              / Qmax (effort (gap_row (hd Sample.no_row Sample.scored_silent)
                                Sample.raise_level)) 1).
Proof.
  apply (priority_is_discounted Sample.five_answers Sample.catalog "2025-H1" None
           Sample.scored_silent [Sample.raise_level]).
  - vm_compute. reflexivity.
  - vm_compute. left. reflexivity.
Defined.

(* ------------------------------------------------------------------ *)
(** ** Responses to unknown factors, and duplicated catalog rows *)

Lemma factor_score_ext (cd1 cd2 : Responses) (fi : Factor) (fid : string) :
  has_proficiency_level cd1 = has_proficiency_level cd2 ->
  has_coverage_level cd1 = has_coverage_level cd2 ->
  has_confidence cd1 = has_confidence cd2 ->
  factor_responses_of cd1 fid = factor_responses_of cd2 fid ->
  factor_score cd1 fi fid = factor_score cd2 fi fid.
Proof.
  intros Hp Hc Hf Hr. unfold factor_score. rewrite Hp, Hc, Hf, Hr. reflexivity.
Qed.

Lemma filter_comm {A : Type} (p q : A -> bool) (l : list A) :
  filter p (filter q l) = filter q (filter p l).
Proof.
  induction l as [|a t IH]; simpl; [reflexivity|].
  destruct (p a) eqn:Ep, (q a) eqn:Eq; simpl; rewrite ?Ep, ?Eq, IH; reflexivity.
Qed.

Lemma filter_implied {A : Type} (p q : A -> bool) (l : list A) :
  (forall x, In x l -> p x = true -> q x = true) ->
  filter p (filter q l) = filter p l.
Proof.
  induction l as [|a t IH]; intros H; simpl; [reflexivity|].
  assert (IH' : filter p (filter q t) = filter p t)
    by (apply IH; intros x Hx; apply H; right; exact Hx).
  destruct (p a) eqn:Ep.
  - rewrite (H a (or_introl eq_refl) Ep). simpl. rewrite Ep, IH'. reflexivity.
  - destruct (q a); simpl; rewrite ?Ep; exact IH'.
Qed.

Lemma cycle_rows_select (p : Response -> bool) (df : Responses) (cyc : string)
    (flt : option string) :
  rows (cycle_rows (select p df) cyc flt) = filter p (rows (cycle_rows df cyc flt)).
Proof.
  unfold cycle_rows. destruct flt as [g|].
  - destruct (truthy (Some g) && negb (String.eqb g "All"));
      unfold select, with_rows; cbn [rows].
    + symmetry. rewrite filter_comm. f_equal. symmetry. apply filter_comm.
    + apply filter_comm.
  - unfold select, with_rows. cbn [rows]. apply filter_comm.
Qed.

(** X6.  Responses that name a factor outside the catalog never reach a
    score: removing them beforehand leaves the scorer's result
    unchanged. *)
Theorem unknown_factors_ignored
    (df : Responses) (factors_df : list Factor) (cyc : string)
    (flt : option string) :
  compute_factor_scores
    (select (fun r => isin (r_factor_id r) (map f_factor_id factors_df)) df)
    factors_df cyc flt
  = compute_factor_scores df factors_df cyc flt.
Proof.
  rewrite !compute_factor_scores_unfold. f_equal.
  unfold score_list. apply map_ext_in. intros fid Hfid.
  set (known := fun r => isin (r_factor_id r) (map f_factor_id factors_df)).
  destruct (cycle_rows_columns (select known df) cyc flt) as (Cp & Cc & Cf).
  destruct (cycle_rows_columns df cyc flt) as (Dp & Dc & Df).
  apply factor_score_ext.
  - rewrite Cp, Dp. reflexivity.
  - rewrite Cc, Dc. reflexivity.
  - rewrite Cf, Df. reflexivity.
  - unfold factor_responses_of. rewrite cycle_rows_select.
    apply filter_implied. intros r _ Hr. apply String.eqb_eq in Hr.
    unfold known. apply isin_iff. rewrite Hr. exact Hfid.
Qed.

Lemma merge_left_some (scores : list FactorScore) (factors_df : list Factor) :
  scores <> [] ->
  merge_left scores factors_df
  = Some (flat_map
            (fun s => map (mkScoreRow s)
               (filter (fun f => String.eqb (f_factor_id f) (factor_id s)) factors_df))
            scores).
Proof.
  destruct scores; [contradiction | reflexivity].
Qed.

Lemma frame_length (df : Responses) (factors_df : list Factor) (cyc : string)
    (flt : option string) (out : list ScoreRow) :
  compute_factor_scores df factors_df cyc flt = Some out ->
  List.length out
  = list_sum
      (map (fun f =>
              List.length
                (filter (fun f' => String.eqb (f_factor_id f') (f_factor_id f))
                        factors_df))
           factors_df).
Proof.
  rewrite compute_factor_scores_unfold.
  destruct factors_df as [|f0 t0] eqn:Ecat; [discriminate|]. rewrite <- Ecat.
  rewrite merge_left_some.
  - intros E. injection E as <-. unfold score_list.
    rewrite length_flat_map_sum, !map_map. f_equal. apply map_ext.
    intros f. rewrite length_map, factor_score_id. reflexivity.
  - unfold score_list. rewrite Ecat. discriminate.
Qed.

(** X4.  A catalog row contributes as many frame rows as the catalog has
    rows with its [factor_id]: a factor listed twice appears four times
    in the frame. *)
Theorem duplicate_ids_multiply_rows
    (df : Responses) (factors_df : list Factor) (cyc : string)
    (flt : option string) (out : list ScoreRow) :
  compute_factor_scores df factors_df cyc flt = Some out ->
  List.length out
  = list_sum
      (map (fun f =>
              List.length
                (filter (fun f' => String.eqb (f_factor_id f') (f_factor_id f))
                        factors_df))
           factors_df)
  /\ (List.length factors_df <= List.length out)%nat.
Proof.
  intros E. rewrite (frame_length _ _ _ _ _ E). split; [reflexivity|].
  rewrite <- (length_map (fun _ => tt) factors_df) at 1.
  assert (Hone : forall l : list Factor,
             List.length l = list_sum (map (fun _ => 1%nat) l)).
  { induction l as [|a t IH]; simpl; [reflexivity | rewrite IH; reflexivity]. }
  rewrite length_map, Hone. apply list_sum_le.
  intros f Hf.
  assert (Hin : In f (filter (fun f' => String.eqb (f_factor_id f') (f_factor_id f))
                        factors_df)).
  { apply filter_In. split; [exact Hf | apply String.eqb_refl]. }
  destruct (filter (fun f' => String.eqb (f_factor_id f') (f_factor_id f)) factors_df);
    [contradiction | simpl; lia].
Qed.

Lemma duplicate_ids_multiply_rows_witness :
  List.length (match compute_factor_scores Sample.five_answers
                       [Sample.planning; Sample.planning] "2024-H1" None with
               | Some out => out
               | None => []
               end) = 4%nat.
Proof.
  destruct (duplicate_ids_multiply_rows Sample.five_answers
              [Sample.planning; Sample.planning] "2024-H1" None
              (match compute_factor_scores Sample.five_answers
                       [Sample.planning; Sample.planning] "2024-H1" None with
               | Some out => out
               | None => []
               end)) as [H _].
  - vm_compute. reflexivity.
  - rewrite H. reflexivity.
Defined.

(* ------------------------------------------------------------------ *)
(** ** The aggregations on the sample *)

(** Two groups answer in the sample cycle; three respondents, four
    responses. *)
Example participation_sample :
  compute_participation_stats
    (Sample.table
       [mkResponse "2024-H1" "ann" "Finance" "PM01" (Some 2) nan nan nan None;
        mkResponse "2024-H1" "ann" "Finance" "INV01" (Some 3) nan nan nan None;
        mkResponse "2024-H1" "bob" "Admin" "PM01" (Some 4) nan nan nan None;
        mkResponse "2024-H1" "cy" "Finance" "PM01" (Some 1) nan nan nan None;
        mkResponse "2023-H2" "dee" "Admin" "PM01" (Some 5) nan nan nan None])
    "2024-H1"
  = {| total_respondents := 3;
       by_group := [ {| group := "Admin"; unique_respondents := 1; total_responses := 1 |};
                     {| group := "Finance"; unique_respondents := 2; total_responses := 3 |} ] |}.
Proof. vm_compute. reflexivity. Qed.

(** One cycle in the sample table: one overall row, one row per area,
    one row per factor. *)
Example trend_sample :
  match compute_trend_data (Sample.loaded Sample.five_answers) Sample.catalog [] with
  | Some t =>
      map ot_cycle_id (overall t) = ["2024-H1"%string]
      /\ map ot_overall_level (overall t) = [2%Z]
      /\ map at_area (by_area t)
         = ["Project Management"%string; "Invoicing Process"%string]
      /\ map ft_factor_id (by_factor t) = ["PM01"%string; "INV01"%string]
  | None => False
  end.
Proof. vm_compute. repeat split. Qed.

(** Without a catalog the trend computation fails as soon as there is
    a response, and the overall score is refused for no areas. *)
Example failures_sample :
  compute_trend_data (Sample.loaded Sample.five_answers) [] [] = None
  /\ compute_trend_data (Sample.loaded (Sample.table [])) [] [] <> None
  /\ compute_overall_score [] = None.
Proof. vm_compute. repeat split. discriminate. Qed.
